(** * auto-description.py: OUI registry cache, MAC organisation resolver
      and neighbour description synthesiser

    A shallow embedding of [src/auto-description/auto-description.py].
    Python text is a [string] whose characters are the code points below
    256; Python 3 semantics is used where Python 2 and 3 differ (true
    division in [is_24h_old], insertion-ordered dictionaries).  The device,
    the remote configlet store and the clock are the fields of a [world]
    that every effectful function threads; an exception is a value of
    [exn] returned in place of the result, the world keeping the effects
    that happened before it was raised. *)

From Stdlib Require Import ZArith Lia Bool List Ascii String DecimalString
  Sorting Permutation.
From stdpp Require Import base gmap strings list.

Local Open Scope string_scope.
Local Open Scope Z_scope.

(** ** Python strings *)

Module Py.

Definition chars (s : string) : list ascii := list_ascii_of_string s.
Definition text (l : list ascii) : string := string_of_list_ascii l.

Definition code (c : ascii) : Z := Z.of_N (N_of_ascii c).

Definition newline : ascii := ascii_of_nat 10.

(** [str.isspace] on the code points below 256; [\s] of [re] on a [str]
    pattern and the stripping done by [int()] use the same class. *)
Definition isspace (c : ascii) : bool :=
  let n := code c in
  ((9 <=? n) && (n <=? 13)) || ((28 <=? n) && (n <=? 32))
  || (n =? 133) || (n =? 160).

Definition isdigit (c : ascii) : bool :=
  let n := code c in (48 <=? n) && (n <=? 57).

(** [s.startswith(p)] *)
Definition startswith (s p : string) : bool := String.prefix p s.

(** [sub in s] for two strings *)
Fixpoint contains (sub s : string) : bool :=
  String.prefix sub s ||
  match s with
  | EmptyString => false
  | String _ s' => contains sub s'
  end.

(** [s.split(sep)] for a one-character separator: every occurrence
    splits, empty pieces are kept, the result is never empty. *)
Fixpoint split_chars (sep : ascii) (l : list ascii) : list (list ascii) :=
  match l with
  | [] => [[]]
  | c :: l' =>
      if Ascii.eqb c sep then [] :: split_chars sep l'
      else match split_chars sep l' with
           | [] => [[c]]
           | w :: ws => (c :: w) :: ws
           end
  end.

Definition split (sep : ascii) (s : string) : list string :=
  map text (split_chars sep (chars s)).

(** [sep.join(l)] *)
Definition join (sep : string) (l : list string) : string :=
  String.concat sep l.

(** [str.upper], exact on ASCII; the other code points stay in place. *)
Definition upper_char (c : ascii) : ascii :=
  let n := code c in
  if (97 <=? n) && (n <=? 122) then ascii_of_N (Z.to_N (n - 32)) else c.

Definition upper (s : string) : string := text (map upper_char (chars s)).

(** [s[-n:]] *)
Definition last_chars (n : nat) (s : string) : string :=
  let l := chars s in text (drop (List.length l - n)%nat l).

(** [s[i:j]] for [0 <= i <= j] *)
Definition slice (i j : nat) (s : string) : string :=
  text (take (j - i)%nat (drop i (chars s))).

Section while.
Context {A : Type} (p : A -> bool).

Fixpoint take_while (l : list A) : list A :=
  match l with
  | x :: l' => if p x then x :: take_while l' else []
  | [] => []
  end.

Fixpoint drop_while (l : list A) : list A :=
  match l with
  | x :: l' => if p x then drop_while l' else l
  | [] => []
  end.
End while.

(** Truthiness of a string: the empty string is falsy. *)
Definition truthy (s : string) : bool :=
  match s with EmptyString => false | _ => true end.

(** [int(s)] for a [str]: surrounding white space is stripped, one sign
    is allowed, the digits may be grouped by single underscores. *)
Fixpoint lstrip (l : list ascii) : list ascii :=
  match l with
  | c :: l' => if isspace c then lstrip l' else l
  | [] => []
  end.

Definition strip (l : list ascii) : list ascii :=
  rev (lstrip (rev (lstrip l))).

(** Reads [digit (_? digit)*]; [after_digit] tells whether the previous
    character was a digit (an underscore is only legal there). *)
Fixpoint digits_value (after_digit : bool) (acc : Z) (l : list ascii)
  : option Z :=
  match l with
  | [] => if after_digit then Some acc else None
  | c :: l' =>
      if isdigit c then digits_value true (10 * acc + (code c - 48)) l'
      else if Ascii.eqb c "_" then
        if after_digit then digits_value false acc l' else None
      else None
  end.

Definition int (s : string) : option Z :=
  match strip (chars s) with
  | c :: l =>
      if Ascii.eqb c "-" then option_map Z.opp (digits_value false 0 l)
      else if Ascii.eqb c "+" then digits_value false 0 l
      else digits_value false 0 (c :: l)
  | [] => None
  end.

End Py.

(** ** Exceptions and the effect monad *)

Inductive exn : Type :=
| AddrFormatError     (* netaddr.AddrFormatError, a direct subclass of Exception *)
| NotRegisteredError  (* netaddr.NotRegisteredError *)
| ValueError          (* also json.JSONDecodeError, its subclass *)
| KeyError
| IndexError
| TypeError.

(** [isinstance(e, ValueError)] *)
Definition is_ValueError (e : exn) : bool :=
  match e with ValueError => true | _ => false end.

Inductive result (A : Type) : Type :=
| Ok (a : A)
| Raise (e : exn).
Arguments Ok {A} a.
Arguments Raise {A} e.

(** ** The part of netaddr the program uses

    [netaddr] is a third-party library; what follows renders its
    [netaddr.EUI] (versions 0.7.19 to 1.x): the address formats of
    [strategy/eui48.py] and [strategy/eui64.py], the version detection of
    [EUI.__init__] and [EUI._set_value], and printing in the [mac_bare]
    dialect, whose [word_fmt] is ['%.12X'] and whose [word_sep] is empty. *)

Module Netaddr.

Inductive family : Type := EUI48 | EUI64.

Record EUI : Type := mkEUI { value : Z; version : family }.

(** [int(c, 16)] on one character; the formats are compiled with
    [re.IGNORECASE]. *)
Definition hex_digit (c : ascii) : option Z :=
  let n := Py.code c in
  if (48 <=? n) && (n <=? 57) then Some (n - 48)
  else if (65 <=? n) && (n <=? 70) then Some (n - 55)
  else if (97 <=? n) && (n <=? 102) then Some (n - 87)
  else None.

Fixpoint hex_value (acc : Z) (l : list ascii) : option Z :=
  match l with
  | [] => Some acc
  | c :: l' =>
      match hex_digit c with
      | Some d => hex_value (16 * acc + d) l'
      | None => None
      end
  end.

(** One entry of [RE_MAC_FORMATS] / [RE_EUI64_FORMATS]: [groups] words
    of [min_len] to [max_len] hexadecimal digits joined by [sep]
    ([None]: a single bare word). *)
Record format : Type := mkFormat
  { sep : option ascii; groups : nat; min_len : nat; max_len : nat }.

Definition eui48_formats : list format :=
  [ mkFormat (Some ":"%char) 6 1 2; mkFormat (Some "-"%char) 6 1 2;
    mkFormat (Some ":"%char) 3 1 4; mkFormat (Some "-"%char) 3 1 4;
    mkFormat (Some "."%char) 3 1 4;
    mkFormat (Some "-"%char) 2 5 6; mkFormat (Some ":"%char) 2 5 6;
    mkFormat None 1 12 12; mkFormat None 1 11 11 ].

Definition eui64_formats : list format :=
  [ mkFormat (Some ":"%char) 8 1 2; mkFormat (Some "-"%char) 8 1 2;
    mkFormat (Some ":"%char) 4 1 4; mkFormat (Some "-"%char) 4 1 4;
    mkFormat (Some "."%char) 4 1 4;
    mkFormat None 1 16 16 ].

(** The value of the words of one format: every word is padded to
    [max_len] digits (['%.2x'], ['%.4x'], ['%.6x']) before the words are
    concatenated and read in base 16. *)
Fixpoint words_value (f : format) (acc : Z) (ws : list (list ascii))
  : option Z :=
  match ws with
  | [] => Some acc
  | w :: ws' =>
      if (min_len f <=? List.length w)%nat && (List.length w <=? max_len f)%nat
      then match hex_value 0 w with
           | Some v => words_value f (Z.shiftl acc (4 * Z.of_nat (max_len f)) + v) ws'
           | None => None
           end
      else None
  end.

Definition match_format (f : format) (l : list ascii) : option Z :=
  let ws := match sep f with
            | Some c => Py.split_chars c l
            | None => [l]
            end in
  if (List.length ws =? groups f)%nat then words_value f 0 ws else None.

(** The formats end in [$], which also matches just before a final
    newline. *)
Definition chomp (l : list ascii) : list ascii :=
  match rev l with
  | c :: r => if Ascii.eqb c Py.newline then rev r else l
  | [] => l
  end.

(** [module.str_to_int(addr)]: the first format that matches; [None]
    stands for [AddrFormatError]. *)
Fixpoint first_format (fs : list format) (l : list ascii) : option Z :=
  match fs with
  | [] => None
  | f :: fs' =>
      match match_format f l with
      | Some v => Some v
      | None => first_format fs' l
      end
  end.

Definition str_to_int (fs : list format) (s : string) : option Z :=
  first_format fs (chomp (Py.chars s)).

Definition max_int48 : Z := 2 ^ 48 - 1.
Definition max_int64 : Z := 2 ^ 64 - 1.

(** One turn of the detection loop of [EUI._set_value] for a string:
    the module's [str_to_int], and when it fails the fallback
    [0 <= int(value) <= module.max_int]. *)
Definition detect (fs : list format) (max_int : Z) (s : string) : option Z :=
  match str_to_int fs s with
  | Some v => Some v
  | None =>
      match Py.int s with
      | Some n => if (0 <=? n) && (n <=? max_int) then Some n else None
      | None => None
      end
  end.

(** [netaddr.EUI(addr)] for a string *)
Definition EUI_of_str (s : string) : result EUI :=
  match detect eui48_formats max_int48 s with
  | Some v => Ok (mkEUI v EUI48)
  | None =>
      match detect eui64_formats max_int64 s with
      | Some v => Ok (mkEUI v EUI64)
      | None => Raise AddrFormatError
      end
  end.

(** [netaddr.EUI(addr)] for an integer: the version follows the range;
    outside both ranges the detection loop hands the integer to
    [str_to_int], which raises [TypeError]. *)
Definition EUI_of_int (n : Z) : result EUI :=
  if (0 <=? n) && (n <=? max_int48) then Ok (mkEUI n EUI48)
  else if (max_int48 <? n) && (n <=? max_int64) then Ok (mkEUI n EUI64)
  else Raise TypeError.

Definition hex_char (d : Z) : ascii :=
  ascii_of_N (Z.to_N (if d <? 10 then 48 + d else 55 + d)).

(** ['%.<n>X' % v] for [0 <= v < 16 ^ n] *)
Fixpoint hex_upper (n : nat) (v : Z) : list ascii :=
  match n with
  | O => []
  | S n' => hex_char (Z.land (Z.shiftr v (4 * Z.of_nat n')) 15) :: hex_upper n' v
  end.

(** [e.dialect = netaddr.mac_bare; str(e)]: one word of 48 bits;
    [int_to_words] raises [IndexError] on a larger value (an EUI-64). *)
Definition str_bare (e : EUI) : result string :=
  if (0 <=? value e) && (value e <=? max_int48)
  then Ok (Py.text (hex_upper 12 (value e)))
  else Raise IndexError.

(** [int(e.bin, 2)] *)
Definition bin_int (e : EUI) : Z := value e.

(** [e.oui.registration().org] against netaddr's bundled IEEE registry,
    a table from the 24-bit OUI to the organisation. *)
Definition oui_of (e : EUI) : Z :=
  match version e with
  | EUI48 => Z.shiftr (value e) 24
  | EUI64 => Z.shiftr (value e) 40
  end.

Definition registration_org (registry : Z -> option string) (e : EUI)
  : result string :=
  match registry (oui_of e) with
  | Some org => Ok org
  | None => Raise NotRegisteredError
  end.

End Netaddr.

(** ** Python dictionaries with string keys

    A [dict] keeps its keys in insertion order, which is the order
    [json.dumps], [.values()] and [.keys()] follow; a key occurs once. *)

Module Dict.

Definition t (V : Type) : Type := list (string * V).

Section ops.
Context {V : Type}.

(** [d[k]], [None] standing for [KeyError] *)
Fixpoint get (k : string) (d : t V) : option V :=
  match d with
  | [] => None
  | (k', v) :: d' => if String.eqb k k' then Some v else get k d'
  end.

(** [k in d] *)
Definition mem (k : string) (d : t V) : bool :=
  match get k d with Some _ => true | None => false end.

(** [d[k] = v]: an existing key keeps its place, a new one goes last. *)
Fixpoint set (k : string) (v : V) (d : t V) : t V :=
  match d with
  | [] => [(k, v)]
  | (k', v') :: d' =>
      if String.eqb k k' then (k', v) :: d' else (k', v') :: set k v d'
  end.

Definition keys (d : t V) : list string := map fst d.
Definition values (d : t V) : list V := map snd d.
End ops.

End Dict.

(** ** json.dumps and json.loads on the values the program exchanges

    The cache is a dictionary from strings to strings.  [loads] reads
    exactly the JSON objects whose members are strings with code points
    below 256; any other text is reported as [ValueError], which is what
    [json.loads] raises on text that is not JSON. *)

Module Json.

Definition chr (n : Z) : ascii := ascii_of_N (Z.to_N n).
Definition quote : ascii := chr 34.       (* the double quote *)
Definition backslash : ascii := chr 92.

Definition hex_lower_char (d : Z) : ascii :=
  chr (if d <? 10 then 48 + d else 87 + d).

(** [ESCAPE_DCT] and the ['\\u{0:04x}'] fallback of
    [py_encode_basestring_ascii]: everything outside the range from
    the space to the tilde is escaped, and so are the backslash and the
    double quote. *)
Definition escape_char (c : ascii) : list ascii :=
  let n := Py.code c in
  if n =? 34 then [backslash; quote]
  else if n =? 92 then [backslash; backslash]
  else if n =? 8 then [backslash; "b"%char]
  else if n =? 12 then [backslash; "f"%char]
  else if n =? 10 then [backslash; "n"%char]
  else if n =? 13 then [backslash; "r"%char]
  else if n =? 9 then [backslash; "t"%char]
  else if (n <? 32) || (126 <? n)
  then [backslash; "u"%char; "0"%char; "0"%char;
        hex_lower_char (Z.shiftr n 4); hex_lower_char (Z.land n 15)]
  else [c].

Definition dump_string (s : string) : list ascii :=
  quote :: flat_map escape_char (Py.chars s) ++ [quote].

Definition dump_member (kv : string * string) : list ascii :=
  dump_string (fst kv) ++ Py.chars ": " ++ dump_string (snd kv).

Fixpoint dump_members (d : Dict.t string) : list ascii :=
  match d with
  | [] => []
  | [kv] => dump_member kv
  | kv :: d' => dump_member kv ++ Py.chars ", " ++ dump_members d'
  end.

(** [json.dumps(d)] with the default separators *)
Definition dumps (d : Dict.t string) : string :=
  Py.text ("{"%char :: dump_members d ++ ["}"%char]).

(** The decoder, one character at a time. *)
Inductive smode : Type :=
| Plain
| Escaped
| Unicode (n : nat) (v : Z).   (* [n] digits of a [\u] escape read so far *)

Inductive state : Type :=
| Start                      (* before the opening brace *)
| Open                       (* after the opening brace *)
| InString (key : option string) (acc : list ascii) (m : smode)
    (* inside a key ([key = None]) or inside the value of [key];
       [acc] holds the characters read so far, last one first *)
| AfterKey (k : string)
| BeforeValue (k : string)
| AfterValue
| AfterComma
| Done
| Fail.

(** White space between JSON tokens *)
Definition ws (c : ascii) : bool :=
  let n := Py.code c in (n =? 32) || (n =? 9) || (n =? 10) || (n =? 13).

Definition close_string (key : option string) (acc : list ascii)
    (d : Dict.t string) : state * Dict.t string :=
  match key with
  | None => (AfterKey (Py.text (rev acc)), d)
  | Some k => (AfterValue, Dict.set k (Py.text (rev acc)) d)
  end.

Definition unescape (c : ascii) : option ascii :=
  let n := Py.code c in
  if n =? 34 then Some quote
  else if n =? 92 then Some backslash
  else if n =? 47 then Some "/"%char
  else if n =? 98 then Some (chr 8)
  else if n =? 102 then Some (chr 12)
  else if n =? 110 then Some (chr 10)
  else if n =? 114 then Some (chr 13)
  else if n =? 116 then Some (chr 9)
  else None.

Definition step (sd : state * Dict.t string) (c : ascii)
  : state * Dict.t string :=
  let (st, d) := sd in
  match st with
  | Start => if ws c then (Start, d)
             else if Ascii.eqb c "{" then (Open, d) else (Fail, d)
  | Open => if ws c then (Open, d)
            else if Ascii.eqb c "}" then (Done, d)
            else if Ascii.eqb c quote then (InString None [] Plain, d)
            else (Fail, d)
  | InString key acc Plain =>
      if Ascii.eqb c quote then close_string key acc d
      else if Ascii.eqb c backslash then (InString key acc Escaped, d)
      else if Py.code c <? 32 then (Fail, d)
      else (InString key (c :: acc) Plain, d)
  | InString key acc Escaped =>
      if Ascii.eqb c "u" then (InString key acc (Unicode 0 0), d)
      else match unescape c with
           | Some c' => (InString key (c' :: acc) Plain, d)
           | None => (Fail, d)
           end
  | InString key acc (Unicode n v) =>
      match Netaddr.hex_digit c with
      | Some h =>
          let v' := 16 * v + h in
          if (n <? 3)%nat then (InString key acc (Unicode (S n) v'), d)
          else if v' <? 256 then (InString key (chr v' :: acc) Plain, d)
          else (Fail, d)
      | None => (Fail, d)
      end
  | AfterKey k => if ws c then (AfterKey k, d)
                  else if Ascii.eqb c ":" then (BeforeValue k, d)
                  else (Fail, d)
  | BeforeValue k => if ws c then (BeforeValue k, d)
                     else if Ascii.eqb c quote then (InString (Some k) [] Plain, d)
                     else (Fail, d)
  | AfterValue => if ws c then (AfterValue, d)
                  else if Ascii.eqb c "," then (AfterComma, d)
                  else if Ascii.eqb c "}" then (Done, d)
                  else (Fail, d)
  | AfterComma => if ws c then (AfterComma, d)
                  else if Ascii.eqb c quote then (InString None [] Plain, d)
                  else (Fail, d)
  | Done => if ws c then (Done, d) else (Fail, d)
  | Fail => (Fail, d)
  end.

Definition run (sd : state * Dict.t string) (l : list ascii)
  : state * Dict.t string := fold_left step l sd.

(** [json.loads(s)] on the texts the cache can hold by the program's
    own doing: an object whose keys and values are strings is decoded,
    a later value of a repeated key replacing the earlier one.  The decoder
    reads no other JSON value (an array, a number, [null], an object with
    a value that is no string, a character above code point 255): there
    [json.loads] returns a value this model has no type for, and no
    statement is made about such texts.  A text that holds no JSON value at
    all raises [ValueError]. *)
Definition loads (s : string) : result (Dict.t string) :=
  match run (Start, []) (Py.chars s) with
  | (Done, d) => Ok d
  | _ => Raise ValueError
  end.

End Json.

(** ** Constants of the program *)

Definition OUI24_MASK : Z := 0xFFFFFF000000.
Definition OUI28_MASK : Z := 0xFFFFFFF00000.
Definition OUI36_MASK : Z := 0xFFFFFFFFF000.
Definition SECONDS_PER_24H : Z := 86400.

Definition OUI_CONFIGLET : string := "oui.json".
Definition VRF_DEFAULT : string := "default".

Definition EXTERNAL_OUI_LOOKUP : bool := true.
Definition CURL_TIMEOUT : Z := 300.
Definition OUI_LIST : string :=
  "https://gitlab.com/wireshark/wireshark/-/raw/master/manuf".

(** The organisation the registry gives to blocks it manages itself *)
Definition IEEERegi : string := "IEEERegi".

(** ** [re.finditer(OUI_PATTERN, response, re.MULTILINE)]

    [OUI_PATTERN] is
    [^(?P<oui>([0-9A-F]{2}[:]){2,5}([0-9A-F]{2}))(\/\d+)?\s(?P<org>\S+).*$].
    With [re.MULTILINE] a match starts at the beginning of a line and
    ends at the end of a line.  The pattern leaves no choice to the
    matcher: the octets are read as long as a colon and two digits follow,
    the digits of the suffix as long as there are digits, and [org] is the
    longest run without white space.  The one white space character [\s]
    may be the newline, in which case the match ends on the next line. *)

Module Re.

(** [[0-9A-F]] *)
Definition upper_hex (c : ascii) : bool :=
  let n := Py.code c in
  ((48 <=? n) && (n <=? 57)) || ((65 <=? n) && (n <=? 70)).

(** The groups [:XX] that follow the first octet: how many, and the
    rest of the line. *)
Fixpoint octets (l : list ascii) : nat * list ascii :=
  match l with
  | c :: a :: b :: r =>
      if Ascii.eqb c ":" && upper_hex a && upper_hex b
      then let (n, r') := octets r in (S n, r')
      else (O, l)
  | _ => (O, l)
  end.

(** [(\/\d+)?]: the rest of the line after the optional suffix, [None]
    when a slash is not followed by a digit. *)
Definition suffix (l : list ascii) : option (list ascii) :=
  match l with
  | c :: r =>
      if Ascii.eqb c "/" then
        match r with
        | d :: _ => if Py.isdigit d then Some (Py.drop_while Py.isdigit r) else None
        | [] => None
        end
      else Some l
  | [] => Some l
  end.

(** The group [oui] at the head of a line, and what follows
    [oui(\/\d+)?] on that line. *)
Definition head (l : list ascii) : option (list ascii * list ascii) :=
  match l with
  | a :: b :: r =>
      if upper_hex a && upper_hex b then
        let (n, r') := octets r in
        if (2 <=? n)%nat && (n <=? 5)%nat then
          match suffix r' with
          | Some rest => Some (take (2 + 3 * n)%nat l, rest)
          | None => None
          end
        else None
      else None
  | _ => None
  end.

(** [\S+] *)
Definition token (l : list ascii) : list ascii :=
  Py.take_while (fun c => negb (Py.isspace c)) l.

(** The matches over the lines of the text, as pairs of the groups
    [oui] and [org]. *)
Fixpoint matches (lines : list (list ascii)) : list (string * string) :=
  match lines with
  | [] => []
  | l :: tl =>
      match head l with
      | Some (oui, c :: rest) =>
          if Py.isspace c then
            match token rest with
            | [] => matches tl
            | org => (Py.text oui, Py.text org) :: matches tl
            end
          else matches tl
      | Some (oui, []) =>
          (* [\s] can only be the newline that ends this line *)
          match tl with
          | l2 :: tl2 =>
              match token l2 with
              | [] => matches tl
              | org => (Py.text oui, Py.text org) :: matches tl2
              end
          | [] => []
          end
      | None => matches tl
      end
  end.

Definition finditer (response : string) : list (string * string) :=
  matches (Py.split_chars Py.newline (Py.chars response)).

End Re.

Definition tab : string := String (ascii_of_nat 9) EmptyString.
Definition nl : string := String Py.newline EmptyString.

(** ** What the device shows

    The trees the [show] commands return are dictionaries; a field the
    program reads under [try] or through [.get] is an [option], [None]
    standing for a missing key, and so is every field whose absence makes
    the program raise [KeyError]. *)

Record neighbor_interface_info : Type := mkInfo
  { interfaceIdType : option string;
    interfaceId_v2 : option string;
    interfaceDescription : option string }.

Record neighbor : Type := mkNeighbor
  { systemName : option string;
    chassisId : option string;
    neighborInterfaceInfo : option neighbor_interface_info }.

(** An entry of [unicastTable.tableEntries] *)
Record mac_entry : Type := mkEntry
  { macAddress : option string; entry_interface : option string }.

(** An entry of [show interfaces], with the two lists [main] attaches. *)
Record interface_t : Type := mkInterface
  { name : string;
    interfaceMembership : option string;
    lldp_neighbors : option (list neighbor);
    mac_address_table : option (list mac_entry) }.

(** A section of [show running-config]: the keys of its [cmds] in order,
    and its list of comments. *)
Record section : Type := mkSection
  { cmds : option (list string); comments : option (list string) }.

Record device : Type := mkDevice
  { show_interfaces : Dict.t interface_t;
    show_lldp_neighbors : Dict.t (option (list neighbor));   (* [lldpNeighborInfo] per interface *)
    show_mac_address_table : list mac_entry;
    show_running_config : Dict.t section }.

(** ** The world outside the program *)

(** A configlet of the remote store, with the fields of the answer of
    [getConfigletByName.do] the program reads. *)
Record configlet : Type := mkConfiglet
  { key : string; dateTimeInLongFormat : Z; config : string }.

(** What the program asks of the device and writes to the store: the
    commands it runs and the two kinds of write request.  The reads of
    the store ([getConfigletByName.do]) change nothing there and are not
    recorded. *)
Inductive event : Type :=
| RunCmds (command : string)
| AddConfiglet (name data : string)
| UpdateConfiglet (ckey name data : string).

(** The two [print] calls of [auto_description] *)
Inductive site : Type := PortChannelSite | InterfaceSite.

(** One [print(TEMPLATE.render(interface=..., description=...))] *)
Record block : Type := mkBlock
  { printed_at : site; interface : string; description : string }.

Record world : Type := mkWorld
  { utcnow : Z;                            (* [datetime.utcnow()], in microseconds since the epoch *)
    run_cmd : string -> option string;     (* a command to [messages[0]] of its response, [None] without [messages] *)
    cvp_up : bool;                         (* [client.connect()] *)
    configlets : gmap string configlet;    (* the store, by configlet name *)
    ieee_registry : Z -> option string;    (* the registry bundled with netaddr *)
    shows : device;                        (* the answers to the [show] commands *)
    stdout : list block;
    history : list event }.

Definition with_configlets (c : gmap string configlet) (w : world) : world :=
  mkWorld (utcnow w) (run_cmd w) (cvp_up w) c (ieee_registry w) (shows w) (stdout w) (history w).

Definition with_stdout (o : list block) (w : world) : world :=
  mkWorld (utcnow w) (run_cmd w) (cvp_up w) (configlets w) (ieee_registry w) (shows w) o (history w).

Definition with_history (h : list event) (w : world) : world :=
  mkWorld (utcnow w) (run_cmd w) (cvp_up w) (configlets w) (ieee_registry w) (shows w) (stdout w) h.

Definition with_utcnow (t : Z) (w : world) : world :=
  mkWorld t (run_cmd w) (cvp_up w) (configlets w) (ieee_registry w) (shows w) (stdout w) (history w).

(** Computations: a result or an exception, and the world after it. *)
Definition M (A : Type) : Type := world -> result A * world.

Definition ret {A : Type} (a : A) : M A := fun w => (Ok a, w).
Definition throw {A : Type} (e : exn) : M A := fun w => (Raise e, w).
Definition lift {A : Type} (r : result A) : M A := fun w => (r, w).

Definition bind {A B : Type} (m : M A) (k : A -> M B) : M B :=
  fun w => match m w with
           | (Ok a, w') => k a w'
           | (Raise e, w') => (Raise e, w')
           end.

Notation "'let!' x ':=' m 'in' k" := (bind m (fun x => k))
  (at level 10, x pattern, m at level 100, k at level 200).

Definition log (e : event) : M unit :=
  fun w => (Ok tt, with_history (history w ++ [e]) w).

Definition print (b : block) : M unit :=
  fun w => (Ok tt, with_stdout (stdout w ++ [b]) w).

(** [TEMPLATE.render(interface=..., description=...)]; [print] ends the
    second line. *)
Definition render (b : block) : string :=
  "interface " +:+ interface b +:+ String Py.newline
  ("   description " +:+ Py.upper (description b)).

(** ** The remote configlet store

    The program reaches the store through four REST calls.  The store
    itself is not part of the program; it is taken to behave as CloudVision
    does: a configlet has a non-empty key issued by the store, and its
    [dateTimeInLongFormat] is the time of its last change in milliseconds.
    A call that cannot connect, or that the store refuses, changes
    nothing. *)

Definition issued_key (name : string) : string := "configlet_" +:+ name.

Definition now_ms (w : world) : Z := utcnow w / 1000.

(** [configlet_exists]: the key and the time stamp, or [(False, 0)];
    [None] stands for the key [False]. *)
Definition configlet_exists (configlet_name : string) : M (option string * Z) :=
  fun w =>
    if cvp_up w then
      match configlets w !! configlet_name with
      | Some c => (Ok (Some (key c), dateTimeInLongFormat c), w)
      | None => (Ok (None, 0), w)
      end
    else (Ok (None, 0), w).

Definition configlet_get (configlet_name : string) : M string :=
  fun w =>
    if cvp_up w then
      match configlets w !! configlet_name with
      | Some c => (Ok (config c), w)
      | None => (Ok "{}", w)
      end
    else (Ok "{}", w).

Definition configlet_add (configlet_data configlet_name : string) : M unit :=
  let! _ := log (AddConfiglet configlet_name configlet_data) in
  fun w =>
    if cvp_up w then
      match configlets w !! configlet_name with
      | Some _ => (Ok tt, w)
      | None =>
          (Ok tt,
           with_configlets
             (<[configlet_name :=
                  mkConfiglet (issued_key configlet_name) (now_ms w) configlet_data]>
                (configlets w)) w)
      end
    else (Ok tt, w).

Definition configlet_update (configlet_data configlet_key configlet_name : string)
  : M unit :=
  let! _ := log (UpdateConfiglet configlet_key configlet_name configlet_data) in
  fun w =>
    if cvp_up w then
      match configlets w !! configlet_name with
      | Some c =>
          if String.eqb (key c) configlet_key then
            (Ok tt,
             with_configlets
               (<[configlet_name :=
                    mkConfiglet configlet_key (now_ms w) configlet_data]>
                  (configlets w)) w)
          else (Ok tt, w)
      | None => (Ok tt, w)
      end
    else (Ok tt, w).

(** [is_24h_old]: [timestamp] is in milliseconds; the difference of the
    two [datetime] values is exact to the microsecond and [total_seconds()]
    exceeds 86400 exactly when it exceeds 86400000000 microseconds. *)
Definition is_24h_old (timestamp : Z) : M bool :=
  fun w => (Ok (SECONDS_PER_24H * 1000000 <? utcnow w - timestamp * 1000), w).

(** Truthiness of the key [configlet_exists] returns *)
Definition key_truthy (k : option string) : bool :=
  match k with Some s => Py.truthy s | None => false end.

Definition key_text (k : option string) : string :=
  match k with Some s => s | None => "" end.

(** ** class DUT *)

Module DUT.

(** [curl]: the command line is rendered as the source formats it; a
    response without [messages] gives [None]. *)
Definition curl_command (url : string) (timeout : Z) (vrf : string) : string :=
  "bash timeout " +:+ DecimalString.NilZero.string_of_int (Z.to_int timeout)
  +:+ " "
  +:+ (if String.eqb vrf VRF_DEFAULT then ""
       else "sudo ip netns exec ns-" +:+ vrf)
  +:+ " curl --silent " +:+ url.

Definition curl (url : string) (timeout : Z) (vrf : string) : M (option string) :=
  let command := curl_command url timeout vrf in
  let! _ := log (RunCmds command) in
  fun w => (Ok (run_cmd w command), w).

(** The body of the loop of [_download] up to the dictionary update:
    the key a matched prefix is stored under. *)
Definition normalize (oui : string) : result string :=
  let oui := if (String.length oui =? 8)%nat then oui +:+ ":00:00:00" else oui in
  match Netaddr.EUI_of_str oui with
  | Ok e => Netaddr.str_bare e
  | Raise e => Raise e
  end.

(** [if oui not in db or db[oui] == "IEEERegi": db[oui] = org] *)
Definition merge (db : Dict.t string) (oui org : string) : Dict.t string :=
  match Dict.get oui db with
  | None => Dict.set oui org db
  | Some bound => if String.eqb bound IEEERegi then Dict.set oui org db else db
  end.

Fixpoint download_loop (ms : list (string * string)) (db : Dict.t string)
  : result (Dict.t string) :=
  match ms with
  | [] => Ok db
  | (oui, org) :: ms' =>
      match normalize oui with
      | Ok k => download_loop ms' (merge db k org)
      | Raise e => Raise e
      end
  end.

Definition _download (vrf : string) : M (Dict.t string) :=
  let! response := curl OUI_LIST CURL_TIMEOUT vrf in
  match response with
  | None => ret []
  | Some text =>
      if Py.truthy text then lift (download_loop (Re.finditer text) [])
      else ret []
  end.

(** [(not key) or (timestamp and is_24h_old(timestamp))] *)
Definition update_needed (key : option string) (timestamp : Z) : M bool :=
  if negb (key_truthy key) then ret true
  else if timestamp =? 0 then ret false
  else is_24h_old timestamp.

(** The body of [if update_needed:] *)
Definition refresh (key : option string) (vrf : string) : M unit :=
  let! downloaded := _download vrf in
  let db := Json.dumps downloaded in
  if Py.truthy db && negb (key_truthy key) then
    configlet_add db OUI_CONFIGLET
  else if Py.truthy db && key_truthy key then
    configlet_update db (key_text key) OUI_CONFIGLET
  else ret tt.

Definition oui_list (vrf : string) : M (Dict.t string) :=
  let! found := configlet_exists OUI_CONFIGLET in
  let (key, timestamp) := found : option string * Z in
  let! needed := update_needed key timestamp in
  let! _ := (if needed : bool then refresh key vrf else ret tt) in
  let! stored := configlet_get OUI_CONFIGLET in
  lift (Json.loads stored).

(** The loop over the three masks, with its [break]. *)
Fixpoint mask_loop (db : Dict.t string) (mac_address : Netaddr.EUI)
    (masks : list Z) (org : string) : result string :=
  match masks with
  | [] => Ok org
  | mask :: masks' =>
      match Netaddr.EUI_of_int (Z.land (Netaddr.bin_int mac_address) mask) with
      | Ok oui =>
          match Netaddr.str_bare oui with
          | Ok oui =>
              match Dict.get oui db with
              | Some bound => Ok bound
              | None => mask_loop db mac_address masks' org
              end
          | Raise e => Raise e
          end
      | Raise e => Raise e
      end
  end.

(** [":".join(str(mac_address)[-6:][i : i + 2] for i in range(0, 6, 2))] *)
Definition last_six (bare : string) : string :=
  let tail := Py.last_chars 6 bare in
  Py.join ":" [Py.slice 0 2 tail; Py.slice 2 4 tail; Py.slice 4 6 tail].

(** [org_from_mac], with the module constant [EXTERNAL_OUI_LOOKUP] as a
    parameter so that both branches of the source are there. *)
Definition org_from_mac_with (external : bool) (mac_address vrf : string)
  : M string :=
  let org := "Unknown" in
  let! mac_address := lift (Netaddr.EUI_of_str mac_address) in
  let! org :=
    (if external then
       let! db := oui_list vrf in
       lift (mask_loop db mac_address [OUI36_MASK; OUI28_MASK; OUI24_MASK] org)
     else
       fun w => match Netaddr.registration_org (ieee_registry w) mac_address with
                | Ok registered => (Ok registered, w)
                | Raise NotRegisteredError => (Ok org, w)
                | Raise e => (Raise e, w)
                end) in
  let! bare := lift (Netaddr.str_bare mac_address) in
  ret (org +:+ ", " +:+ last_six bare).

Definition org_from_mac (mac_address vrf : string) : M string :=
  org_from_mac_with EXTERNAL_OUI_LOOKUP mac_address vrf.

End DUT.

(** ** The module-level functions *)

(** [is_mac] *)
Definition is_mac (mac_address : string) : result bool :=
  match Netaddr.EUI_of_str mac_address with
  | Ok _ => Ok true
  | Raise AddrFormatError => Ok false
  | Raise e => Raise e
  end.

(** [d[k]] raising [KeyError] *)
Definition item {A : Type} (o : option A) : M A :=
  match o with Some a => ret a | None => throw KeyError end.

(** [vrf_from_terminattr] *)
Fixpoint vrf_of_args (args : list string) (vrf : string) : result string :=
  match args with
  | [] => Ok vrf
  | arg :: args' =>
      if negb (Py.startswith arg "-cvvrf") then vrf_of_args args' vrf
      else match Py.split "=" arg with
           | _ :: value :: _ => vrf_of_args args' value
           | _ => Raise IndexError
           end
  end.

Definition vrf_from_terminattr (running_config : Dict.t section) : result string :=
  let vrf := VRF_DEFAULT in
  match Dict.get "daemon TerminAttr" running_config with
  | None => Ok vrf                         (* [{}["cmds"]]: KeyError *)
  | Some daemon =>
      match cmds daemon with
      | None => Ok vrf                     (* KeyError *)
      | Some keys =>
          match List.find (Py.contains "exec") keys with
          | None => Ok vrf                 (* StopIteration *)
          | Some command => vrf_of_args (Py.split " " command) vrf
          end
      end
  end.

(** [sorted(interfaces.values(), key=lambda x: x["name"])]: a stable
    sort by name, strings compared by code point. *)
Fixpoint insert_by_name (x : interface_t) (l : list interface_t)
  : list interface_t :=
  match l with
  | [] => [x]
  | y :: l' =>
      if String.leb (name x) (name y) then x :: l else y :: insert_by_name x l'
  end.

Definition sorted_by_name (l : list interface_t) : list interface_t :=
  foldr insert_by_name [] l.

Definition eqb_some (o : option string) (s : string) : bool :=
  match o with Some x => String.eqb x s | None => false end.

(** The text of a single LLDP neighbour that is not a MAC address: the
    else-branch of [if is_mac(description)].  It returns the description
    of the interface and the port-channels described so far. *)
Definition describe_host (intf : interface_t) (n : neighbor)
    (description : string) (port_channels : gset string)
  : M (string * gset string) :=
  let! info := item (neighborInterfaceInfo n) in
  let! id_type := item (interfaceIdType info) in
  let! neighbor_interface_id :=
    (if String.eqb id_type "interfaceName" then item (interfaceId_v2 info)
     else item (interfaceDescription info)) in
  (* shorten fqdn to simple hostname *)
  let description := hd "" (Py.split "." description) in
  (* add description to port-channel if this intf is a member *)
  let! port_channels :=
    match interfaceMembership intf with
    | None => ret port_channels            (* KeyError: pass *)
    | Some membership =>
        match Py.split " " membership with
        | _ :: _ :: port_channel :: _ =>
            let! _ :=
              (if decide (port_channel ∈ port_channels) then ret tt
               else print (mkBlock PortChannelSite port_channel description)) in
            ret ({[port_channel]} ∪ port_channels)
        | _ => throw IndexError
        end
    end in
  (* add neighbor intf to description *)
  ret (description +:+ ", " +:+ neighbor_interface_id, port_channels).

(** One turn of the loop of [auto_description]. *)
Definition describe (vrf : string) (running_config : Dict.t section)
    (intf : interface_t) (port_channels : gset string) : M (gset string) :=
  if negb (Py.startswith (name intf) "Ethernet")
     && negb (Py.startswith (name intf) "Management")
  then ret port_channels
  else
    let! config := item (Dict.get ("interface " +:+ name intf) running_config) in
    let! notes := item (comments config) in
    if existsb (String.eqb "no auto-description") notes then ret port_channels
    else
      let! described :=
        match lldp_neighbors intf with
        | Some [n] =>
            let! description :=
              match systemName n with
              | Some host => ret host
              | None => item (chassisId n)
              end in
            let! mac := lift (is_mac description) in
            if mac : bool then
              let! description := DUT.org_from_mac description vrf in
              ret (Some description, port_channels)
            else
              let! named := describe_host intf n description port_channels in
              ret (Some (fst named), snd named)
        | _ =>
            (* otherwise, try to determine vendor from mac oui *)
            match mac_address_table intf with
            | Some [entry] =>
                let! mac_address := item (macAddress entry) in
                let! description := DUT.org_from_mac mac_address vrf in
                ret (Some description, port_channels)
            | _ => ret (None, port_channels)
            end
        end in
      let! _ :=
        match fst described with
        | Some description =>
            if Py.truthy description
            then print (mkBlock InterfaceSite (name intf) description)
            else ret tt
        | None => ret tt
        end in
      ret (snd described).

Fixpoint describe_all (vrf : string) (running_config : Dict.t section)
    (intfs : list interface_t) (port_channels : gset string) : M (gset string) :=
  match intfs with
  | [] => ret port_channels
  | intf :: intfs' =>
      let! port_channels := describe vrf running_config intf port_channels in
      describe_all vrf running_config intfs' port_channels
  end.

(** [auto_description(dut, interfaces, running_config)] *)
Definition auto_description (interfaces : Dict.t interface_t)
    (running_config : Dict.t section) : M unit :=
  let! vrf := lift (vrf_from_terminattr running_config) in
  let! _ := describe_all vrf running_config
              (sorted_by_name (Dict.values interfaces)) ∅ in
  ret tt.

(** [lldp_neighbors_to_interfaces]: the dictionary of an interface is
    updated in place; a neighbour entry without [lldpNeighborInfo] or for
    an unknown interface is skipped. *)
Fixpoint lldp_neighbors_to_interfaces (interfaces : Dict.t interface_t)
    (lldp_neighbors : Dict.t (option (list neighbor))) : Dict.t interface_t :=
  match lldp_neighbors with
  | [] => interfaces
  | (intf, info) :: rest =>
      let interfaces :=
        match info, Dict.get intf interfaces with
        | Some neighbors, Some i =>
            Dict.set intf
              (mkInterface (name i) (interfaceMembership i) (Some neighbors)
                 (mac_address_table i)) interfaces
        | _, _ => interfaces
        end in
      lldp_neighbors_to_interfaces interfaces rest
  end.

(** [mac_address_table_to_interfaces] *)
Fixpoint mac_address_table_to_interfaces (interfaces : Dict.t interface_t)
    (table : list mac_entry) : Dict.t interface_t :=
  match table with
  | [] => interfaces
  | mac_address :: rest =>
      let interfaces :=
        match entry_interface mac_address with
        | Some intf =>
            match Dict.get intf interfaces with
            | Some i =>
                Dict.set intf
                  (mkInterface (name i) (interfaceMembership i) (lldp_neighbors i)
                     (Some (default [] (mac_address_table i) ++ [mac_address])%list))
                  interfaces
            | None => interfaces
            end
        | None => interfaces
        end in
      mac_address_table_to_interfaces interfaces rest
  end.

(** [DUT.show] *)
Definition show (command : string) : M device :=
  let! _ := log (RunCmds ("show " +:+ command)) in
  fun w => (Ok (shows w), w).

(** [main] *)
Definition main : M unit :=
  let! shown := show "interfaces" in
  let interfaces := show_interfaces shown in
  let! shown := show "lldp neighbors detail" in
  let lldp_neighbors := show_lldp_neighbors shown in
  let! shown := show "mac address-table" in
  let table := show_mac_address_table shown in
  let! shown := show "running-config" in
  let running_config := show_running_config shown in
  let interfaces := lldp_neighbors_to_interfaces interfaces lldp_neighbors in
  let interfaces := mac_address_table_to_interfaces interfaces table in
  auto_description interfaces running_config.

(** How the process ends: normally, or with the traceback of an
    exception nothing caught. *)
Inductive ending : Type :=
| Finished
| Traceback (e : exn).

(** The [if __name__ == "__main__"] block: [try: main()] with
    [except ValueError: pass]. *)
Definition program (w : world) : ending * world :=
  match main w with
  | (Ok _, w') => (Finished, w')
  | (Raise e, w') =>
      if is_ValueError e then (Finished, w') else (Traceback e, w')
  end.

(** ** Notions the statements use *)

(** The command [_download] runs to fetch the registry. *)
Definition fetch_command (vrf : string) : string :=
  DUT.curl_command OUI_LIST CURL_TIMEOUT vrf.

(** The fetch returns no content: [not response] holds. *)
Definition no_content (vrf : string) (w : world) : bool :=
  match run_cmd w (fetch_command vrf) with
  | None => true
  | Some text => negb (Py.truthy text)
  end.

(** The configlet is more than 24 hours old at the time of [w]. *)
Definition stale (w : world) (c : configlet) : bool :=
  SECONDS_PER_24H * 1000000 <? utcnow w - dateTimeInLongFormat c * 1000.

(** One day in microseconds *)
Definition day : Z := SECONDS_PER_24H * 1000000.

(** A call of [oui_list] in [w] refreshes the cache and the store takes
    the result: the store is reachable, and the cache object is absent, or
    present under a truthy key with a time stamp that is not 0 and more
    than 24 hours old. *)
Definition refreshing (w : world) : Prop :=
  cvp_up w = true
  /\ (configlets w !! OUI_CONFIGLET = None
      \/ exists c, configlets w !! OUI_CONFIGLET = Some c
                   /\ Py.truthy (key c) = true
                   /\ dateTimeInLongFormat c <> 0
                   /\ stale w c = true).

(** [str] of a 48-bit value in the [mac_bare] dialect *)
Definition bare (v : Z) : string := Py.text (Netaddr.hex_upper 12 v).

(** The key the resolver looks up for a mask: the masked value of the
    address, printed again. *)
Definition prefix_key (v mask : Z) : string := bare (Z.land v mask).

(** What [org_from_mac] returns for the organisation [org]. *)
Definition answer (org : string) (v : Z) : string :=
  org +:+ ", " +:+ DUT.last_six (bare v).

(** The value of a hexadecimal digit. *)
Definition nib (c : ascii) : Z := default 0 (Netaddr.hex_digit c).

(** The value of a list of hexadecimal digits, the first one the most
    significant. *)
Fixpoint little (ds : list Z) : Z :=
  match ds with
  | [] => 0
  | d :: ds' => d * 16 ^ Z.of_nat (List.length ds') + little ds'
  end.

(** A key of the cache as the code writes it: twelve digits of
    [0-9A-F] and nothing else. *)
Definition bare_key (k : string) : bool :=
  (List.length (Py.chars k) =? 12)%nat && forallb Re.upper_hex (Py.chars k).

(** A prefix of three, five and six octets as the pattern captures it,
    from its digits. *)
Definition colon : ascii := ":"%char.

Definition three_octets (a b c d e f : ascii) : string :=
  Py.text [a; b; colon; c; d; colon; e; f].

Definition five_octets (a b c d e f g h i j : ascii) : string :=
  Py.text [a; b; colon; c; d; colon; e; f; colon; g; h; colon; i; j].

Definition six_octets (a b c d e f g h i j k l : ascii) : string :=
  Py.text [a; b; colon; c; d; colon; e; f; colon; g; h; colon; i; j; colon; k; l].

(** The blocks [auto_description] printed for the port-channel [pc] at
    its port-channel [print]. *)
Definition port_channel_block (pc : string) (b : block) : bool :=
  match printed_at b with
  | PortChannelSite => String.eqb (interface b) pc
  | InterfaceSite => false
  end.

Definition port_channel_lines (pc : string) (out : list block) : nat :=
  List.length (List.filter (port_channel_block pc) out).

(** All the blocks printed for the interface name [intf]. *)
Definition lines_for (intf : string) (out : list block) : nat :=
  List.length (List.filter (fun b => String.eqb (interface b) intf) out).

(** Names the loop of [auto_description] describes itself. *)
Definition eligible (intf : string) : bool :=
  Py.startswith intf "Ethernet" || Py.startswith intf "Management".

(** [emits m Q]: from any world, [m] appends some blocks [out] to the
    standard output, and [Q] holds of [out] and of the result. *)
Definition emits {A : Type} (m : M A) (Q : list block -> result A -> Prop) : Prop :=
  forall w, exists out, stdout (snd (m w)) = (stdout w ++ out)%list /\ Q out (fst (m w)).

(** [quiet m]: [m] prints nothing. *)
Definition quiet {A : Type} (m : M A) : Prop :=
  forall w, stdout (snd (m w)) = stdout w.

(** What one turn of the loop may print, given the port-channels
    [pcs] described before it; [after] is the set the turn hands on. *)
Definition tracked (pcs : gset string) (out : list block)
    (after : option (gset string)) : Prop :=
  (forall pc, (port_channel_lines pc out <= 1)%nat)
  /\ (forall pc, pc ∈ pcs -> port_channel_lines pc out = 0%nat)
  /\ (forall b, In b out -> printed_at b = InterfaceSite ->
                eligible (interface b) = true)
  /\ match after with
     | Some pcs' =>
         pcs ⊆ pcs' /\ (forall pc, port_channel_lines pc out = 1%nat -> pc ∈ pcs')
     | None => True
     end.

(** The set of port-channels a result carries, if it is one. *)
Definition handed_on {A : Type} (r : result (A * gset string)) : option (gset string) :=
  match r with Ok x => Some (snd x) | Raise _ => None end.

Definition handed (r : result (gset string)) : option (gset string) :=
  match r with Ok x => Some x | Raise _ => None end.

(** The whole loop: whatever it printed, no port-channel was printed
    twice, none of those known before was printed, and an interface block
    names an Ethernet or Management interface. *)
Definition once (pcs : gset string) (out : list block) : Prop :=
  (forall pc, (port_channel_lines pc out <= 1)%nat)
  /\ (forall pc, pc ∈ pcs -> port_channel_lines pc out = 0%nat)
  /\ (forall b, In b out -> printed_at b = InterfaceSite ->
                eligible (interface b) = true).

(** The two states of the decoder in which a key may start. *)
Definition before_key (st : Json.state) : Prop :=
  st = Json.Open \/ st = Json.AfterComma.

(** ** Situations *)

(** A device that shows nothing. *)
Definition no_device : device := mkDevice [] [] [] [].

(** A device that answers the download of the registry with [doc]
    whatever the VRF, at [now] microseconds, in front of a store holding
    [store]. *)
Definition world_with (now : Z) (doc : option string)
    (store : gmap string configlet) : world :=
  mkWorld now (fun _ => doc) true store (fun _ => None) no_device [] [].

(** A line of the registry: the prefix, a tab, the organisation. *)
Definition line (prefix org : string) : string := prefix +:+ tab +:+ org +:+ nl.

(** A store holding the cache [db], last changed at [timestamp]
    milliseconds. *)
Definition cached (timestamp : Z) (db : Dict.t string) : gmap string configlet :=
  {[ OUI_CONFIGLET := mkConfiglet (issued_key OUI_CONFIGLET) timestamp (Json.dumps db) ]}.

(** A cache with the one binding of 00:00:0C. *)
Definition cisco : Dict.t string := [("00000C000000", "Cisco")].

(** A cache that binds the 36-bit, the 28-bit and the 24-bit prefix of
    AA:BB:CC:DD:EE:FF. *)
Definition three_prefixes : Dict.t string :=
  [("AABBCC000000", "Wide"); ("AABBCCD00000", "Middle"); ("AABBCCDDE000", "Narrow")].

(** Two registry documents with two lines for the prefix 00:50:C2. *)
Definition placeholder_then_acme : string :=
  line "00:50:C2" "IEEERegi" +:+ line "00:50:C2" "Acme".

Definition acme_then_placeholder : string :=
  line "00:50:C2" "Acme" +:+ line "00:50:C2" "IEEERegi".

(** A registry with a Cisco line, then a line whose prefix has five
    octets. *)
Definition five_octet_document : string :=
  line "00:00:0C" "Cisco" +:+ line "AA:BB:CC:DD:EE" "Five".

(** A registry whose only line has a prefix of two octets. *)
Definition two_octet_document : string := line "AA:BB" "Two".

(** A stale Cisco cache in front of a device whose fetch fails. *)
Definition stale_cache_world : world :=
  world_with (1700000000000000 + day + 1) None (cached 1700000000000 cisco).


(** A fresh Cisco cache, and a bundled registry that knows AA:BB:CC. *)
Definition acme_registry (oui : Z) : option string :=
  if oui =? 0xAABBCC then Some "Acme" else None.

Definition acme_world : world :=
  mkWorld 1700000000000000 (fun _ => None) true (cached 1700000000000 cisco)
    acme_registry no_device [] [].

(** A device with one Ethernet interface that learnt one address, which
    is not a MAC address. *)
Definition bad_mac_device : device :=
  mkDevice [("Ethernet1", mkInterface "Ethernet1" None None None)] []
    [mkEntry (Some "not-a-mac") (Some "Ethernet1")]
    [("interface Ethernet1", mkSection (Some []) (Some []))].

Definition bad_mac_world : world :=
  mkWorld 1700000000000000 (fun _ => None) true (cached 1700000000000 cisco)
    (fun _ => None) bad_mac_device [] [].

(** Two members of Port-Channel1 that both see host1.example.com. *)
Definition host1 (port : string) : neighbor :=
  mkNeighbor (Some "host1.example.com") (Some "aa:bb:cc:dd:ee:ff")
    (Some (mkInfo (Some "interfaceName") (Some port) None)).

Definition member (intf port : string) : string * interface_t :=
  (intf, mkInterface intf (Some "Member of Port-Channel1") (Some [host1 port]) None).

Definition two_members : Dict.t interface_t :=
  [member "Ethernet2" "Ethernet4"; member "Ethernet1" "Ethernet3"].

Definition two_members_config : Dict.t section :=
  [("interface Ethernet1", mkSection (Some []) (Some []));
   ("interface Ethernet2", mkSection (Some []) (Some []))].

(** ** Further notions and situations *)

(** [arg] is a [-cvvrf] argument. *)
Definition is_vrf_flag (arg : string) : bool := Py.startswith arg "-cvvrf".

(** The arguments of the first command of the TerminAttr daemon that
    contains [exec], when the running configuration has one. *)
Definition exec_args (running_config : Dict.t section) : option (list string) :=
  match Dict.get "daemon TerminAttr" running_config with
  | Some daemon =>
      match cmds daemon with
      | Some keys => option_map (Py.split " ") (List.find (Py.contains "exec") keys)
      | None => None
      end
  | None => None
  end.

(** A running configuration whose TerminAttr daemon runs [command]. *)
Definition terminattr_config (command : string) : Dict.t section :=
  [("daemon TerminAttr", mkSection (Some [command; "no shutdown"]) (Some []))].

(** An interface with another list of LLDP neighbours, as the
    assignment [interfaces[interface]["lldp_neighbors"] = ...] leaves it. *)
Definition with_lldp_neighbors (neighbors : list neighbor) (i : interface_t)
  : interface_t :=
  mkInterface (name i) (interfaceMembership i) (Some neighbors) (mac_address_table i).

(** The entries [setdefault("mac_address_table", []).append] leaves on
    an interface that had [old] and receives [entries] one by one. *)
Definition appended (old : option (list mac_entry)) (entries : list mac_entry)
  : option (list mac_entry) :=
  match entries with
  | [] => old
  | _ => Some (default [] old ++ entries)%list
  end.

(** The entries of the table learnt on [intf]. *)
Definition learnt_on (intf : string) (table : list mac_entry) : list mac_entry :=
  List.filter (fun entry => eqb_some (entry_interface entry) intf) table.

(** The order of [sorted(..., key=lambda x: x["name"])] *)
Definition name_le (a b : interface_t) : Prop := String.leb (name a) (name b) = true.

(** The interfaces called [n], in the order of the list. *)
Definition named (n : string) (l : list interface_t) : list interface_t :=
  List.filter (fun i => String.eqb (name i) n) l.

(** The running configuration of [intf] carries the comment
    [no auto-description]. *)
Definition marked (running_config : Dict.t section) (intf : string) : bool :=
  match Dict.get ("interface " +:+ intf) running_config with
  | Some config =>
      match comments config with
      | Some notes => existsb (String.eqb "no auto-description") notes
      | None => false
      end
  | None => false
  end.

(** The blocks of the interfaces themselves, without those of the
    port-channels. *)
Definition interface_blocks (out : list block) : list block :=
  List.filter (fun b => match printed_at b with
                        | InterfaceSite => true
                        | PortChannelSite => false
                        end) out.

(** [membership.split(" ")[2]] *)
Definition third_token (membership : string) : option string :=
  match Py.split " " membership with
  | _ :: _ :: port_channel :: _ => Some port_channel
  | _ => None
  end.

(** [b] is a block the turn of the loop for [intf] may print. *)
Definition block_of (running_config : Dict.t section) (intf : interface_t)
    (b : block) : Prop :=
  eligible (name intf) = true
  /\ marked running_config (name intf) = false
  /\ match printed_at b with
     | InterfaceSite =>
         interface b = name intf /\ Py.truthy (description b) = true
     | PortChannelSite =>
         (exists membership, interfaceMembership intf = Some membership
                             /\ third_token membership = Some (interface b))
         /\ ~ In "."%char (Py.chars (description b))
     end.

(** What the loop over [intfs] may print. *)
Definition blocks_of (running_config : Dict.t section) (intfs : list interface_t)
    (out : list block) : Prop :=
  Forall (fun b => exists intf, In intf intfs /\ block_of running_config intf b) out
  /\ sublist (List.map interface (interface_blocks out)) (List.map name intfs).

(** What one turn of the loop, for [intf], may print. *)
Definition turn_of (rc : Dict.t section) (intf : interface_t) (out : list block) : Prop :=
  Forall (block_of rc intf) out
  /\ sublist (List.map interface (interface_blocks out)) [name intf].

(** [description.split(".")[0]] *)
Definition short_name (host : string) : string := hd "" (Py.split "." host).

(** The identifier of the neighbour's interface [describe_host] appends:
    [interfaceId_v2] when the type is [interfaceName], else
    [interfaceDescription]. *)
Definition neighbor_port (info : neighbor_interface_info) : option string :=
  match interfaceIdType info with
  | Some id_type =>
      if String.eqb id_type "interfaceName" then interfaceId_v2 info
      else interfaceDescription info
  | None => None
  end.

(** The running configuration lets [auto_description] describe [intf]:
    the name is of the right kind, the section of the interface is there
    with its comments, and the comment [no auto-description] is not among
    them. *)
Definition describable (running_config : Dict.t section) (intf : string) : Prop :=
  eligible intf = true
  /\ exists config notes,
      Dict.get ("interface " +:+ intf) running_config = Some config
      /\ comments config = Some notes
      /\ existsb (String.eqb "no auto-description") notes = false.

(** The world after [b] was printed. *)
Definition printing (b : block) (w : world) : world :=
  with_stdout (stdout w ++ [b]) w.

(** What a turn of the loop does with the answer of the resolver. *)
Definition resolved (intf : interface_t) (port_channels : gset string)
    (answered : result string * world) : result (gset string) * world :=
  match answered with
  | (Ok description, w1) =>
      (Ok port_channels, printing (mkBlock InterfaceSite (name intf) description) w1)
  | (Raise e, w1) => (Raise e, w1)
  end.

(** The key a refresh writes the cache under: the key of the object that
    is there, or the one the store issues for a new object. *)
Definition cache_key (w : world) : string :=
  match configlets w !! OUI_CONFIGLET with
  | Some c => key c
  | None => issued_key OUI_CONFIGLET
  end.

(** The request a refresh sends to the store. *)
Definition cache_request (w : world) (data : string) : event :=
  match configlets w !! OUI_CONFIGLET with
  | Some c => UpdateConfiglet (key c) OUI_CONFIGLET data
  | None => AddConfiglet OUI_CONFIGLET data
  end.


(** A device that fetches the line of Cisco, at a time when the store
    cannot be reached. *)
Definition unreachable_world : world :=
  mkWorld 1700000000000000 (fun _ => Some (line "00:00:0C" "Cisco")) false
    (cached 1700000000000 three_prefixes) (fun _ => None) no_device [] [].

(** The three keys the resolver looks up for an address, from the
    digits of the address. *)
Definition zero : ascii := "0"%char.

Definition key36 (a b c d e f g h i : ascii) : string :=
  Py.text [a; b; c; d; e; f; g; h; i; zero; zero; zero].

Definition key28 (a b c d e f g : ascii) : string :=
  Py.text [a; b; c; d; e; f; g; zero; zero; zero; zero; zero].

Definition key24 (a b c d e f : ascii) : string :=
  Py.text [a; b; c; d; e; f; zero; zero; zero; zero; zero; zero].

(** The organisation of the first key that is bound. *)
Fixpoint first_bound (db : Dict.t string) (keys : list string) : string :=
  match keys with
  | [] => "Unknown"
  | k :: keys' =>
      match Dict.get k db with
      | Some org => org
      | None => first_bound db keys'
      end
  end.

(** A text [\S+] matches as a whole. *)
Definition word (s : string) : bool :=
  Py.truthy s && forallb (fun c => negb (Py.isspace c)) (Py.chars s).

(** The commands and write requests the loop of [auto_description] may
    send: the fetch of the registry through the VRF [vrf], and the two
    writes of the cache. *)
Definition cache_traffic (vrf : string) (e : event) : Prop :=
  match e with
  | RunCmds command => command = fetch_command vrf
  | AddConfiglet name _ => name = OUI_CONFIGLET
  | UpdateConfiglet _ name _ => name = OUI_CONFIGLET
  end.

(** From [w] to [w'] the clock, the device and the reachability of the
    store are what they were, every configlet but the cache is what it was,
    and the requests sent are the cache traffic [evs]. *)
Record framed (vrf : string) (w w' : world) (evs : list event) : Prop := mkFramed
  { framed_clock : utcnow w' = utcnow w;
    framed_device : run_cmd w' = run_cmd w /\ shows w' = shows w;
    framed_up : cvp_up w' = cvp_up w;
    framed_store : forall name, name <> OUI_CONFIGLET ->
                                configlets w' !! name = configlets w !! name;
    framed_history : history w' = (history w ++ evs)%list;
    framed_traffic : Forall (cache_traffic vrf) evs }.

Definition frames {A : Type} (vrf : string) (m : M A) : Prop :=
  forall w, exists evs, framed vrf w (snd (m w)) evs.

(** A text without a line break. *)
Definition one_line (s : string) : bool :=
  forallb (fun c => negb (Ascii.eqb c Py.newline)) (Py.chars s).

(** The four commands [main] runs first. *)
Definition show_commands : list event :=
  [RunCmds "show interfaces"; RunCmds "show lldp neighbors detail";
   RunCmds "show mac address-table"; RunCmds "show running-config"].

(** A device whose TerminAttr runs in the VRF MGMT, with one Ethernet
    interface that learnt one address. *)
Definition mgmt_device : device :=
  mkDevice
    [("Ethernet1", mkInterface "Ethernet1" None None None)]
    []
    [mkEntry (Some "00:00:0c:12:34:56") (Some "Ethernet1")]
    [("daemon TerminAttr",
      mkSection (Some ["exec /usr/bin/TerminAttr -cvvrf=MGMT"]) (Some []));
     ("interface Ethernet1", mkSection (Some []) (Some []))].

Definition mgmt_world : world :=
  mkWorld 1700000000000000 (fun _ => Some (line "00:00:0C" "Cisco")) true
    {[ "other" := mkConfiglet "configlet_other" 5 "hostname sw1" ]}
    (fun _ => None) mgmt_device [] [].

(** An Ethernet interface with the neighbour host1 and the membership
    [membership], and its running configuration. *)
Definition lone_interface (membership : string) : interface_t :=
  mkInterface "Ethernet1" (Some membership) (Some [host1 "Ethernet3"]) None.

Definition lone_config : Dict.t section :=
  [("interface Ethernet1", mkSection (Some []) (Some []))].

(** A store that cannot be reached and holds nothing, in front of a
    device whose fetch has no content. *)
Definition unreachable_empty_world : world :=
  mkWorld 1700000000000000 (fun _ => None) false ∅ (fun _ => None) no_device [] [].

(** What identifies an LLDP neighbour: its system name, or without one
    its chassis identifier ([try: neighbor["systemName"]] with
    [except KeyError: neighbor["chassisId"]]). *)
Definition identified (n : neighbor) : option string :=
  match systemName n with
  | Some host => Some host
  | None => chassisId n
  end.

(** What a turn of the loop does with the outcome of [describe_host]. *)
Definition hosted (intf : interface_t)
    (answered : result (string * gset string) * world)
  : result (gset string) * world :=
  match answered with
  | (Ok named, w1) =>
      (Ok (snd named), printing (mkBlock InterfaceSite (name intf) (fst named)) w1)
  | (Raise e, w1) => (Raise e, w1)
  end.



(** A prefix of two and of four octets. *)
Definition two_octets (a b c d : ascii) : string :=
  Py.text [a; b; colon; c; d].

Definition four_octets (a b c d e f g h : ascii) : string :=
  Py.text [a; b; colon; c; d; colon; e; f; colon; g; h].

(** The prefixes the pattern can capture as the group [oui]: three to
    six octets of two digits of [0-9A-F], joined by colons. *)
Inductive matched_prefix : string -> Prop :=
| prefix_three a b c d e f :
    forallb Re.upper_hex [a; b; c; d; e; f] = true ->
    matched_prefix (three_octets a b c d e f)
| prefix_four a b c d e f g h :
    forallb Re.upper_hex [a; b; c; d; e; f; g; h] = true ->
    matched_prefix (four_octets a b c d e f g h)
| prefix_five a b c d e f g h i j :
    forallb Re.upper_hex [a; b; c; d; e; f; g; h; i; j] = true ->
    matched_prefix (five_octets a b c d e f g h i j)
| prefix_six a b c d e f g h i j k l :
    forallb Re.upper_hex [a; b; c; d; e; f; g; h; i; j; k; l] = true ->
    matched_prefix (six_octets a b c d e f g h i j k l).

(** A registry whose only line has a prefix of four octets. *)
Definition four_octet_document (prefix : string) : string := line prefix "Four".

(** ** The embedding on small inputs *)

Example example_EUI_unix :
  Netaddr.EUI_of_str "aa:bb:cc:dd:ee:ff"
  = Ok (Netaddr.mkEUI 0xaabbccddeeff Netaddr.EUI48).
Proof. reflexivity. Qed.

Example example_EUI_bare_str :
  Netaddr.str_bare (Netaddr.mkEUI 0xaabbccddeeff Netaddr.EUI48) = Ok "AABBCCDDEEFF".
Proof. reflexivity. Qed.

Example example_EUI_five : Netaddr.EUI_of_str "AA:BB:CC:DD:EE" = Raise AddrFormatError.
Proof. reflexivity. Qed.

(** Three octets alone are read in the Cisco format, as three words of
    four digits: the reason [_download] extends them first. *)
Example example_EUI_three :
  Netaddr.EUI_of_str "AA:BB:CC" = Ok (Netaddr.mkEUI 0x00aa00bb00cc Netaddr.EUI48).
Proof. reflexivity. Qed.

Example example_EUI_four :
  Netaddr.EUI_of_str "00:00:0C:12" = Ok (Netaddr.mkEUI 0x0000000c0012 Netaddr.EUI64).
Proof. reflexivity. Qed.

Example example_dumps_empty : Json.dumps [] = "{}".
Proof. reflexivity. Qed.

Example example_dumps_one :
  Json.dumps [("00000C000000", "Cisco")]
  = Py.text ("{" :: Json.quote :: Py.chars "00000C000000" ++ Json.quote
             :: Py.chars ": " ++ Json.quote :: Py.chars "Cisco"
             ++ [Json.quote; "}"])%char.
Proof. reflexivity. Qed.

Example example_loads_two :
  Json.loads (Json.dumps [("00000C000000", "Cisco"); ("0050C2000000", "A\b")])
  = Ok [("00000C000000", "Cisco"); ("0050C2000000", "A\b")].
Proof. reflexivity. Qed.

Example example_finditer_manuf :
  Re.finditer ("# comment" +:+ nl +:+
               "00:00:0C" +:+ tab +:+ "Cisco" +:+ tab +:+ "Cisco Systems, Inc" +:+ nl +:+
               "00:1B:C5:00:00:00/36" +:+ tab +:+ "IEEERegi  extra" +:+ nl +:+
               "AA:BB" +:+ tab +:+ "TwoOctets" +:+ nl +:+
               "AA:BB:CC:DD:EE:FF:00" +:+ tab +:+ "Seven" +:+ nl +:+
               "00:50:C2" +:+ nl +:+ "Spanning words" +:+ nl)
  = [("00:00:0C", "Cisco"); ("00:1B:C5:00:00:00", "IEEERegi");
     ("00:50:C2", "Spanning")].
Proof. reflexivity. Qed.

Example example_two_members_output :
  stdout (snd (auto_description two_members two_members_config
                 (world_with 1700000000000000 None ∅)))
  = [mkBlock PortChannelSite "Port-Channel1" "host1";
     mkBlock InterfaceSite "Ethernet1" "host1, Ethernet3";
     mkBlock InterfaceSite "Ethernet2" "host1, Ethernet4"].
Proof. reflexivity. Qed.

(** The resolver on a cache that binds the three prefixes of the
    address. *)
Example example_org_from_mac :
  fst (DUT.org_from_mac "aa:bb:cc:dd:ee:ff" VRF_DEFAULT
         (world_with 1700000000000000 None (cached 1700000000000 three_prefixes)))
  = Ok "Narrow, DD:EE:FF".
Proof. reflexivity. Qed.

Example example_vrf_from_terminattr :
  vrf_from_terminattr
    [("daemon TerminAttr",
      mkSection (Some ["exec /usr/bin/TerminAttr -cvvrf=MGMT"; "no shutdown"]) (Some []))]
  = Ok "MGMT"
  /\ vrf_from_terminattr [] = Ok "default".
Proof. split; reflexivity. Qed.

Example example_render_host1 :
  render (mkBlock InterfaceSite "Ethernet1" "host1, Ethernet3")
  = "interface Ethernet1" +:+ nl +:+ "   description HOST1, ETHERNET3".
Proof. reflexivity. Qed.

(** ** Dictionaries *)

Section dict_facts.
Context {V : Type}.
Implicit Types (d : Dict.t V) (k : string) (v : V).

Lemma get_set_eq k v d : Dict.get k (Dict.set k v d) = Some v.
Proof.
  induction d as [|[k' v'] d IH]; simpl.
  - now rewrite String.eqb_refl.
  - destruct (String.eqb k k') eqn:E; simpl; rewrite E; auto.
Qed.

Lemma get_set_ne k k' v d :
  k <> k' -> Dict.get k' (Dict.set k v d) = Dict.get k' d.
Proof.
  intros Hne. induction d as [|[k0 v0] d IH]; simpl.
  - destruct (String.eqb k' k) eqn:E; auto.
    apply String.eqb_eq in E. congruence.
  - destruct (String.eqb k k0) eqn:E; simpl.
    + apply String.eqb_eq in E. subst k0.
      destruct (String.eqb k' k) eqn:E'; auto.
      apply String.eqb_eq in E'. congruence.
    + destruct (String.eqb k' k0); auto.
Qed.

Lemma keys_set k v d :
  Dict.keys (Dict.set k v d)
  = if Dict.mem k d then Dict.keys d else (Dict.keys d ++ [k])%list.
Proof.
  unfold Dict.mem, Dict.keys.
  induction d as [|[k' v'] d IH]; simpl; auto.
  destruct (String.eqb k k') eqn:E; simpl; auto.
  rewrite IH. destruct (Dict.get k d); auto.
Qed.

Lemma get_None_keys k d : Dict.get k d = None -> ~ In k (Dict.keys d).
Proof.
  unfold Dict.keys. induction d as [|[k' v'] d IH]; simpl; auto.
  destruct (String.eqb k k') eqn:E; [discriminate|].
  intros H [->|Hin]; [now rewrite String.eqb_refl in E | now apply IH].
Qed.

Lemma NoDup_keys_set k v d :
  NoDup (Dict.keys d) -> NoDup (Dict.keys (Dict.set k v d)).
Proof.
  intros Hd. rewrite keys_set. unfold Dict.mem.
  destruct (Dict.get k d) eqn:E; auto.
  apply NoDup_app. repeat split; auto.
  - intros x Hx Hx'. apply list_elem_of_In in Hx, Hx'.
    destruct Hx' as [<-|[]]. now apply (get_None_keys _ _ E).
  - apply NoDup_singleton.
Qed.
End dict_facts.

(** ** The merge rule of [_download] *)

Lemma merge_keeps db k v oui org :
  Dict.get k db = Some v -> v <> IEEERegi ->
  Dict.get k (DUT.merge db oui org) = Some v.
Proof.
  intros Hk Hv. unfold DUT.merge.
  destruct (String.eqb_spec oui k) as [->|Hne].
  - rewrite Hk. destruct (String.eqb_spec v IEEERegi); [contradiction | assumption].
  - destruct (Dict.get oui db) as [bound|].
    + destruct (String.eqb bound IEEERegi); auto. now rewrite get_set_ne.
    + now rewrite get_set_ne.
Qed.

Lemma merge_replaces db k org :
  Dict.get k db = Some IEEERegi -> DUT.merge db k org = Dict.set k org db.
Proof. intros Hk. unfold DUT.merge. now rewrite Hk, String.eqb_refl. Qed.

Lemma download_loop_keeps ms : forall db db' k v,
  DUT.download_loop ms db = Ok db' ->
  Dict.get k db = Some v -> v <> IEEERegi -> Dict.get k db' = Some v.
Proof.
  induction ms as [|[oui org] ms IH]; simpl; intros db db' k v Hrun Hk Hv.
  - now inversion Hrun; subst.
  - destruct (DUT.normalize oui) as [k'|e]; [|discriminate].
    eapply IH; eauto using merge_keeps.
Qed.

(** C4: during one pass of [_download] over the registry document, a
    prefix bound to an organisation other than [IEEERegi] keeps that
    organisation whatever lines follow, and a prefix bound to [IEEERegi]
    takes the organisation of the next line for it; the document with
    IEEERegi then Acme for one prefix yields Acme, and so does the
    document with Acme then IEEERegi. *)
Theorem merge_rule_C4 :
  (forall ms db db' k v,
      DUT.download_loop ms db = Ok db' ->
      Dict.get k db = Some v -> v <> IEEERegi -> Dict.get k db' = Some v)
  /\ (forall oui org ms db k,
      DUT.normalize oui = Ok k -> Dict.get k db = Some IEEERegi ->
      DUT.download_loop ((oui, org) :: ms) db
      = DUT.download_loop ms (Dict.set k org db)
      /\ Dict.get k (Dict.set k org db) = Some org)
  /\ fst (DUT._download VRF_DEFAULT (world_with 0 (Some placeholder_then_acme) ∅))
     = Ok [("0050C2000000", "Acme")]
  /\ fst (DUT._download VRF_DEFAULT (world_with 0 (Some acme_then_placeholder) ∅))
     = Ok [("0050C2000000", "Acme")].
Proof.
  split; [exact download_loop_keeps|].
  split.
  - intros oui org ms db k Hn Hk. simpl. rewrite Hn.
    rewrite (merge_replaces _ _ org Hk). split; [reflexivity | apply get_set_eq].
  - split; vm_compute; reflexivity.
Qed.

Lemma merge_rule_C4_witness :
  Dict.get "0050C2000000"
    (Dict.set "0050C2000000" "Acme" [("0050C2000000", IEEERegi)]) = Some "Acme"
  /\ Dict.get "0050C2000000" [("0050C2000000", "Acme")] = Some "Acme".
Proof.
  destruct merge_rule_C4 as [Hkeep [Hreplace _]].
  split.
  - apply (Hreplace "00:50:C2" "Acme" [] [("0050C2000000", IEEERegi)] "0050C2000000");
      reflexivity.
  - apply (Hkeep [("00:50:C2", IEEERegi)] [("0050C2000000", "Acme")]
             [("0050C2000000", "Acme")] "0050C2000000" "Acme");
      [reflexivity | reflexivity | discriminate].
Defined.

(** ** The cases of [oui_list] *)

Lemma download_no_content vrf w :
  no_content vrf w = true ->
  DUT._download vrf w
  = (Ok [], with_history (history w ++ [RunCmds (fetch_command vrf)]) w).
Proof.
  unfold no_content, DUT._download, DUT.curl, bind, log, fetch_command. simpl.
  destruct (run_cmd w _) as [text|]; [|reflexivity].
  destruct (Py.truthy text); [discriminate | reflexivity].
Qed.

Lemma oui_list_fresh vrf w c :
  cvp_up w = true -> configlets w !! OUI_CONFIGLET = Some c ->
  Py.truthy (key c) = true ->
  dateTimeInLongFormat c = 0 \/ stale w c = false ->
  DUT.oui_list vrf w = (Json.loads (config c), w).
Proof.
  intros Hup Hc Hk Hts.
  unfold DUT.oui_list, bind, configlet_exists, configlet_get, DUT.update_needed.
  rewrite Hup, Hc. simpl. rewrite Hk. simpl.
  assert (Hn : (if dateTimeInLongFormat c =? 0 then ret false
                else is_24h_old (dateTimeInLongFormat c)) w = (Ok false, w)).
  { destruct (Z.eqb_spec (dateTimeInLongFormat c) 0) as [|Hne]; [reflexivity|].
    destruct Hts as [|Hs]; [contradiction|].
    unfold is_24h_old. unfold stale in Hs. now rewrite Hs. }
  rewrite Hn. simpl. rewrite Hup, Hc. reflexivity.
Qed.

Lemma oui_list_absent_no_content vrf w :
  cvp_up w = true -> configlets w !! OUI_CONFIGLET = None ->
  no_content vrf w = true ->
  DUT.oui_list vrf w
  = (Ok [],
     with_configlets
       (<[OUI_CONFIGLET := mkConfiglet (issued_key OUI_CONFIGLET) (now_ms w) "{}"]>
          (configlets w))
       (with_history
          (history w ++ [RunCmds (fetch_command vrf); AddConfiglet OUI_CONFIGLET "{}"])
          w)).
Proof.
  intros Hup Hc Hf.
  unfold DUT.oui_list, bind at 1 2. unfold configlet_exists. rewrite Hup, Hc.
  cbn [DUT.update_needed key_truthy negb ret].
  unfold bind at 1. unfold DUT.refresh, bind at 1.
  rewrite (download_no_content _ _ Hf).
  change (Json.dumps []) with "{}". cbn [Py.truthy key_truthy negb andb].
  unfold configlet_add, bind, log, configlet_get, lift. cbn.
  rewrite Hup, Hc. cbn. rewrite Hup.
  rewrite lookup_insert_eq. cbn.
  rewrite <- app_assoc. reflexivity.
Qed.

Lemma oui_list_stale_no_content vrf w c :
  cvp_up w = true -> configlets w !! OUI_CONFIGLET = Some c ->
  Py.truthy (key c) = true -> dateTimeInLongFormat c <> 0 -> stale w c = true ->
  no_content vrf w = true ->
  DUT.oui_list vrf w
  = (Ok [],
     with_configlets
       (<[OUI_CONFIGLET := mkConfiglet (key c) (now_ms w) "{}"]> (configlets w))
       (with_history
          (history w
           ++ [RunCmds (fetch_command vrf);
               UpdateConfiglet (key c) OUI_CONFIGLET "{}"])
          w)).
Proof.
  intros Hup Hc Hk Hts Hs Hf.
  unfold DUT.oui_list, bind at 1 2. unfold configlet_exists. rewrite Hup, Hc.
  unfold DUT.update_needed. cbn [key_truthy]. rewrite Hk. cbn [negb].
  destruct (Z.eqb_spec (dateTimeInLongFormat c) 0) as [|_]; [contradiction|].
  unfold is_24h_old. fold (stale w c). rewrite Hs.
  unfold bind at 1. unfold DUT.refresh, bind at 1.
  rewrite (download_no_content _ _ Hf).
  change (Json.dumps []) with "{}". cbn [Py.truthy key_truthy negb andb key_text].
  rewrite Hk. cbn [negb andb].
  unfold configlet_update, bind, log, configlet_get, lift. cbn.
  rewrite Hup, Hc. rewrite String.eqb_refl. cbn. rewrite Hup.
  rewrite lookup_insert_eq. cbn.
  rewrite <- app_assoc. reflexivity.
Qed.

(** C9 as stated fails when the store cannot be reached: no cache
    object is found and the fetch has no content, yet nothing is persisted,
    and the next call fetches again. *)
Lemma empty_cache_persisted_C9_counterexample :
  configlets unreachable_empty_world !! OUI_CONFIGLET = None
  /\ configlet_exists OUI_CONFIGLET unreachable_empty_world
     = (Ok (None, 0), unreachable_empty_world)
  /\ no_content VRF_DEFAULT unreachable_empty_world = true
  /\ fst (DUT.oui_list VRF_DEFAULT unreachable_empty_world) = Ok []
  /\ configlets (snd (DUT.oui_list VRF_DEFAULT unreachable_empty_world)) = ∅
  /\ history (snd (DUT.oui_list VRF_DEFAULT
                     (snd (DUT.oui_list VRF_DEFAULT unreachable_empty_world))))
     = [RunCmds (fetch_command VRF_DEFAULT); AddConfiglet OUI_CONFIGLET "{}";
        RunCmds (fetch_command VRF_DEFAULT); AddConfiglet OUI_CONFIGLET "{}"].
Proof. repeat split. Qed.

(** C9, amended: when the store can be reached, holds no cache object,
    and the fetch has no content, [oui_list] returns the empty mapping only
    after it has added a new configlet holding the empty JSON object,
    stamped with the current time; as long as that configlet is at most 24
    hours old a later call changes nothing and fetches nothing, and once it
    is older (its time stamp not being 0) the next call fetches again. *)
Theorem empty_cache_persisted_C9 (vrf : string) (w : world) :
  cvp_up w = true ->
  configlets w !! OUI_CONFIGLET = None ->
  no_content vrf w = true ->
  Py.truthy (Json.dumps []) = true
  /\ exists w1,
      DUT.oui_list vrf w = (Ok [], w1)
      /\ configlets w1 !! OUI_CONFIGLET
         = Some (mkConfiglet (issued_key OUI_CONFIGLET) (now_ms w) "{}")
      /\ history w1
         = (history w ++ [RunCmds (fetch_command vrf);
                          AddConfiglet OUI_CONFIGLET (Json.dumps [])])%list
      /\ (forall t, t - now_ms w * 1000 <= day ->
            DUT.oui_list vrf (with_utcnow t w1) = (Ok [], with_utcnow t w1))
      /\ (forall t, day < t - now_ms w * 1000 -> now_ms w <> 0 ->
            exists w2,
              DUT.oui_list vrf (with_utcnow t w1) = (Ok [], w2)
              /\ history w2
                 = (history w1
                    ++ [RunCmds (fetch_command vrf);
                        UpdateConfiglet (issued_key OUI_CONFIGLET) OUI_CONFIGLET
                          (Json.dumps [])])%list).
Proof.
  intros Hup Hc Hf. split; [reflexivity|].
  eexists. split; [apply (oui_list_absent_no_content _ _ Hup Hc Hf)|].
  set (c := mkConfiglet (issued_key OUI_CONFIGLET) (now_ms w) "{}").
  split; [apply lookup_insert_eq|]. split; [reflexivity|]. split.
  - intros t Ht.
    rewrite (oui_list_fresh vrf _ c); [reflexivity | exact Hup | apply lookup_insert_eq
                                      | reflexivity |].
    right. unfold stale, day in *. cbn. apply Z.ltb_ge. exact Ht.
  - intros t Ht Hnz. eexists.
    split.
    + apply (oui_list_stale_no_content vrf _ c);
        [exact Hup | apply lookup_insert_eq | reflexivity | exact Hnz | | exact Hf].
      unfold stale, day in *. cbn. apply Z.ltb_lt. exact Ht.
    + reflexivity.
Qed.

(** An empty store in front of a device whose fetch fails. *)
Lemma empty_cache_persisted_C9_witness :
  exists w1,
    DUT.oui_list VRF_DEFAULT (world_with 1700000000000000 None ∅) = (Ok [], w1)
    /\ configlets w1 !! OUI_CONFIGLET
       = Some (mkConfiglet (issued_key OUI_CONFIGLET) 1700000000000 "{}").
Proof.
  destruct (empty_cache_persisted_C9 VRF_DEFAULT (world_with 1700000000000000 None ∅))
    as [_ [w1 [H1 [H2 _]]]]; [reflexivity | reflexivity | reflexivity |].
  exists w1. split; [exact H1 | exact H2].
Defined.

(** C1, as the code behaves: when the cache object exists with a
    non-zero time stamp, is more than 24 hours old and the fetch returns
    no content, [oui_list] serialises the empty download to the two
    characters of the empty JSON object, finds that string truthy, updates
    the configlet with it and returns the empty mapping: the mapping that
    was stored is replaced, not kept. *)
Theorem stale_failed_fetch_C1 (vrf : string) (w : world) (c : configlet) :
  cvp_up w = true ->
  configlets w !! OUI_CONFIGLET = Some c ->
  Py.truthy (key c) = true ->
  dateTimeInLongFormat c <> 0 ->
  stale w c = true ->
  no_content vrf w = true ->
  exists w1,
    DUT.oui_list vrf w = (Ok [], w1)
    /\ configlets w1 !! OUI_CONFIGLET = Some (mkConfiglet (key c) (now_ms w) "{}").
Proof.
  intros Hup Hc Hk Hts Hs Hf. eexists.
  split; [apply (oui_list_stale_no_content _ _ _ Hup Hc Hk Hts Hs Hf)|].
  apply lookup_insert_eq.
Qed.

(** The stored Cisco binding is gone after the failed refresh. *)
Lemma stale_failed_fetch_C1_witness :
  (config <$> configlets stale_cache_world !! OUI_CONFIGLET) = Some (Json.dumps cisco)
  /\ exists w1,
      DUT.oui_list VRF_DEFAULT stale_cache_world = (Ok [], w1)
      /\ (config <$> configlets w1 !! OUI_CONFIGLET) = Some "{}".
Proof.
  split; [reflexivity|].
  destruct (stale_failed_fetch_C1 VRF_DEFAULT stale_cache_world
              (mkConfiglet (issued_key OUI_CONFIGLET) 1700000000000 (Json.dumps cisco)))
    as [w1 [H1 H2]];
    [reflexivity | reflexivity | reflexivity | discriminate | reflexivity | reflexivity |].
  exists w1. split; [exact H1 | now rewrite H2].
Defined.




(** ** Addresses netaddr accepts are in range *)

Lemma hex_digit_range c d : Netaddr.hex_digit c = Some d -> 0 <= d < 16.
Proof.
  unfold Netaddr.hex_digit.
  repeat match goal with
         | |- context [if ?b then _ else _] => destruct b eqn:?
         end; intros [= <-]; lia.
Qed.

Lemma hex_value_range l : forall acc v,
  Netaddr.hex_value acc l = Some v -> 0 <= acc ->
  0 <= v < (acc + 1) * 16 ^ Z.of_nat (List.length l).
Proof.
  induction l as [|c l IH]; simpl List.length; intros acc v H Hacc.
  - simpl in H. injection H as <-. change (16 ^ Z.of_nat 0) with 1. lia.
  - simpl in H. destruct (Netaddr.hex_digit c) as [d|] eqn:Hd; [|discriminate].
    apply hex_digit_range in Hd. apply IH in H; [|lia].
    rewrite Nat2Z.inj_succ, Z.pow_succ_r by lia.
    assert (0 < 16 ^ Z.of_nat (List.length l)) by (apply Z.pow_pos_nonneg; lia).
    nia.
Qed.

Lemma words_value_range f ws : forall acc v k,
  Netaddr.words_value f acc ws = Some v ->
  0 <= acc < 16 ^ (Z.of_nat (Netaddr.max_len f) * k) -> 0 <= k ->
  0 <= v < 16 ^ (Z.of_nat (Netaddr.max_len f) * (k + Z.of_nat (List.length ws))).
Proof.
  set (m := Z.of_nat (Netaddr.max_len f)).
  induction ws as [|w ws IH]; simpl List.length; intros acc v k H Hacc Hk.
  - simpl in H. injection H as <-. now rewrite Z.add_0_r.
  - simpl in H.
    destruct ((Netaddr.min_len f <=? List.length w)%nat
              && (List.length w <=? Netaddr.max_len f)%nat) eqn:Hlen; [|discriminate].
    apply andb_prop in Hlen as [_ Hmax]. apply Nat.leb_le in Hmax.
    destruct (Netaddr.hex_value 0 w) as [x|] eqn:Hx; [|discriminate].
    apply hex_value_range in Hx; [|lia]. fold m in H.
    apply (IH _ _ (k + 1)) in H.
    + replace (k + Z.of_nat (S (List.length ws))) with (k + 1 + Z.of_nat (List.length ws)) by lia.
      exact H.
    + rewrite Z.shiftl_mul_pow2 by lia.
      assert (Hpow : 2 ^ (4 * m) = 16 ^ m).
      { change 16 with (2 ^ 4). rewrite <- Z.pow_mul_r by lia. reflexivity. }
      rewrite Hpow.
      assert (Hx' : x < 16 ^ m).
      { eapply Z.lt_le_trans; [apply Hx|]. rewrite Z.mul_1_l.
        apply Z.pow_le_mono_r; lia. }
      replace (m * (k + 1)) with (m * k + m) by lia.
      rewrite Z.pow_add_r by lia.
      assert (0 < 16 ^ m) by (apply Z.pow_pos_nonneg; lia).
      nia.
    + lia.
Qed.

Lemma match_format_range f l v :
  Netaddr.match_format f l = Some v ->
  0 <= v < 16 ^ (Z.of_nat (Netaddr.max_len f) * Z.of_nat (Netaddr.groups f)).
Proof.
  unfold Netaddr.match_format.
  set (ws := match Netaddr.sep f with Some c => Py.split_chars c l | None => [l] end).
  destruct (Nat.eqb_spec (List.length ws) (Netaddr.groups f)) as [<-|]; [|discriminate].
  intros H. apply (words_value_range _ _ _ _ 0) in H; [exact H | | lia].
  rewrite Z.mul_0_r. change (16 ^ 0) with 1. lia.
Qed.

Lemma first_format_range bits fs l v :
  Forall (fun f => Z.of_nat (Netaddr.max_len f) * Z.of_nat (Netaddr.groups f) <= bits) fs ->
  Netaddr.first_format fs l = Some v -> 0 <= v < 16 ^ bits.
Proof.
  induction 1 as [|f fs Hf _ IH]; simpl; [discriminate|].
  destruct (Netaddr.match_format f l) as [x|] eqn:Hm; [|exact IH].
  intros [= <-]. apply match_format_range in Hm.
  split; [lia|]. eapply Z.lt_le_trans; [apply Hm|].
  apply Z.pow_le_mono_r; lia.
Qed.

Lemma detect48_range s v :
  Netaddr.detect Netaddr.eui48_formats Netaddr.max_int48 s = Some v ->
  0 <= v <= Netaddr.max_int48.
Proof.
  unfold Netaddr.detect, Netaddr.str_to_int.
  destruct (Netaddr.first_format _ _) as [x|] eqn:Hf.
  - intros [= <-]. apply (first_format_range 12) in Hf.
    + change (16 ^ 12) with (Netaddr.max_int48 + 1) in Hf. lia.
    + repeat constructor; cbn; lia.
  - destruct (Py.int s) as [n|]; [|discriminate].
    destruct ((0 <=? n) && (n <=? Netaddr.max_int48)) eqn:Hr; [|discriminate].
    intros [= <-]. apply andb_prop in Hr as [H1 H2]. lia.
Qed.

(** Every address [netaddr.EUI] reads as an EUI-48 has a 48-bit value. *)
Lemma EUI48_range s v :
  Netaddr.EUI_of_str s = Ok (Netaddr.mkEUI v Netaddr.EUI48) ->
  0 <= v <= Netaddr.max_int48.
Proof.
  unfold Netaddr.EUI_of_str.
  destruct (Netaddr.detect Netaddr.eui48_formats _ s) as [x|] eqn:H48.
  - intros [= <-]. now apply detect48_range in H48.
  - destruct (Netaddr.detect Netaddr.eui64_formats _ s); discriminate.
Qed.

Lemma EUI_of_str_raises s e :
  Netaddr.EUI_of_str s = Raise e -> e = AddrFormatError.
Proof.
  unfold Netaddr.EUI_of_str.
  destruct (Netaddr.detect Netaddr.eui48_formats _ s); [discriminate|].
  destruct (Netaddr.detect Netaddr.eui64_formats _ s); [discriminate|].
  now intros [= <-].
Qed.

(** A masked value is a 48-bit value. *)
Lemma land_le_mask v mask : 0 <= mask -> 0 <= Z.land v mask <= mask.
Proof.
  intros Hm. split; [apply Z.land_nonneg; lia|].
  pose proof (Z.add_lor_land (Z.ldiff mask v) (Z.land mask v)) as H.
  rewrite Z.lor_ldiff_and in H.
  replace (Z.land (Z.ldiff mask v) (Z.land mask v)) with 0 in H.
  - assert (0 <= Z.ldiff mask v) by (apply Z.ldiff_nonneg; lia).
    rewrite (Z.land_comm v mask). lia.
  - rewrite (Z.land_comm mask v), Z.land_assoc, Z.land_ldiff. reflexivity.
Qed.

Lemma masked_EUI v mask :
  0 <= mask <= Netaddr.max_int48 ->
  Netaddr.EUI_of_int (Z.land v mask) = Ok (Netaddr.mkEUI (Z.land v mask) Netaddr.EUI48)
  /\ Netaddr.str_bare (Netaddr.mkEUI (Z.land v mask) Netaddr.EUI48)
     = Ok (Py.text (Netaddr.hex_upper 12 (Z.land v mask))).
Proof.
  intros Hm. pose proof (land_le_mask v mask (proj1 Hm)) as Hl.
  unfold Netaddr.EUI_of_int, Netaddr.str_bare. cbn [Netaddr.value].
  assert (Hr : (0 <=? Z.land v mask) && (Z.land v mask <=? Netaddr.max_int48) = true).
  { apply andb_true_intro. split; [apply Z.leb_le | apply Z.leb_le]; lia. }
  rewrite Hr. split; reflexivity.
Qed.

(** ** The resolver *)

Lemma mask_loop_hit db v mask masks org bound :
  0 <= mask <= Netaddr.max_int48 ->
  Dict.get (prefix_key v mask) db = Some bound ->
  DUT.mask_loop db (Netaddr.mkEUI v Netaddr.EUI48) (mask :: masks) org = Ok bound.
Proof.
  intros Hm Hb. cbn [DUT.mask_loop Netaddr.bin_int Netaddr.value].
  destruct (masked_EUI v mask Hm) as [-> ->]. fold (bare (Z.land v mask)).
  fold (prefix_key v mask). now rewrite Hb.
Qed.

Lemma mask_loop_miss db v mask masks org :
  0 <= mask <= Netaddr.max_int48 ->
  Dict.get (prefix_key v mask) db = None ->
  DUT.mask_loop db (Netaddr.mkEUI v Netaddr.EUI48) (mask :: masks) org
  = DUT.mask_loop db (Netaddr.mkEUI v Netaddr.EUI48) masks org.
Proof.
  intros Hm Hb. cbn [DUT.mask_loop Netaddr.bin_int Netaddr.value].
  destruct (masked_EUI v mask Hm) as [-> ->]. fold (bare (Z.land v mask)).
  fold (prefix_key v mask). now rewrite Hb.
Qed.

Lemma mask36_range : 0 <= OUI36_MASK <= Netaddr.max_int48.
Proof. vm_compute. split; discriminate. Qed.
Lemma mask28_range : 0 <= OUI28_MASK <= Netaddr.max_int48.
Proof. vm_compute. split; discriminate. Qed.
Lemma mask24_range : 0 <= OUI24_MASK <= Netaddr.max_int48.
Proof. vm_compute. split; discriminate. Qed.

(** The resolver once the address is read and the mapping obtained. *)
Lemma org_from_mac_external s vrf w w' db v :
  Netaddr.EUI_of_str s = Ok (Netaddr.mkEUI v Netaddr.EUI48) ->
  DUT.oui_list vrf w = (Ok db, w') ->
  forall org,
    DUT.mask_loop db (Netaddr.mkEUI v Netaddr.EUI48)
      [OUI36_MASK; OUI28_MASK; OUI24_MASK] "Unknown" = Ok org ->
    DUT.org_from_mac s vrf w = (Ok (answer org v), w').
Proof.
  intros Hs Hdb org Hloop.
  pose proof (EUI48_range _ _ Hs) as Hv.
  unfold DUT.org_from_mac, DUT.org_from_mac_with, EXTERNAL_OUI_LOOKUP, bind, lift.
  rewrite Hs, Hdb, Hloop.
  unfold Netaddr.str_bare. cbn [Netaddr.value].
  replace ((0 <=? v) && (v <=? Netaddr.max_int48)) with true; [reflexivity|].
  symmetry. apply andb_true_intro. split; apply Z.leb_le; lia.
Qed.

Lemma org_from_mac_invalid s vrf w external :
  is_mac s = Ok false ->
  DUT.org_from_mac_with external s vrf w = (Raise AddrFormatError, w).
Proof.
  unfold is_mac, DUT.org_from_mac_with, bind, lift.
  destruct (Netaddr.EUI_of_str s) as [e|e] eqn:He; [discriminate|].
  apply EUI_of_str_raises in He. now subst e.
Qed.

(** C2: for a valid 48-bit MAC address and whatever mapping [oui_list]
    returns, [org_from_mac] tries the 36-bit mask, then the 28-bit mask,
    then the 24-bit mask, each time looking up the masked value printed
    again, and answers with the organisation of the first mask that has a
    binding: a binding under a shorter prefix is never used when a longer
    prefix has one. *)
Theorem longest_prefix_C2 (s vrf : string) (w w' : world)
    (db : Dict.t string) (v : Z) :
  Netaddr.EUI_of_str s = Ok (Netaddr.mkEUI v Netaddr.EUI48) ->
  DUT.oui_list vrf w = (Ok db, w') ->
  let hit mask := Dict.get (prefix_key v mask) db in
  exists org,
    DUT.org_from_mac s vrf w = (Ok (answer org v), w')
    /\ (forall o, hit OUI36_MASK = Some o -> org = o)
    /\ (hit OUI36_MASK = None -> forall o, hit OUI28_MASK = Some o -> org = o)
    /\ (hit OUI36_MASK = None -> hit OUI28_MASK = None ->
        forall o, hit OUI24_MASK = Some o -> org = o)
    /\ (hit OUI36_MASK = None -> hit OUI28_MASK = None ->
        hit OUI24_MASK = None -> org = "Unknown").
Proof.
  intros Hs Hdb hit. subst hit.
  set (mac := Netaddr.mkEUI v Netaddr.EUI48).
  assert (Hloop : exists org,
             DUT.mask_loop db mac [OUI36_MASK; OUI28_MASK; OUI24_MASK] "Unknown" = Ok org
             /\ org = match Dict.get (prefix_key v OUI36_MASK) db with
                      | Some o => o
                      | None =>
                          match Dict.get (prefix_key v OUI28_MASK) db with
                          | Some o => o
                          | None =>
                              match Dict.get (prefix_key v OUI24_MASK) db with
                              | Some o => o
                              | None => "Unknown"
                              end
                          end
                      end).
  { destruct (Dict.get (prefix_key v OUI36_MASK) db) as [o|] eqn:H36.
    { exists o. split; [|reflexivity]. now apply mask_loop_hit; [apply mask36_range|]. }
    rewrite (mask_loop_miss _ _ _ _ _ mask36_range H36).
    destruct (Dict.get (prefix_key v OUI28_MASK) db) as [o|] eqn:H28.
    { exists o. split; [|reflexivity]. now apply mask_loop_hit; [apply mask28_range|]. }
    rewrite (mask_loop_miss _ _ _ _ _ mask28_range H28).
    destruct (Dict.get (prefix_key v OUI24_MASK) db) as [o|] eqn:H24.
    { exists o. split; [|reflexivity]. now apply mask_loop_hit; [apply mask24_range|]. }
    rewrite (mask_loop_miss _ _ _ _ _ mask24_range H24).
    exists "Unknown". split; reflexivity. }
  destruct Hloop as [org [Hloop Horg]]. exists org.
  split; [exact (org_from_mac_external _ _ _ _ _ _ Hs Hdb _ Hloop)|].
  repeat split.
  - intros o H. now rewrite H in Horg.
  - intros H36 o H. now rewrite H36, H in Horg.
  - intros H36 H28 o H. now rewrite H36, H28, H in Horg.
  - intros H36 H28 H24. now rewrite H36, H28, H24 in Horg.
Qed.

Lemma longest_prefix_C2_witness :
  exists org,
    fst (DUT.org_from_mac "aa:bb:cc:dd:ee:ff" VRF_DEFAULT
           (world_with 1700000000000000 None (cached 1700000000000 three_prefixes)))
    = Ok (answer org 0xAABBCCDDEEFF)
    /\ org = "Narrow".
Proof.
  destruct (longest_prefix_C2 "aa:bb:cc:dd:ee:ff" VRF_DEFAULT
              (world_with 1700000000000000 None (cached 1700000000000 three_prefixes))
              (world_with 1700000000000000 None (cached 1700000000000 three_prefixes))
              three_prefixes 0xAABBCCDDEEFF)
    as [org [Hrun [H36 _]]]; [reflexivity | reflexivity |].
  exists org. split; [now rewrite Hrun | apply H36; reflexivity].
Defined.

(** C3 as stated fails: the external cache has no binding for
    AA:BB:CC:DD:EE:FF, the bundled registry knows the prefix as Acme, and
    the answer is Unknown. *)
Lemma static_fallback_C3_counterexample :
  Netaddr.registration_org (ieee_registry acme_world)
    (Netaddr.mkEUI 0xAABBCCDDEEFF Netaddr.EUI48) = Ok "Acme"
  /\ fst (DUT.oui_list VRF_DEFAULT acme_world) = Ok cisco
  /\ Dict.get (prefix_key 0xAABBCCDDEEFF OUI36_MASK) cisco = None
  /\ Dict.get (prefix_key 0xAABBCCDDEEFF OUI28_MASK) cisco = None
  /\ Dict.get (prefix_key 0xAABBCCDDEEFF OUI24_MASK) cisco = None
  /\ fst (DUT.org_from_mac "aa:bb:cc:dd:ee:ff" VRF_DEFAULT acme_world)
     = Ok "Unknown, DD:EE:FF".
Proof. repeat split. Qed.

(** C3, amended: for a valid 48-bit MAC address, when external lookup is
    enabled and none of the three masked prefixes has a binding in the
    external mapping, the organisation is the literal Unknown whatever the
    bundled registry holds; the static registration lookup is made only
    when external lookup is disabled, and then, whatever the cache and
    the device hold and without asking them anything, the organisation is
    the registered one, or Unknown when the prefix is not registered. *)
Theorem static_fallback_C3 (s vrf : string) (w : world) (v : Z) :
  Netaddr.EUI_of_str s = Ok (Netaddr.mkEUI v Netaddr.EUI48) ->
  (forall w' db,
      DUT.oui_list vrf w = (Ok db, w') ->
      Dict.get (prefix_key v OUI36_MASK) db = None ->
      Dict.get (prefix_key v OUI28_MASK) db = None ->
      Dict.get (prefix_key v OUI24_MASK) db = None ->
      DUT.org_from_mac_with true s vrf w = (Ok (answer "Unknown" v), w'))
  /\ DUT.org_from_mac_with false s vrf w
     = (Ok (answer (default "Unknown" (ieee_registry w (Z.shiftr v 24))) v), w).
Proof.
  intros Hs. split.
  - intros w' db Hdb H36 H28 H24.
    apply (org_from_mac_external _ _ _ _ _ _ Hs Hdb).
    rewrite (mask_loop_miss _ _ _ _ _ mask36_range H36).
    rewrite (mask_loop_miss _ _ _ _ _ mask28_range H28).
    rewrite (mask_loop_miss _ _ _ _ _ mask24_range H24). reflexivity.
  - pose proof (EUI48_range _ _ Hs) as Hv.
    unfold DUT.org_from_mac_with, bind, lift. rewrite Hs.
    unfold Netaddr.registration_org, Netaddr.oui_of. cbn [Netaddr.version Netaddr.value].
    assert (Hb : Netaddr.str_bare (Netaddr.mkEUI v Netaddr.EUI48) = Ok (bare v)).
    { unfold Netaddr.str_bare. cbn [Netaddr.value].
      replace ((0 <=? v) && (v <=? Netaddr.max_int48)) with true; [reflexivity|].
      symmetry. apply andb_true_intro. split; apply Z.leb_le; lia. }
    destruct (ieee_registry w (Z.shiftr v 24)); rewrite Hb; reflexivity.
Qed.

Lemma static_fallback_C3_witness :
  DUT.org_from_mac_with true "aa:bb:cc:dd:ee:ff" VRF_DEFAULT acme_world
  = (Ok "Unknown, DD:EE:FF", acme_world)
  /\ DUT.org_from_mac_with false "aa:bb:cc:dd:ee:ff" VRF_DEFAULT acme_world
     = (Ok "Acme, DD:EE:FF", acme_world).
Proof.
  destruct (static_fallback_C3 "aa:bb:cc:dd:ee:ff" VRF_DEFAULT acme_world
              0xAABBCCDDEEFF eq_refl) as [Hexternal Hstatic].
  split; [apply (Hexternal acme_world cisco); reflexivity | exact Hstatic].
Defined.

(** C8 as stated fails: the one address the device learnt on Ethernet1
    is not a MAC address, [org_from_mac] raises [AddrFormatError], which
    is not a [ValueError], and the program ends with its traceback. *)
Lemma invalid_address_C8_counterexample :
  is_mac "not-a-mac" = Ok false
  /\ fst (main bad_mac_world) = Raise AddrFormatError
  /\ fst (program bad_mac_world) = Traceback AddrFormatError.
Proof. repeat split. Qed.

(** C8, amended: for every string that is not a syntactically valid MAC
    address [org_from_mac] raises [AddrFormatError] before it does
    anything else; the turn of the loop of [auto_description] that
    resolves the single learnt address of an interface does not catch it;
    at the outermost boundary only a [ValueError] is swallowed, and
    [AddrFormatError] is not one, so an invalid address that reaches the
    program entry ends the program with an uncaught exception. *)
Theorem invalid_address_C8 :
  (forall s vrf w,
      is_mac s = Ok false -> DUT.org_from_mac s vrf w = (Raise AddrFormatError, w))
  /\ (forall vrf running_config intf port_channels w config notes entry s,
      Py.startswith (name intf) "Ethernet" = true ->
      Dict.get ("interface " +:+ name intf) running_config = Some config ->
      comments config = Some notes ->
      existsb (String.eqb "no auto-description") notes = false ->
      lldp_neighbors intf = None ->
      mac_address_table intf = Some [entry] ->
      macAddress entry = Some s ->
      is_mac s = Ok false ->
      describe vrf running_config intf port_channels w = (Raise AddrFormatError, w))
  /\ (forall w w' e,
      main w = (Raise e, w') ->
      program w = (if is_ValueError e then Finished else Traceback e, w'))
  /\ is_ValueError AddrFormatError = false
  /\ is_ValueError ValueError = true.
Proof.
  split; [intros; now apply org_from_mac_invalid|].
  split; [|split; [|split; reflexivity]].
  - intros vrf rc intf pcs w config notes entry s Hname Hcfg Hnotes Hmark Hl Hm Hs Hbad.
    unfold describe. rewrite Hname. cbn [negb andb].
    unfold bind at 1. unfold item at 1. rewrite Hcfg. cbn [ret].
    unfold bind at 1. unfold item at 1. rewrite Hnotes. cbn [ret].
    rewrite Hmark, Hl, Hm.
    unfold bind at 1. unfold bind at 1. unfold item at 1. rewrite Hs. cbn [ret].
    unfold bind at 1. unfold DUT.org_from_mac.
    now rewrite (org_from_mac_invalid _ _ _ _ Hbad).
  - intros w w' e Hmain. unfold program. rewrite Hmain.
    destruct (is_ValueError e); reflexivity.
Qed.

Lemma invalid_address_C8_witness :
  DUT.org_from_mac "not-a-mac" VRF_DEFAULT bad_mac_world
  = (Raise AddrFormatError, bad_mac_world)
  /\ describe VRF_DEFAULT (show_running_config bad_mac_device)
       (mkInterface "Ethernet1" None None
          (Some [mkEntry (Some "not-a-mac") (Some "Ethernet1")]))
       ∅ bad_mac_world
     = (Raise AddrFormatError, bad_mac_world)
  /\ program bad_mac_world = (Traceback AddrFormatError, snd (main bad_mac_world)).
Proof.
  destruct invalid_address_C8 as (Hraise & Hcaller & Hentry & _).
  split; [apply Hraise; reflexivity|]. split.
  - apply (Hcaller VRF_DEFAULT (show_running_config bad_mac_device) _ ∅ bad_mac_world
             (mkSection (Some []) (Some [])) []
             (mkEntry (Some "not-a-mac") (Some "Ethernet1")) "not-a-mac");
      reflexivity.
  - apply (Hentry bad_mac_world (snd (main bad_mac_world)) AddrFormatError). reflexivity.
Defined.

(** ** What a computation prints *)

Section printing.
Context {A B : Type}.

Lemma quiet_ret (a : A) : quiet (ret a).
Proof. intros w. reflexivity. Qed.

Lemma quiet_throw e : quiet (throw e : M A).
Proof. intros w. reflexivity. Qed.

Lemma quiet_lift (r : result A) : quiet (lift r).
Proof. intros w. reflexivity. Qed.

Lemma quiet_bind (m : M A) (k : A -> M B) :
  quiet m -> (forall a, quiet (k a)) -> quiet (bind m k).
Proof.
  intros Hm Hk w. unfold bind. specialize (Hm w).
  destruct (m w) as [[a|e] w1]; cbn in *; [|exact Hm].
  now rewrite Hk.
Qed.

Lemma emits_quiet (m : M A) (Q : list block -> result A -> Prop) :
  quiet m -> (forall r, Q [] r) -> emits m Q.
Proof.
  intros Hm HQ w. exists []. rewrite app_nil_r. split; [apply Hm | apply HQ].
Qed.

Lemma emits_ret (a : A) (Q : list block -> result A -> Prop) :
  Q [] (Ok a) -> emits (ret a) Q.
Proof. intros HQ w. exists []. now rewrite app_nil_r. Qed.

Lemma emits_throw e (Q : list block -> result A -> Prop) :
  Q [] (Raise e) -> emits (throw e) Q.
Proof. intros HQ w. exists []. now rewrite app_nil_r. Qed.

Lemma emits_bind (m : M A) (k : A -> M B) (Q : list block -> result B -> Prop) :
  emits m (fun out1 r =>
             match r with
             | Ok a => emits (k a) (fun out2 r2 => Q (out1 ++ out2)%list r2)
             | Raise e => Q out1 (Raise e)
             end) ->
  emits (bind m k) Q.
Proof.
  intros Hm w. destruct (Hm w) as [out1 [Hout1 H1]]. unfold bind.
  destruct (m w) as [[a|e] w1]; cbn in *.
  - destruct (H1 w1) as [out2 [Hout2 H2]]. exists (out1 ++ out2)%list.
    split; [|exact H2]. now rewrite Hout2, Hout1, app_assoc.
  - exists out1. now split.
Qed.

Lemma emits_weaken (m : M A) (Q Q' : list block -> result A -> Prop) :
  emits m Q -> (forall out r, Q out r -> Q' out r) -> emits m Q'.
Proof.
  intros Hm HQ w. destruct (Hm w) as [out [Hout H]]. exists out. auto.
Qed.
End printing.

Lemma emits_print b (Q : list block -> result unit -> Prop) :
  Q [b] (Ok tt) -> emits (print b) Q.
Proof. intros HQ w. exists [b]. now split. Qed.

Lemma quiet_item {A : Type} (o : option A) : quiet (item o).
Proof. destruct o; [apply quiet_ret | apply quiet_throw]. Qed.

Lemma quiet_log e : quiet (log e).
Proof. intros w. reflexivity. Qed.

Lemma quiet_configlet_exists n : quiet (configlet_exists n).
Proof.
  intros w. unfold configlet_exists.
  destruct (cvp_up w); [destruct (configlets w !! n)|]; reflexivity.
Qed.

Lemma quiet_configlet_get n : quiet (configlet_get n).
Proof.
  intros w. unfold configlet_get.
  destruct (cvp_up w); [destruct (configlets w !! n)|]; reflexivity.
Qed.

Lemma quiet_configlet_add d n : quiet (configlet_add d n).
Proof.
  apply quiet_bind; [apply quiet_log|]. intros _ w.
  destruct (cvp_up w); [destruct (configlets w !! n)|]; reflexivity.
Qed.

Lemma quiet_configlet_update d k n : quiet (configlet_update d k n).
Proof.
  apply quiet_bind; [apply quiet_log|]. intros _ w.
  destruct (cvp_up w); [destruct (configlets w !! n) as [c|];
                        [destruct (String.eqb (key c) k)|]|]; reflexivity.
Qed.

Lemma quiet_download vrf : quiet (DUT._download vrf).
Proof.
  apply quiet_bind.
  - apply quiet_bind; [apply quiet_log|]. intros _ w. reflexivity.
  - intros [text|]; [|apply quiet_ret].
    destruct (Py.truthy text); [apply quiet_lift | apply quiet_ret].
Qed.

Lemma quiet_oui_list vrf : quiet (DUT.oui_list vrf).
Proof.
  apply quiet_bind; [apply quiet_configlet_exists|]. intros [k ts].
  apply quiet_bind.
  { unfold DUT.update_needed. destruct (negb (key_truthy k)); [apply quiet_ret|].
    destruct (ts =? 0); [apply quiet_ret|]. intros w. reflexivity. }
  intros needed. apply quiet_bind.
  { destruct needed; [|apply quiet_ret].
    apply quiet_bind; [apply quiet_download|]. intros d. cbv zeta.
    destruct (Py.truthy (Json.dumps d) && negb (key_truthy k));
      [apply quiet_configlet_add|].
    destruct (Py.truthy (Json.dumps d) && key_truthy k);
      [apply quiet_configlet_update | apply quiet_ret]. }
  intros _. apply quiet_bind; [apply quiet_configlet_get|].
  intros s. apply quiet_lift.
Qed.

Lemma quiet_org_from_mac s vrf : quiet (DUT.org_from_mac s vrf).
Proof.
  apply quiet_bind; [apply quiet_lift|]. intros mac.
  apply quiet_bind.
  { cbn. apply quiet_bind; [apply quiet_oui_list|]. intros db. apply quiet_lift. }
  intros org. apply quiet_bind; [apply quiet_lift|]. intros b. apply quiet_ret.
Qed.

Lemma emits_bind_quiet {A B : Type} (m : M A) (k : A -> M B)
    (Q : list block -> result B -> Prop) :
  quiet m -> (forall e, Q [] (Raise e)) -> (forall a, emits (k a) Q) ->
  emits (bind m k) Q.
Proof.
  intros Hm He Hk. apply emits_bind. apply emits_quiet; [exact Hm|].
  intros [a|e]; [|apply He]. eapply emits_weaken; [apply Hk|]. now intros out r.
Qed.

(** ** Port-channels are described once *)

Lemma port_channel_lines_app pc out1 out2 :
  port_channel_lines pc (out1 ++ out2)
  = (port_channel_lines pc out1 + port_channel_lines pc out2)%nat.
Proof. unfold port_channel_lines. now rewrite List.filter_app, List.length_app. Qed.

Lemma tracked_nothing pcs : tracked pcs [] (Some pcs).
Proof.
  repeat split; cbn; auto; try lia; try contradiction; try discriminate.
Qed.

Lemma tracked_raise pcs : tracked pcs [] None.
Proof. repeat split; cbn; auto; try lia; contradiction. Qed.

Lemma tracked_port_channel pcs pc d :
  pc ∉ pcs -> tracked pcs [mkBlock PortChannelSite pc d] (Some ({[pc]} ∪ pcs)).
Proof.
  intros Hpc. unfold tracked, port_channel_lines. cbn.
  split; [|split; [|split; [|split]]].
  - intros pc'. destruct (String.eqb pc pc'); cbn; lia.
  - intros pc' Hin. destruct (String.eqb_spec pc pc') as [<-|]; [contradiction | reflexivity].
  - intros b [<-|[]]. discriminate.
  - set_solver.
  - intros pc'. destruct (String.eqb_spec pc pc') as [<-|]; [set_solver | discriminate].
Qed.

Lemma tracked_known pcs pc : tracked pcs [] (Some ({[pc]} ∪ pcs)).
Proof.
  repeat split; cbn; auto; try lia; try contradiction; try discriminate; set_solver.
Qed.

Lemma tracked_interface pcs out pcs' intf d :
  tracked pcs out (Some pcs') -> eligible intf = true ->
  tracked pcs (out ++ [mkBlock InterfaceSite intf d]) (Some pcs').
Proof.
  intros (H1 & H2 & H3 & H4 & H5) He.
  assert (Hsame : forall pc, port_channel_lines pc (out ++ [mkBlock InterfaceSite intf d])
                             = port_channel_lines pc out).
  { intros pc. rewrite port_channel_lines_app. cbn. lia. }
  split; [|split; [|split; [|split]]].
  - intros pc. rewrite Hsame. apply H1.
  - intros pc Hin. rewrite Hsame. now apply H2.
  - intros b Hb Hs. apply in_app_or in Hb as [Hb|[<-|[]]]; [now apply H3 | exact He].
  - exact H4.
  - intros pc. rewrite Hsame. apply H5.
Qed.

Lemma describe_host_emits intf n d pcs :
  emits (describe_host intf n d pcs) (fun out r => tracked pcs out (handed_on r)).
Proof.
  unfold describe_host.
  apply emits_bind_quiet; [apply quiet_item | intros; apply tracked_raise | intros info].
  apply emits_bind_quiet; [apply quiet_item | intros; apply tracked_raise | intros id_type].
  apply emits_bind_quiet;
    [destruct (String.eqb id_type "interfaceName"); apply quiet_item
    | intros; apply tracked_raise | intros nid].
  apply emits_bind.
  destruct (interfaceMembership intf) as [membership|].
  - destruct (Py.split " " membership) as [|t1 [|t2 [|pc rest]]];
      try (apply emits_throw; apply tracked_raise).
    apply emits_bind.
    destruct (decide (pc ∈ pcs)) as [Hin|Hout].
    + apply emits_ret. apply emits_ret. apply emits_ret. cbn.
      apply tracked_known.
    + apply emits_print. apply emits_ret. apply emits_ret. cbn.
      now apply tracked_port_channel.
  - apply emits_ret. apply emits_ret. cbn. apply tracked_nothing.
Qed.

Lemma describe_emits vrf rc intf pcs :
  emits (describe vrf rc intf pcs) (fun out r => tracked pcs out (handed r)).
Proof.
  unfold describe.
  destruct (negb (Py.startswith (name intf) "Ethernet")
            && negb (Py.startswith (name intf) "Management")) eqn:Hname.
  { apply emits_ret. apply tracked_nothing. }
  assert (He : eligible (name intf) = true).
  { unfold eligible. destruct (Py.startswith (name intf) "Ethernet"); [reflexivity|].
    destruct (Py.startswith (name intf) "Management"); [reflexivity | discriminate]. }
  apply emits_bind_quiet; [apply quiet_item | intros; apply tracked_raise | intros config].
  apply emits_bind_quiet; [apply quiet_item | intros; apply tracked_raise | intros notes].
  destruct (existsb (String.eqb "no auto-description") notes).
  { apply emits_ret. apply tracked_nothing. }
  apply emits_bind.
  assert (Hmac : emits
            match mac_address_table intf with
            | Some [entry] =>
                let! mac_address := item (macAddress entry) in
                let! description := DUT.org_from_mac mac_address vrf in
                ret (Some description, pcs)
            | _ => ret (None, pcs)
            end
            (fun out1 r =>
               match r with
               | Ok described =>
                   emits
                     (let! _ := match fst described with
                                | Some description =>
                                    if Py.truthy description
                                    then print (mkBlock InterfaceSite (name intf) description)
                                    else ret tt
                                | None => ret tt
                                end in
                      ret (snd described))
                     (fun out2 r2 => tracked pcs (out1 ++ out2) (handed r2))
               | Raise e => tracked pcs out1 (handed (Raise e))
               end)).
  { destruct (mac_address_table intf) as [[|entry [|]]|];
      try (apply emits_ret; cbn; apply emits_bind; apply emits_ret; apply emits_ret;
           apply tracked_nothing).
    apply emits_bind_quiet; [apply quiet_item | intros; apply tracked_raise | intros mac].
    apply emits_bind_quiet;
      [apply quiet_org_from_mac | intros; apply tracked_raise | intros d].
    apply emits_ret. cbn. apply emits_bind.
    destruct (Py.truthy d).
    - apply emits_print. apply emits_ret.
      apply (tracked_interface pcs [] pcs); [apply tracked_nothing | exact He].
    - apply emits_ret. apply emits_ret. apply tracked_nothing. }
  destruct (lldp_neighbors intf) as [[|n [|]]|]; try exact Hmac. clear Hmac.
  apply emits_bind_quiet;
    [destruct (systemName n); [apply quiet_ret | apply quiet_item]
    | intros; apply tracked_raise | intros d].
  apply emits_bind_quiet; [apply quiet_lift | intros; apply tracked_raise | intros mac].
  destruct mac.
  - apply emits_bind_quiet;
      [apply quiet_org_from_mac | intros; apply tracked_raise | intros d'].
    apply emits_ret. cbn. apply emits_bind.
    destruct (Py.truthy d').
    + apply emits_print. apply emits_ret.
      apply (tracked_interface pcs [] pcs); [apply tracked_nothing | exact He].
    + apply emits_ret. apply emits_ret. apply tracked_nothing.
  - apply emits_bind.
    eapply emits_weaken; [apply describe_host_emits|].
    intros out1 [[d' pcs']|e] Ht; cbn in *; [|exact Ht].
    apply emits_ret. cbn. rewrite app_nil_r. apply emits_bind.
    destruct (Py.truthy d').
    + apply emits_print. apply emits_ret. now apply tracked_interface.
    + apply emits_ret. apply emits_ret. now rewrite app_nil_r.
Qed.

Lemma describe_all_emits vrf rc intfs : forall pcs,
  emits (describe_all vrf rc intfs pcs) (fun out _ => once pcs out).
Proof.
  induction intfs as [|intf intfs IH]; intros pcs; cbn [describe_all].
  - apply emits_ret. repeat split; cbn; auto; contradiction.
  - apply emits_bind. eapply emits_weaken; [apply describe_emits|].
    intros out1 [pcs'|e] (H1 & H2 & H3 & H4); cbn in H4.
    + destruct H4 as [Hsub Hone].
      eapply emits_weaken; [apply (IH pcs')|].
      intros out2 _ (K1 & K2 & K3). split; [|split].
      * intros pc. rewrite port_channel_lines_app.
        specialize (H1 pc). specialize (K1 pc).
        destruct (port_channel_lines pc out1) as [|[|k]] eqn:E; [lia | | lia].
        rewrite (K2 pc); [lia|]. now apply Hone.
      * intros pc Hin. rewrite port_channel_lines_app, (H2 pc Hin), (K2 pc); [lia|].
        now apply Hsub.
      * intros b Hb. apply in_app_or in Hb as [Hb|Hb]; [now apply H3 | now apply K3].
    + now split; [|split].
Qed.

Lemma lines_for_port_channel pc out :
  (forall b, In b out -> printed_at b = InterfaceSite -> eligible (interface b) = true) ->
  eligible pc = false -> lines_for pc out = port_channel_lines pc out.
Proof.
  intros Hout Hpc. unfold lines_for, port_channel_lines.
  induction out as [|b out IH]; [reflexivity|]. cbn.
  assert (Hb : String.eqb (interface b) pc = port_channel_block pc b).
  { unfold port_channel_block. destruct (printed_at b) eqn:Hs; [reflexivity|].
    destruct (String.eqb_spec (interface b) pc) as [<-|]; [|reflexivity].
    rewrite (Hout b) in Hpc; [discriminate | now left | exact Hs]. }
  rewrite Hb. destruct (port_channel_block pc b); cbn; rewrite IH; auto.
  all: intros b' Hb'; apply Hout; now right.
Qed.

(** C5: in every run of [auto_description], whatever the interfaces, the
    running configuration and the world, the port-channel [print] is
    reached at most once for each port-channel, however many of its members
    have a single LLDP neighbour with a host name; and a name that is
    neither an Ethernet nor a Management interface, as a port-channel's
    is, gets at most one block in the whole output. *)
Theorem port_channel_once_C5 (interfaces : Dict.t interface_t)
    (running_config : Dict.t section) (w : world) :
  exists out,
    stdout (snd (auto_description interfaces running_config w)) = (stdout w ++ out)%list
    /\ (forall pc, (port_channel_lines pc out <= 1)%nat)
    /\ (forall pc, eligible pc = false -> (lines_for pc out <= 1)%nat).
Proof.
  assert (H : emits (auto_description interfaces running_config)
                (fun out _ => once ∅ out)).
  { unfold auto_description.
    apply emits_bind_quiet;
      [apply quiet_lift | intros; repeat split; cbn; auto; contradiction | intros vrf].
    apply emits_bind. eapply emits_weaken; [apply describe_all_emits|].
    intros out1 [pcs|e] Hout; [|exact Hout].
    apply emits_ret. now rewrite app_nil_r. }
  destruct (H w) as [out [Hout (H1 & _ & H3)]].
  exists out. split; [exact Hout|]. split; [exact H1|].
  intros pc Hpc. rewrite (lines_for_port_channel _ _ H3 Hpc). apply H1.
Qed.

Lemma port_channel_once_C5_witness :
  exists out,
    stdout (snd (auto_description two_members two_members_config
                   (world_with 1700000000000000 None ∅))) = out
    /\ (lines_for "Port-Channel1" out <= 1)%nat.
Proof.
  destruct (port_channel_once_C5 two_members two_members_config
              (world_with 1700000000000000 None ∅)) as [out [Hout [_ Hone]]].
  exists out. split; [exact Hout | apply Hone; reflexivity].
Defined.

(** ** The digits of a prefix *)

Lemma upper_hex_cases c :
  Re.upper_hex c = true ->
  In c ["0"; "1"; "2"; "3"; "4"; "5"; "6"; "7"; "8"; "9";
        "A"; "B"; "C"; "D"; "E"; "F"]%char.
Proof.
  destruct c as [[] [] [] [] [] [] [] []]; intros H;
    try (vm_compute in H; discriminate H); cbn; auto 20.
Qed.

Record digit_facts (c : ascii) : Prop := mkDigitFacts
  { digit_value : Netaddr.hex_digit c = Some (nib c);
    digit_range : 0 <= nib c < 16;
    digit_print : Netaddr.hex_char (nib c) = c;
    digit_colon : Ascii.eqb c ":" = false;
    digit_dash : Ascii.eqb c "-" = false;
    digit_dot : Ascii.eqb c "." = false;
    digit_plus : Ascii.eqb c "+" = false;
    digit_underscore : Ascii.eqb c "_" = false;
    digit_newline : Ascii.eqb c Py.newline = false;
    digit_space : Py.isspace c = false }.

Lemma upper_hex_facts c : Re.upper_hex c = true -> digit_facts c.
Proof.
  intros H. apply upper_hex_cases in H. cbn in H.
  repeat (destruct H as [<-|H]; [split; vm_compute; intuition congruence|]).
  contradiction.
Qed.

Lemma split_chars_octet sep a b rest :
  Ascii.eqb a sep = false -> Ascii.eqb b sep = false ->
  Py.split_chars sep (a :: b :: sep :: rest) = [a; b] :: Py.split_chars sep rest.
Proof. intros Ha Hb. cbn. now rewrite Ha, Hb, Ascii.eqb_refl. Qed.

Lemma split_chars_end sep a b :
  Ascii.eqb a sep = false -> Ascii.eqb b sep = false ->
  Py.split_chars sep [a; b] = [[a; b]].
Proof. intros Ha Hb. cbn. now rewrite Ha, Hb. Qed.

Lemma split_chars_none sep l :
  forallb (fun c => negb (Ascii.eqb c sep)) l = true -> Py.split_chars sep l = [l].
Proof.
  induction l as [|c l IH]; cbn; [reflexivity|].
  intros H. apply andb_prop in H as [Hc Hl].
  apply negb_true_iff in Hc. now rewrite Hc, (IH Hl).
Qed.

Lemma hex_value_octet a b :
  Re.upper_hex a = true -> Re.upper_hex b = true ->
  Netaddr.hex_value 0 [a; b] = Some (16 * nib a + nib b).
Proof.
  intros Ha Hb. apply upper_hex_facts in Ha, Hb. cbn.
  rewrite (digit_value _ Ha), (digit_value _ Hb). reflexivity.
Qed.

(** ** Printing a value digit by digit *)

Lemma nibble_mod k m v :
  0 <= k < m ->
  Z.land (Z.shiftr (v mod 2 ^ (4 * m)) (4 * k)) 15 = Z.land (Z.shiftr v (4 * k)) 15.
Proof.
  intros Hk. apply Z.bits_inj'. intros i Hi.
  change 15 with (Z.ones 4). rewrite !Z.land_spec, !Z.shiftr_spec by lia.
  destruct (Z.lt_ge_cases i 4) as [Hlt|Hge].
  - rewrite Z.mod_pow2_bits_low by lia. reflexivity.
  - rewrite Z.ones_spec_high by lia. now rewrite !andb_false_r.
Qed.

Lemma hex_upper_mod n : forall m v,
  (n <= m)%nat -> Netaddr.hex_upper n (v mod 2 ^ (4 * Z.of_nat m)) = Netaddr.hex_upper n v.
Proof.
  induction n as [|n IH]; intros m v Hn; cbn [Netaddr.hex_upper]; [reflexivity|].
  rewrite nibble_mod by lia. rewrite IH by lia. reflexivity.
Qed.

Lemma hex_upper_cons n d lo :
  0 <= d < 16 -> 0 <= lo < 16 ^ Z.of_nat n ->
  Netaddr.hex_upper (S n) (d * 16 ^ Z.of_nat n + lo)
  = Netaddr.hex_char d :: Netaddr.hex_upper n lo.
Proof.
  intros Hd Hlo.
  assert (Hpow : 16 ^ Z.of_nat n = 2 ^ (4 * Z.of_nat n)).
  { change 16 with (2 ^ 4). rewrite <- Z.pow_mul_r by lia. reflexivity. }
  cbn [Netaddr.hex_upper]. f_equal.
  - f_equal. rewrite Z.shiftr_div_pow2 by lia. rewrite <- Hpow.
    rewrite Z.div_add_l by lia. rewrite Z.div_small by lia.
    change 15 with (Z.ones 4). rewrite Z.land_ones by lia.
    rewrite Z.add_0_r. apply Z.mod_small. change (2 ^ 4) with 16. lia.
  - rewrite <- (hex_upper_mod n n) by lia. rewrite <- Hpow.
    rewrite Z.add_comm, Z.mod_add by lia. now rewrite Z.mod_small by lia.
Qed.

Lemma little_range ds :
  Forall (fun d => 0 <= d < 16) ds -> 0 <= little ds < 16 ^ Z.of_nat (List.length ds).
Proof.
  induction 1 as [|d ds Hd _ IH]; cbn [little List.length].
  - change (16 ^ Z.of_nat 0) with 1. lia.
  - rewrite Nat2Z.inj_succ, Z.pow_succ_r by lia. nia.
Qed.

Lemma hex_upper_little ds :
  Forall (fun d => 0 <= d < 16) ds ->
  Netaddr.hex_upper (List.length ds) (little ds) = List.map Netaddr.hex_char ds.
Proof.
  induction 1 as [|d ds Hd Hds IH]; [reflexivity|].
  cbn [little List.length List.map].
  rewrite hex_upper_cons; [now rewrite IH | exact Hd | now apply little_range].
Qed.

(** The key of twelve digits read as six octets and printed again. *)
Lemma bare_of_digits (cs : list ascii) :
  forallb Re.upper_hex cs = true -> List.length cs = 12%nat ->
  let v := little (List.map nib cs) in
  0 <= v <= Netaddr.max_int48 /\ Netaddr.hex_upper 12 v = cs.
Proof.
  intros Hcs Hlen v.
  assert (Hds : Forall (fun d => 0 <= d < 16) (List.map nib cs)).
  { apply Forall_forall. intros d Hd. apply list_elem_of_In, in_map_iff in Hd.
    destruct Hd as [c [<- Hc]]. apply digit_range, upper_hex_facts.
    rewrite forallb_forall in Hcs. now apply Hcs. }
  split.
  - pose proof (little_range _ Hds) as Hr. rewrite List.length_map, Hlen in Hr.
    unfold Netaddr.max_int48. change (16 ^ Z.of_nat 12) with (2 ^ 48) in Hr. subst v. lia.
  - pose proof (hex_upper_little _ Hds) as Hp. rewrite List.length_map, Hlen in Hp.
    subst v. rewrite Hp, List.map_map. clear Hp Hds Hlen.
    induction cs as [|c cs IH]; [reflexivity|]. cbn in *.
    apply andb_prop in Hcs as [Hc Hcs].
    now rewrite (digit_print _ (upper_hex_facts _ Hc)), IH.
Qed.

(** ** Prefixes of six, three and five octets *)

Lemma chomp_keeps l c :
  Ascii.eqb c Py.newline = false -> Netaddr.chomp (l ++ [c]) = (l ++ [c])%list.
Proof. intros Hc. unfold Netaddr.chomp. now rewrite rev_unit, Hc. Qed.

Lemma EUI_six a b c d e f g h i j k l :
  forallb Re.upper_hex [a; b; c; d; e; f; g; h; i; j; k; l] = true ->
  Netaddr.EUI_of_str (six_octets a b c d e f g h i j k l)
  = Ok (Netaddr.mkEUI (little (List.map nib [a; b; c; d; e; f; g; h; i; j; k; l]))
          Netaddr.EUI48).
Proof.
  intros Hcs. cbn [forallb] in Hcs.
  repeat match type of Hcs with
         | (_ && _) = true => apply andb_prop in Hcs as [? Hcs]
         end.
  assert (Hv : Netaddr.str_to_int Netaddr.eui48_formats
                 (six_octets a b c d e f g h i j k l)
               = Some (little (List.map nib [a; b; c; d; e; f; g; h; i; j; k; l]))).
  { unfold Netaddr.str_to_int, six_octets, Py.chars, Py.text.
    rewrite list_ascii_of_string_of_list_ascii.
    change [a; b; colon; c; d; colon; e; f; colon; g; h; colon; i; j; colon; k; l]
      with ([a; b; colon; c; d; colon; e; f; colon; g; h; colon; i; j; colon; k] ++ [l])%list.
    rewrite chomp_keeps by (apply digit_newline; now apply upper_hex_facts).
    cbn [app Netaddr.first_format Netaddr.eui48_formats].
    unfold Netaddr.match_format at 1. cbn [Netaddr.sep Netaddr.groups].
    unfold colon.
    rewrite !split_chars_octet, split_chars_end
      by (apply digit_colon; now apply upper_hex_facts).
    cbn [List.length Nat.eqb Netaddr.words_value Netaddr.min_len Netaddr.max_len
           Nat.leb andb].
    rewrite !hex_value_octet by assumption.
    cbn [Netaddr.words_value]. f_equal.
    rewrite !Z.shiftl_mul_pow2 by lia. cbn [List.map little List.length].
    change (4 * Z.of_nat 2) with 8.
    repeat match goal with
           | |- context [16 ^ Z.of_nat ?n] =>
               let p := eval vm_compute in (16 ^ Z.of_nat n) in
               change (16 ^ Z.of_nat n) with p
           end.
    change (2 ^ 8) with 256. lia. }
  unfold Netaddr.EUI_of_str, Netaddr.detect. now rewrite Hv.
Qed.

Lemma normalize_six a b c d e f g h i j k l :
  forallb Re.upper_hex [a; b; c; d; e; f; g; h; i; j; k; l] = true ->
  DUT.normalize (six_octets a b c d e f g h i j k l)
  = Ok (Py.text [a; b; c; d; e; f; g; h; i; j; k; l]).
Proof.
  intros Hcs. unfold DUT.normalize.
  replace (String.length (six_octets a b c d e f g h i j k l) =? 8)%nat with false
    by reflexivity.
  rewrite (EUI_six _ _ _ _ _ _ _ _ _ _ _ _ Hcs).
  destruct (bare_of_digits _ Hcs eq_refl) as [Hr Hp].
  unfold Netaddr.str_bare. cbn [Netaddr.value].
  replace ((0 <=? _) && (_ <=? Netaddr.max_int48)) with true.
  - now rewrite Hp.
  - symmetry. apply andb_true_intro. split; apply Z.leb_le; lia.
Qed.

Lemma normalize_three a b c d e f :
  forallb Re.upper_hex [a; b; c; d; e; f] = true ->
  DUT.normalize (three_octets a b c d e f)
  = Ok (Py.text [a; b; c; d; e; f] +:+ "000000").
Proof.
  intros Hcs.
  assert (Hsame : DUT.normalize (three_octets a b c d e f)
                  = DUT.normalize (six_octets a b c d e f "0" "0" "0" "0" "0" "0"))
    by reflexivity.
  rewrite Hsame.
  rewrite normalize_six; [reflexivity|].
  cbn [forallb] in *.
  repeat match type of Hcs with
         | (_ && _) = true => apply andb_prop in Hcs as [-> Hcs]
         end.
  reflexivity.
Qed.

Lemma digits_value_colon flag acc a b rest :
  Re.upper_hex a = true -> Re.upper_hex b = true ->
  Py.digits_value flag acc (a :: b :: colon :: rest) = None.
Proof.
  intros Ha Hb. apply upper_hex_facts in Ha, Hb. cbn [Py.digits_value].
  rewrite (digit_underscore _ Ha).
  destruct (Py.isdigit a); [|reflexivity].
  rewrite (digit_underscore _ Hb).
  destruct (Py.isdigit b); reflexivity.
Qed.

Lemma strip_keeps a l z :
  Py.isspace a = false -> Py.isspace z = false ->
  Py.strip (a :: l ++ [z]) = (a :: l ++ [z])%list.
Proof.
  intros Ha Hz. unfold Py.strip. cbn [Py.lstrip]. rewrite Ha.
  change (a :: l ++ [z])%list with ((a :: l) ++ [z])%list.
  rewrite rev_unit. cbn [Py.lstrip]. rewrite Hz.
  now rewrite <- rev_unit, rev_involutive.
Qed.

Lemma EUI_five a b c d e f g h i j :
  forallb Re.upper_hex [a; b; c; d; e; f; g; h; i; j] = true ->
  Netaddr.EUI_of_str (five_octets a b c d e f g h i j) = Raise AddrFormatError.
Proof.
  intros Hcs. cbn [forallb] in Hcs.
  repeat match type of Hcs with
         | (_ && _) = true => apply andb_prop in Hcs as [? Hcs]
         end.
  set (cs := [a; b; colon; c; d; colon; e; f; colon; g; h; colon; i; j]).
  assert (Hchars : Py.chars (five_octets a b c d e f g h i j) = cs).
  { unfold Py.chars, five_octets, Py.text. apply list_ascii_of_string_of_list_ascii. }
  assert (Hchomp : Netaddr.chomp cs = cs).
  { change cs with ([a; b; colon; c; d; colon; e; f; colon; g; h; colon; i] ++ [j])%list.
    apply chomp_keeps, digit_newline. now apply upper_hex_facts. }
  assert (Hcolon : Py.split_chars ":" cs
                   = [[a; b]; [c; d]; [e; f]; [g; h]; [i; j]]).
  { unfold cs, colon.
    rewrite !split_chars_octet, split_chars_end
      by (apply digit_colon; now apply upper_hex_facts).
    reflexivity. }
  assert (Hother : forall sep, Ascii.eqb colon sep = false ->
             (forall x, Re.upper_hex x = true -> Ascii.eqb x sep = false) ->
             Py.split_chars sep cs = [cs]).
  { intros sep Hsep Hx. apply split_chars_none. unfold cs. cbn [forallb].
    rewrite Hsep, !Hx by assumption. reflexivity. }
  assert (Hdash : Py.split_chars "-" cs = [cs]).
  { apply Hother; [reflexivity|]. intros x Hx. apply digit_dash. now apply upper_hex_facts. }
  assert (Hdot : Py.split_chars "." cs = [cs]).
  { apply Hother; [reflexivity|]. intros x Hx. apply digit_dot. now apply upper_hex_facts. }
  assert (Hformats : forall fmt, In fmt (Netaddr.eui48_formats ++ Netaddr.eui64_formats) ->
             Netaddr.match_format fmt cs = None).
  { intros fmt Hf. cbn in Hf.
    repeat (destruct Hf as [<-|Hf];
            [unfold Netaddr.match_format; cbn [Netaddr.sep Netaddr.groups];
             rewrite ?Hcolon, ?Hdash, ?Hdot; reflexivity|]).
    contradiction. }
  assert (Hnone : forall fs, (forall fmt, In fmt fs -> Netaddr.match_format fmt cs = None) ->
             Netaddr.first_format fs cs = None).
  { induction fs as [|fmt fs IH]; intros Hfs; cbn; [reflexivity|].
    rewrite Hfs by now left. apply IH. intros fmt' Hf'. apply Hfs. now right. }
  assert (Hint : Py.int (five_octets a b c d e f g h i j) = None).
  { unfold Py.int. rewrite Hchars.
    change cs with (a :: [b; colon; c; d; colon; e; f; colon; g; h; colon; i] ++ [j])%list.
    rewrite strip_keeps by (apply digit_space; now apply upper_hex_facts).
    rewrite (digit_dash a), (digit_plus a) by now apply upper_hex_facts.
    now apply digits_value_colon. }
  unfold Netaddr.EUI_of_str, Netaddr.detect, Netaddr.str_to_int.
  rewrite Hchars, Hchomp, Hint.
  rewrite !Hnone; [reflexivity | |]; intros fmt Hf; apply Hformats, in_or_app; auto.
Qed.

Lemma normalize_five a b c d e f g h i j :
  forallb Re.upper_hex [a; b; c; d; e; f; g; h; i; j] = true ->
  DUT.normalize (five_octets a b c d e f g h i j) = Raise AddrFormatError.
Proof.
  intros Hcs. unfold DUT.normalize.
  replace (String.length (five_octets a b c d e f g h i j) =? 8)%nat with false
    by reflexivity.
  now rewrite EUI_five.
Qed.

(** ** [json.loads] reads back what [json.dumps] wrote *)

Lemma run_app sd l1 l2 : Json.run sd (l1 ++ l2) = Json.run (Json.run sd l1) l2.
Proof. unfold Json.run. apply fold_left_app. Qed.

Lemma run_escape c key acc d rest :
  Json.run (Json.InString key acc Json.Plain, d) (Json.escape_char c ++ rest)
  = Json.run (Json.InString key (c :: acc) Json.Plain, d) rest.
Proof. destruct c as [[] [] [] [] [] [] [] []]; reflexivity. Qed.

Lemma run_escaped l : forall key acc d rest,
  Json.run (Json.InString key acc Json.Plain, d) (flat_map Json.escape_char l ++ rest)
  = Json.run (Json.InString key (rev l ++ acc) Json.Plain, d) rest.
Proof.
  induction l as [|c l IH]; intros key acc d rest; [reflexivity|].
  cbn [flat_map rev]. rewrite <- !app_assoc, run_escape, IH. reflexivity.
Qed.

Lemma text_chars s : Py.text (Py.chars s) = s.
Proof. apply string_of_list_ascii_of_string. Qed.

Lemma chars_text l : Py.chars (Py.text l) = l.
Proof. apply list_ascii_of_string_of_list_ascii. Qed.

(** A string between its quotes, from the state before the opening
    quote to the state after the closing one. *)
Lemma run_dump_string s key d rest :
  Json.run (Json.InString key [] Json.Plain, d)
    (flat_map Json.escape_char (Py.chars s) ++ Json.quote :: rest)
  = Json.run (Json.close_string key (rev (Py.chars s)) d) rest.
Proof. rewrite run_escaped, app_nil_r. reflexivity. Qed.

Lemma run_dump_member st kv d rest :
  before_key st ->
  Json.run (st, d) (Json.dump_member kv ++ rest)
  = Json.run (Json.AfterValue, Dict.set (fst kv) (snd kv) d) rest.
Proof.
  intros Hst. destruct kv as [k v]. unfold Json.dump_member, Json.dump_string.
  cbn [fst snd]. rewrite <- !app_assoc. cbn [app].
  assert (Hopen : Json.run (st, d)
                    (Json.quote :: flat_map Json.escape_char (Py.chars k)
                       ++ Json.quote :: Py.chars ": " ++ Json.quote
                       :: flat_map Json.escape_char (Py.chars v) ++ Json.quote :: rest)
                  = Json.run (Json.InString None [] Json.Plain, d)
                      (flat_map Json.escape_char (Py.chars k)
                         ++ Json.quote :: Py.chars ": " ++ Json.quote
                         :: flat_map Json.escape_char (Py.chars v) ++ Json.quote :: rest)).
  { destruct Hst as [-> | ->]; reflexivity. }
  replace (Json.quote :: (flat_map Json.escape_char (Py.chars k) ++ [Json.quote])
             ++ Py.chars ": "
             ++ Json.quote :: (flat_map Json.escape_char (Py.chars v) ++ [Json.quote]) ++ rest)%list
    with (Json.quote :: flat_map Json.escape_char (Py.chars k)
            ++ Json.quote :: Py.chars ": " ++ Json.quote
            :: flat_map Json.escape_char (Py.chars v) ++ Json.quote :: rest)%list
    by (now rewrite <- !app_assoc).
  rewrite Hopen, run_dump_string. cbn [Json.close_string].
  change (Json.run (Json.AfterKey (Py.text (rev (rev (Py.chars k)))), d)
            (Py.chars ": " ++ Json.quote
               :: flat_map Json.escape_char (Py.chars v) ++ Json.quote :: rest))
    with (Json.run (Json.InString (Some (Py.text (rev (rev (Py.chars k))))) [] Json.Plain, d)
            (flat_map Json.escape_char (Py.chars v) ++ Json.quote :: rest)).
  rewrite run_dump_string. cbn [Json.close_string].
  now rewrite !rev_involutive, !text_chars.
Qed.

Lemma run_dump_members d : forall st acc,
  d <> [] -> before_key st ->
  Json.run (st, acc) (Json.dump_members d ++ ["}"%char])
  = (Json.Done, fold_left (fun a kv => Dict.set (fst kv) (snd kv) a) d acc).
Proof.
  induction d as [|kv d IH]; intros st acc Hd Hst; [contradiction|].
  destruct d as [|kv' d].
  - cbn [Json.dump_members]. rewrite run_dump_member by assumption. reflexivity.
  - change (Json.dump_members (kv :: kv' :: d))
      with (Json.dump_member kv ++ Py.chars ", " ++ Json.dump_members (kv' :: d))%list.
    rewrite <- !app_assoc, run_dump_member by assumption.
    change (Json.run (Json.AfterValue, Dict.set (fst kv) (snd kv) acc)
              (Py.chars ", " ++ Json.dump_members (kv' :: d) ++ ["}"%char]))
      with (Json.run (Json.AfterComma, Dict.set (fst kv) (snd kv) acc)
              (Json.dump_members (kv' :: d) ++ ["}"%char])).
    rewrite IH; [reflexivity | discriminate | now right].
Qed.

Lemma set_fresh {V : Type} k (v : V) d :
  ~ In k (Dict.keys d) -> Dict.set k v d = (d ++ [(k, v)])%list.
Proof.
  unfold Dict.keys. induction d as [|[k' v'] d IH]; cbn; intros Hk; [reflexivity|].
  destruct (String.eqb_spec k k') as [->|_]; [tauto|].
  rewrite IH; [reflexivity | tauto].
Qed.

Lemma fold_set_fresh (d : Dict.t string) : forall acc,
  NoDup (Dict.keys (acc ++ d)%list) ->
  fold_left (fun a kv => Dict.set (fst kv) (snd kv) a) d acc = (acc ++ d)%list.
Proof.
  unfold Dict.keys. induction d as [|[k v] d IH]; intros acc Hnd; cbn.
  - now rewrite app_nil_r.
  - rewrite set_fresh.
    + rewrite IH; rewrite <- app_assoc; [reflexivity | exact Hnd].
    + rewrite map_app in Hnd. cbn in Hnd. apply NoDup_app in Hnd as (_ & Hdis & _).
      intros Hin. apply (Hdis k); [now apply list_elem_of_In | left].
Qed.

(** The round trip of the cache through the store. *)
Lemma loads_dumps (d : Dict.t string) :
  NoDup (Dict.keys d) -> Json.loads (Json.dumps d) = Ok d.
Proof.
  intros Hnd. unfold Json.loads, Json.dumps. rewrite chars_text.
  change (Json.run (Json.Start, []) ("{"%char :: Json.dump_members d ++ ["}"%char]))
    with (Json.run (Json.Open, []) (Json.dump_members d ++ ["}"%char])).
  destruct d as [|kv d]; [reflexivity|].
  rewrite run_dump_members; [|discriminate | now left].
  now rewrite fold_set_fresh.
Qed.

Lemma dumps_truthy d : Py.truthy (Json.dumps d) = true.
Proof. reflexivity. Qed.

(** ** The keys of the cache *)

Lemma hex_char_upper d : 0 <= d < 16 -> Re.upper_hex (Netaddr.hex_char d) = true.
Proof.
  intros Hd.
  assert (H : d = 0 \/ d = 1 \/ d = 2 \/ d = 3 \/ d = 4 \/ d = 5 \/ d = 6 \/ d = 7
              \/ d = 8 \/ d = 9 \/ d = 10 \/ d = 11 \/ d = 12 \/ d = 13 \/ d = 14
              \/ d = 15) by lia.
  repeat (destruct H as [->|H]; [reflexivity|]). now subst d.
Qed.

Lemma hex_upper_digits n v :
  List.length (Netaddr.hex_upper n v) = n
  /\ forallb Re.upper_hex (Netaddr.hex_upper n v) = true.
Proof.
  induction n as [|n [IHl IHd]]; cbn [Netaddr.hex_upper List.length forallb]; [now split|].
  split; [now rewrite IHl|]. rewrite IHd, andb_true_r.
  apply hex_char_upper.
  pose proof (land_le_mask (Z.shiftr v (4 * Z.of_nat n)) 15). lia.
Qed.

Lemma normalize_bare oui k : DUT.normalize oui = Ok k -> bare_key k = true.
Proof.
  unfold DUT.normalize.
  destruct (Netaddr.EUI_of_str _) as [e|]; [|discriminate].
  unfold Netaddr.str_bare.
  destruct ((0 <=? Netaddr.value e) && (Netaddr.value e <=? Netaddr.max_int48));
    [|discriminate].
  intros H.
  assert (Hk : Py.text (Netaddr.hex_upper 12 (Netaddr.value e)) = k) by now injection H.
  rewrite <- Hk. unfold bare_key. rewrite chars_text.
  destruct (hex_upper_digits 12 (Netaddr.value e)) as [-> ->]. reflexivity.
Qed.

Lemma prefix_colon c k : Re.upper_hex c = true -> String.prefix ":" (String c k) = false.
Proof.
  intros H. apply upper_hex_cases in H. cbn in H.
  repeat (destruct H as [<-|H]; [reflexivity|]). contradiction.
Qed.

Lemma bare_key_no_colon k : bare_key k = true -> Py.contains ":" k = false.
Proof.
  unfold bare_key. intros H. apply andb_prop in H as [_ H].
  induction k as [|c k IH]; [reflexivity|].
  unfold Py.chars in *. cbn [list_ascii_of_string forallb] in H.
  apply andb_prop in H as [Hc Hk].
  cbn [Py.contains]. now rewrite (prefix_colon _ _ Hc), (IH Hk).
Qed.

Lemma keys_merge db k org :
  forall x, In x (Dict.keys (DUT.merge db k org)) -> x = k \/ In x (Dict.keys db).
Proof.
  intros x. unfold DUT.merge.
  assert (Hset : In x (Dict.keys (Dict.set k org db)) -> x = k \/ In x (Dict.keys db)).
  { rewrite keys_set. destruct (Dict.mem k db); [now right|].
    intros Hin. apply in_app_or in Hin as [Hin|[<-|[]]]; auto. }
  destruct (Dict.get k db) as [bound|]; [|exact Hset].
  destruct (String.eqb bound IEEERegi); [exact Hset | now right].
Qed.

Lemma NoDup_keys_merge db k org :
  NoDup (Dict.keys db) -> NoDup (Dict.keys (DUT.merge db k org)).
Proof.
  intros Hnd. unfold DUT.merge.
  destruct (Dict.get k db) as [bound|]; [|now apply NoDup_keys_set].
  destruct (String.eqb bound IEEERegi); [now apply NoDup_keys_set | exact Hnd].
Qed.

Lemma download_loop_keys ms : forall db db',
  DUT.download_loop ms db = Ok db' ->
  NoDup (Dict.keys db) -> (forall k, In k (Dict.keys db) -> bare_key k = true) ->
  NoDup (Dict.keys db') /\ (forall k, In k (Dict.keys db') -> bare_key k = true).
Proof.
  induction ms as [|[oui org] ms IH]; cbn [DUT.download_loop]; intros db db' Hrun Hnd Hb.
  - injection Hrun as <-. now split.
  - destruct (DUT.normalize oui) as [k|] eqn:Hk; [|discriminate].
    apply (IH _ _ Hrun); [now apply NoDup_keys_merge|].
    intros x Hx. apply keys_merge in Hx as [->|Hx]; [now apply normalize_bare in Hk | auto].
Qed.

Lemma download_world vrf w :
  snd (DUT._download vrf w)
  = with_history (history w ++ [RunCmds (fetch_command vrf)]) w.
Proof.
  unfold DUT._download, DUT.curl, bind, log, fetch_command. cbn.
  destruct (run_cmd w _) as [text|]; [|reflexivity].
  destruct (Py.truthy text); [|reflexivity].
  unfold lift. reflexivity.
Qed.

Lemma download_keys vrf w db :
  fst (DUT._download vrf w) = Ok db ->
  NoDup (Dict.keys db) /\ (forall k, In k (Dict.keys db) -> bare_key k = true).
Proof.
  unfold DUT._download, DUT.curl, bind, log. cbn.
  assert (Hnil : Ok [] = Ok db ->
            NoDup (Dict.keys db) /\ (forall k, In k (Dict.keys db) -> bare_key k = true)).
  { intros [= <-]. split; [constructor | intros k []]. }
  destruct (run_cmd w _) as [text|]; [|exact Hnil].
  destruct (Py.truthy text); [|exact Hnil].
  unfold lift. cbn. intros Hrun.
  apply (download_loop_keys _ _ _ Hrun); [constructor | intros k []].
Qed.

(** A refresh the store takes returns what was downloaded. *)
Lemma oui_list_refreshed vrf w :
  refreshing w -> fst (DUT.oui_list vrf w) = fst (DUT._download vrf w).
Proof.
  intros [Hup Hcase].
  pose proof (download_world vrf w) as Hw.
  pose proof (download_keys vrf w) as Hkeys.
  unfold DUT.oui_list. unfold bind at 1 2. unfold configlet_exists. rewrite Hup.
  destruct Hcase as [Hc | (c & Hc & Hk & Hts & Hs)]; rewrite Hc.
  - cbn [DUT.update_needed key_truthy negb ret]. unfold bind at 1.
    unfold DUT.refresh, bind at 1.
    destruct (DUT._download vrf w) as [[d|e] w1]; cbn [fst snd] in *; [|reflexivity].
    destruct (Hkeys d eq_refl) as [Hnd _].
    rewrite dumps_truthy. cbn [key_truthy negb andb]. subst w1.
    unfold configlet_add, bind, log, configlet_get, lift. cbn.
    rewrite Hup, Hc. cbn. rewrite Hup, lookup_insert_eq. cbn.
    now apply loads_dumps.
  - unfold DUT.update_needed. cbn [key_truthy]. rewrite Hk. cbn [negb].
    destruct (Z.eqb_spec (dateTimeInLongFormat c) 0) as [|_]; [contradiction|].
    unfold is_24h_old. fold (stale w c). rewrite Hs.
    unfold bind at 1. unfold DUT.refresh, bind at 1.
    destruct (DUT._download vrf w) as [[d|e] w1]; cbn [fst snd] in *; [|reflexivity].
    destruct (Hkeys d eq_refl) as [Hnd _].
    rewrite dumps_truthy. cbn [key_truthy key_text negb andb]. rewrite Hk. cbn [negb andb].
    subst w1.
    unfold configlet_update, bind, log, configlet_get, lift. cbn.
    rewrite Hup, Hc, String.eqb_refl. cbn. rewrite Hup, lookup_insert_eq. cbn.
    now apply loads_dumps.
Qed.

(** C6 as stated fails: the key stored for the line of 00:00:0C has no
    colon. *)
Lemma bare_keys_C6_counterexample :
  fst (DUT._download VRF_DEFAULT (world_with 0 (Some (line "00:00:0C" "Cisco")) ∅))
  = Ok [("00000C000000", "Cisco")]
  /\ Py.contains ":" "00000C000000" = false.
Proof. split; reflexivity. Qed.

(** C6, amended: every key [_download] stores in the mapping, and every
    key of the mapping [oui_list] returns from a refresh, is a bare MAC
    string: twelve hexadecimal digits in upper case without any separator;
    a parsed prefix of exactly 3 octets is zero-extended to 6 octets
    before it is stored: its key is its six digits followed by six
    zeros. *)
Theorem bare_keys_C6 :
  (forall vrf w db,
      fst (DUT._download vrf w) = Ok db ->
      forall k, In k (Dict.keys db) -> bare_key k = true /\ Py.contains ":" k = false)
  /\ (forall vrf w db,
      refreshing w -> fst (DUT.oui_list vrf w) = Ok db ->
      forall k, In k (Dict.keys db) -> bare_key k = true /\ Py.contains ":" k = false)
  /\ (forall a b c d e f,
      forallb Re.upper_hex [a; b; c; d; e; f] = true ->
      DUT.normalize (three_octets a b c d e f)
      = Ok (Py.text [a; b; c; d; e; f] +:+ "000000")).
Proof.
  assert (H : forall vrf w db,
             fst (DUT._download vrf w) = Ok db ->
             forall k, In k (Dict.keys db) ->
                       bare_key k = true /\ Py.contains ":" k = false).
  { intros vrf w db Hrun k Hk. destruct (download_keys _ _ _ Hrun) as [_ Hb].
    split; [|apply bare_key_no_colon]; now apply Hb. }
  split; [exact H|]. split; [|exact normalize_three].
  intros vrf w db Hr Hrun. rewrite (oui_list_refreshed _ _ Hr) in Hrun.
  now apply (H vrf w).
Qed.

Lemma bare_keys_C6_witness :
  let w := world_with 0 (Some (line "00:00:0C" "Cisco")) ∅ in
  (bare_key "00000C000000" = true /\ Py.contains ":" "00000C000000" = false)
  /\ (bare_key "00000C000000" = true /\ Py.contains ":" "00000C000000" = false)
  /\ DUT.normalize "00:00:0C" = Ok "00000C000000".
Proof.
  intros w. destruct bare_keys_C6 as [Hstored [Hreturned Hthree]].
  split; [|split].
  - apply (Hstored VRF_DEFAULT w [("00000C000000", "Cisco")]);
      [reflexivity | left; reflexivity].
  - apply (Hreturned VRF_DEFAULT w [("00000C000000", "Cisco")]).
    + split; [reflexivity | left; reflexivity].
    + reflexivity.
    + left. reflexivity.
  - apply (Hthree "0" "0" "0" "0" "0" "C")%char. reflexivity.
Defined.


(** ** The VRF of TerminAttr *)

Lemma vrf_from_terminattr_args rc :
  vrf_from_terminattr rc
  = match exec_args rc with
    | Some args => vrf_of_args args VRF_DEFAULT
    | None => Ok VRF_DEFAULT
    end.
Proof.
  unfold vrf_from_terminattr, exec_args.
  destruct (Dict.get "daemon TerminAttr" rc) as [daemon|]; [|reflexivity].
  destruct (cmds daemon) as [keys|]; [|reflexivity].
  destruct (List.find (Py.contains "exec") keys); reflexivity.
Qed.

Lemma vrf_of_args_no_flag args : forall vrf,
  Forall (fun arg => is_vrf_flag arg = false) args -> vrf_of_args args vrf = Ok vrf.
Proof.
  induction args as [|arg args IH]; intros vrf Hargs; [reflexivity|].
  inversion Hargs as [|? ? Harg Hrest]; subst. cbn [vrf_of_args].
  unfold is_vrf_flag in Harg. rewrite Harg. cbn [negb]. now apply IH.
Qed.

Lemma vrf_of_args_app args1 : forall args2 vrf,
  vrf_of_args (args1 ++ args2) vrf
  = match vrf_of_args args1 vrf with
    | Ok found => vrf_of_args args2 found
    | Raise e => Raise e
    end.
Proof.
  induction args1 as [|arg args1 IH]; intros args2 vrf; [reflexivity|].
  cbn [app vrf_of_args].
  destruct (negb (Py.startswith arg "-cvvrf")); [apply IH|].
  destruct (Py.split "=" arg) as [|piece [|value rest]]; [reflexivity | reflexivity | apply IH].
Qed.

Lemma split_chars_absent sep l : ~ In sep l -> Py.split_chars sep l = [l].
Proof.
  induction l as [|c l IH]; intros Hsep; [reflexivity|]. cbn.
  destruct (Ascii.eqb_spec c sep) as [->|_]; [exfalso; apply Hsep; now left|].
  rewrite IH; [reflexivity|]. intros Hin. apply Hsep. now right.
Qed.

Lemma split_absent sep s : ~ In sep (Py.chars s) -> Py.split sep s = [s].
Proof.
  intros Hsep. unfold Py.split. rewrite (split_chars_absent _ _ Hsep). cbn.
  unfold Py.text, Py.chars. now rewrite string_of_list_ascii_of_string.
Qed.

(** X1: [vrf_from_terminattr] answers the default VRF, and raises
    nothing, when the running configuration has no TerminAttr daemon
    section, when the section has no [cmds], when no command contains
    [exec], and when the [exec] command has no argument that starts with
    [-cvvrf]. *)
Theorem vrf_default_X1 (running_config : Dict.t section) :
  match exec_args running_config with
  | Some args => Forall (fun arg => is_vrf_flag arg = false) args
  | None => True
  end ->
  vrf_from_terminattr running_config = Ok VRF_DEFAULT.
Proof.
  intros Hargs. rewrite vrf_from_terminattr_args.
  destruct (exec_args running_config) as [args|]; [|reflexivity].
  now apply vrf_of_args_no_flag.
Qed.

Lemma vrf_default_X1_witness :
  vrf_from_terminattr [] = Ok VRF_DEFAULT
  /\ vrf_from_terminattr [("daemon TerminAttr", mkSection None (Some []))] = Ok VRF_DEFAULT
  /\ vrf_from_terminattr (terminattr_config "shutdown") = Ok VRF_DEFAULT
  /\ vrf_from_terminattr
       (terminattr_config "exec /usr/bin/TerminAttr -taillogs") = Ok VRF_DEFAULT.
Proof.
  split; [|split; [|split]]; apply vrf_default_X1; cbn; auto; repeat constructor.
Defined.

(** X2: when an argument of the [exec] command starts with [-cvvrf] and
    holds no [=], [vrf_from_terminattr] raises [IndexError], whatever the
    other arguments are: the lookup of the second piece of the split is
    not protected. *)
Theorem vrf_flag_without_value_X2 (running_config : Dict.t section)
    (args : list string) (arg : string) :
  exec_args running_config = Some args ->
  In arg args -> is_vrf_flag arg = true -> ~ In "="%char (Py.chars arg) ->
  vrf_from_terminattr running_config = Raise IndexError.
Proof.
  intros Hargs Hin Hflag Heq. rewrite vrf_from_terminattr_args, Hargs. clear Hargs.
  generalize VRF_DEFAULT as vrf.
  induction args as [|a args IH]; intros vrf; [contradiction|]. cbn [vrf_of_args].
  destruct (negb (Py.startswith a "-cvvrf")) eqn:Hna.
  - destruct Hin as [->|Hin]; [|now apply IH].
    unfold is_vrf_flag in Hflag. now rewrite Hflag in Hna.
  - destruct Hin as [->|Hin].
    + now rewrite (split_absent _ _ Heq).
    + destruct (Py.split "=" a) as [|piece [|value rest]]; [reflexivity | reflexivity |].
      now apply IH.
Qed.

Lemma vrf_flag_without_value_X2_witness :
  vrf_from_terminattr (terminattr_config "exec /usr/bin/TerminAttr -cvvrf MGMT")
  = Raise IndexError.
Proof.
  apply (vrf_flag_without_value_X2 _
           ["exec"; "/usr/bin/TerminAttr"; "-cvvrf"; "MGMT"] "-cvvrf").
  - reflexivity.
  - cbn. auto.
  - reflexivity.
  - cbn. intros H. repeat (destruct H as [H|H]; [discriminate H|]). exact H.
Defined.

Lemma chars_append a b : Py.chars (a +:+ b) = (Py.chars a ++ Py.chars b)%list.
Proof. unfold Py.chars. induction a as [|c a IH]; simpl; [reflexivity | now f_equal]. Qed.

(** X3: the value of the last [-cvvrf=] argument is the VRF: when the
    arguments before it raise nothing and no [-cvvrf] argument follows it,
    [vrf_from_terminattr] answers the text after its [=]. *)
Theorem vrf_last_flag_X3 (running_config : Dict.t section)
    (before after : list string) (found value : string) :
  exec_args running_config = Some (before ++ ("-cvvrf=" +:+ value) :: after)%list ->
  vrf_of_args before VRF_DEFAULT = Ok found ->
  ~ In "="%char (Py.chars value) ->
  Forall (fun arg => is_vrf_flag arg = false) after ->
  vrf_from_terminattr running_config = Ok value.
Proof.
  intros Hargs Hbefore Hvalue Hafter.
  rewrite vrf_from_terminattr_args, Hargs, vrf_of_args_app, Hbefore.
  cbn [vrf_of_args].
  replace (Py.startswith ("-cvvrf=" +:+ value) "-cvvrf") with true by reflexivity.
  cbn [negb].
  assert (Hsplit : Py.split "=" ("-cvvrf=" +:+ value) = ["-cvvrf"; value]).
  { unfold Py.split. rewrite chars_append.
    change (Py.chars "-cvvrf=") with (Py.chars "-cvvrf" ++ ["="%char])%list.
    rewrite <- app_assoc. cbn [app Py.chars list_ascii_of_string Py.split_chars].
    cbn. rewrite (split_chars_absent _ _ Hvalue). cbn.
    unfold Py.text, Py.chars. now rewrite string_of_list_ascii_of_string. }
  rewrite Hsplit. now apply vrf_of_args_no_flag.
Qed.

Lemma vrf_last_flag_X3_witness :
  vrf_from_terminattr
    (terminattr_config "exec /usr/bin/TerminAttr -cvvrf=OLD -cvvrf=MGMT -taillogs")
  = Ok "MGMT".
Proof.
  apply (vrf_last_flag_X3 _ ["exec"; "/usr/bin/TerminAttr"; "-cvvrf=OLD"] ["-taillogs"]
           "OLD" "MGMT").
  - reflexivity.
  - reflexivity.
  - cbn. intros H. repeat (destruct H as [H|H]; [discriminate H|]). exact H.
  - repeat constructor.
Defined.

(** ** Neighbours and learnt addresses attached to the interfaces *)

Lemma keys_set_present {V : Type} k (v v' : V) d :
  Dict.get k d = Some v' -> Dict.keys (Dict.set k v d) = Dict.keys d.
Proof. intros Hk. rewrite keys_set. unfold Dict.mem. now rewrite Hk. Qed.

Lemma get_absent {V : Type} k (d : Dict.t V) : ~ In k (Dict.keys d) -> Dict.get k d = None.
Proof.
  unfold Dict.keys. induction d as [|[k' v] d IH]; cbn; intros Hk; [reflexivity|].
  destruct (String.eqb_spec k k') as [->|_]; [tauto | apply IH; tauto].
Qed.

(** X4: [lldp_neighbors_to_interfaces] adds and removes no interface;
    an interface the neighbour table names with an [lldpNeighborInfo]
    receives that list as its [lldp_neighbors], every other interface is
    left as it was, and an entry for an unknown interface is skipped. *)
Theorem lldp_attached_X4 (lldp : Dict.t (option (list neighbor))) :
  forall (interfaces : Dict.t interface_t),
  NoDup (Dict.keys lldp) ->
  Dict.keys (lldp_neighbors_to_interfaces interfaces lldp) = Dict.keys interfaces
  /\ forall intf i,
      Dict.get intf interfaces = Some i ->
      Dict.get intf (lldp_neighbors_to_interfaces interfaces lldp)
      = Some match Dict.get intf lldp with
             | Some (Some neighbors) => with_lldp_neighbors neighbors i
             | _ => i
             end.
Proof.
  induction lldp as [|[k info] lldp IH]; intros interfaces Hnd; [now split|].
  cbn [Dict.keys map fst] in Hnd. apply NoDup_cons in Hnd as [Hk Hnd].
  cbn [lldp_neighbors_to_interfaces].
  set (interfaces1 := match info with
                      | Some neighbors =>
                          match Dict.get k interfaces with
                          | Some i => Dict.set k _ interfaces
                          | None => interfaces
                          end
                      | None => interfaces
                      end).
  destruct (IH interfaces1 Hnd) as [Hkeys Hget].
  assert (Hkeys1 : Dict.keys interfaces1 = Dict.keys interfaces).
  { subst interfaces1. destruct info as [neighbors|]; [|reflexivity].
    destruct (Dict.get k interfaces) as [j|] eqn:Hj; [|reflexivity].
    now apply (keys_set_present _ _ j). }
  split; [now rewrite Hkeys|].
  intros intf i Hi. cbn [Dict.get].
  destruct (String.eqb_spec intf k) as [->|Hne].
  - assert (Hrest : Dict.get k lldp = None).
    { apply get_absent. intros Hin. apply Hk. now apply list_elem_of_In. }
    assert (H1 : Dict.get k interfaces1
                 = Some match info with
                        | Some neighbors => with_lldp_neighbors neighbors i
                        | None => i
                        end).
    { subst interfaces1. destruct info as [neighbors|]; [|exact Hi].
      rewrite Hi. apply get_set_eq. }
    rewrite (Hget _ _ H1), Hrest. reflexivity.
  - assert (H1 : Dict.get intf interfaces1 = Some i).
    { subst interfaces1. destruct info as [neighbors|]; [|exact Hi].
      destruct (Dict.get k interfaces); [|exact Hi].
      rewrite get_set_ne; [exact Hi | congruence]. }
    now apply Hget.
Qed.

Lemma lldp_attached_X4_witness :
  Dict.get "Ethernet1"
    (lldp_neighbors_to_interfaces
       [("Ethernet1", mkInterface "Ethernet1" None None None)]
       [("Ethernet9", Some []); ("Ethernet1", Some [host1 "Ethernet3"])])
  = Some (with_lldp_neighbors [host1 "Ethernet3"]
            (mkInterface "Ethernet1" None None None)).
Proof.
  assert (Hnd : NoDup (Dict.keys [("Ethernet9", Some []);
                                   ("Ethernet1", Some [host1 "Ethernet3"])])).
  { apply NoDup_cons. split; [|apply NoDup_singleton].
    intros Hin. apply list_elem_of_In in Hin. destruct Hin as [H|[]]. discriminate H. }
  destruct (lldp_attached_X4 _ [("Ethernet1", mkInterface "Ethernet1" None None None)] Hnd)
    as [_ Hget].
  exact (Hget "Ethernet1" _ eq_refl).
Defined.

(** X5: [mac_address_table_to_interfaces] adds and removes no
    interface; every interface ends with the entries it had followed by
    the entries of the table learnt on it, in the order of the table, and
    entries without an interface or on an unknown interface are dropped. *)
Theorem mac_table_attached_X5 (table : list mac_entry) :
  forall (interfaces : Dict.t interface_t),
  Dict.keys (mac_address_table_to_interfaces interfaces table) = Dict.keys interfaces
  /\ forall intf i,
      Dict.get intf interfaces = Some i ->
      Dict.get intf (mac_address_table_to_interfaces interfaces table)
      = Some (mkInterface (name i) (interfaceMembership i) (lldp_neighbors i)
                (appended (mac_address_table i) (learnt_on intf table))).
Proof.
  induction table as [|entry table IH]; intros interfaces.
  { split; [reflexivity|]. intros intf [n m l t] Hi. exact Hi. }
  cbn [mac_address_table_to_interfaces].
  set (interfaces1 := match entry_interface entry with
                      | Some k =>
                          match Dict.get k interfaces with
                          | Some i => Dict.set k _ interfaces
                          | None => interfaces
                          end
                      | None => interfaces
                      end).
  destruct (IH interfaces1) as [Hkeys Hget].
  assert (Hkeys1 : Dict.keys interfaces1 = Dict.keys interfaces).
  { subst interfaces1. destruct (entry_interface entry) as [k|]; [|reflexivity].
    destruct (Dict.get k interfaces) as [j|] eqn:Hj; [|reflexivity].
    now apply (keys_set_present _ _ j). }
  split; [now rewrite Hkeys|].
  intros intf i Hi. unfold learnt_on. cbn [List.filter].
  destruct (entry_interface entry) as [k|] eqn:Hk; cbn [eqb_some].
  - destruct (String.eqb_spec k intf) as [->|Hne].
    + assert (H1 : Dict.get intf interfaces1
                   = Some (mkInterface (name i) (interfaceMembership i) (lldp_neighbors i)
                             (Some (default [] (mac_address_table i) ++ [entry])%list))).
      { subst interfaces1. rewrite Hi. apply get_set_eq. }
      rewrite (Hget _ _ H1). cbn [name interfaceMembership lldp_neighbors mac_address_table].
      f_equal. f_equal. unfold appended, learnt_on.
      destruct (List.filter _ table) as [|e es]; cbn [default].
      * reflexivity.
      * unfold id. now rewrite <- app_assoc.
    + assert (H1 : Dict.get intf interfaces1 = Some i).
      { subst interfaces1. destruct (Dict.get k interfaces); [|exact Hi].
        now rewrite get_set_ne. }
      now apply Hget.
  - now apply Hget.
Qed.

Lemma mac_table_attached_X5_witness :
  Dict.get "Ethernet1"
    (mac_address_table_to_interfaces
       [("Ethernet1", mkInterface "Ethernet1" None None None)]
       [mkEntry (Some "00:00:0c:00:00:01") (Some "Ethernet1");
        mkEntry (Some "00:00:0c:00:00:02") (Some "Ethernet7");
        mkEntry (Some "00:00:0c:00:00:03") None;
        mkEntry (Some "00:00:0c:00:00:04") (Some "Ethernet1")])
  = Some (mkInterface "Ethernet1" None None
            (Some [mkEntry (Some "00:00:0c:00:00:01") (Some "Ethernet1");
                   mkEntry (Some "00:00:0c:00:00:04") (Some "Ethernet1")])).
Proof.
  destruct (mac_table_attached_X5
              [mkEntry (Some "00:00:0c:00:00:01") (Some "Ethernet1");
               mkEntry (Some "00:00:0c:00:00:02") (Some "Ethernet7");
               mkEntry (Some "00:00:0c:00:00:03") None;
               mkEntry (Some "00:00:0c:00:00:04") (Some "Ethernet1")]
              [("Ethernet1", mkInterface "Ethernet1" None None None)]) as [_ Hget].
  exact (Hget "Ethernet1" _ eq_refl).
Defined.

(** ** The order [auto_description] visits the interfaces in *)

Lemma ascii_compare_N a b :
  Ascii.compare a b = N.compare (N_of_ascii a) (N_of_ascii b).
Proof. reflexivity. Qed.

Lemma string_compare_refl s : String.compare s s = Eq.
Proof.
  induction s as [|c s IH]; cbn; [reflexivity|].
  rewrite ascii_compare_N, N.compare_refl. exact IH.
Qed.

Lemma string_leb_refl s : String.leb s s = true.
Proof. unfold String.leb. now rewrite string_compare_refl. Qed.

Lemma string_leb_trans a : forall b c,
  String.leb a b = true -> String.leb b c = true -> String.leb a c = true.
Proof.
  unfold String.leb.
  induction a as [|x a IH]; intros [|y b] [|z c]; cbn; try congruence.
  rewrite !ascii_compare_N.
  destruct (N.compare_spec (N_of_ascii x) (N_of_ascii y)) as [Hxy|Hxy|Hxy];
    destruct (N.compare_spec (N_of_ascii y) (N_of_ascii z)) as [Hyz|Hyz|Hyz];
    try congruence; intros H1 H2.
  - rewrite Hxy, Hyz, N.compare_refl. now apply (IH b c).
  - destruct (N.compare_spec (N_of_ascii x) (N_of_ascii z)); [lia | reflexivity | lia].
  - destruct (N.compare_spec (N_of_ascii x) (N_of_ascii z)); [lia | reflexivity | lia].
  - destruct (N.compare_spec (N_of_ascii x) (N_of_ascii z)); [lia | reflexivity | lia].
Qed.

Lemma insert_by_name_perm x l : Permutation (x :: l) (insert_by_name x l).
Proof.
  induction l as [|y l IH]; cbn; [reflexivity|].
  destruct (String.leb (name x) (name y)); [reflexivity|].
  rewrite perm_swap. now apply perm_skip.
Qed.

Lemma insert_by_name_sorted x l :
  StronglySorted name_le l -> StronglySorted name_le (insert_by_name x l).
Proof.
  induction 1 as [|y l Hl IH Hy]; cbn.
  - constructor; constructor.
  - destruct (String.leb (name x) (name y)) eqn:Hxy.
    + constructor; [now constructor|]. constructor; [exact Hxy|].
      eapply Forall_impl; [exact Hy|]. intros z Hz. cbn in *.
      unfold name_le in *. now apply (string_leb_trans _ (name y)).
    + constructor; [exact IH|].
      assert (Hyx : name_le y x).
      { unfold name_le. destruct (String.leb_total (name x) (name y)); congruence. }
      apply Forall_forall. intros z Hz. apply list_elem_of_In in Hz.
      apply (Permutation_in _ (Permutation_sym (insert_by_name_perm x l))) in Hz.
      destruct Hz as [<-|Hz]; [exact Hyx|].
      rewrite Forall_forall in Hy. apply Hy. now apply list_elem_of_In.
Qed.

Lemma insert_by_name_named n x l :
  named n (insert_by_name x l)
  = if String.eqb (name x) n then x :: named n l else named n l.
Proof.
  unfold named. induction l as [|y l IH]; cbn; [reflexivity|].
  destruct (String.leb (name x) (name y)) eqn:Hxy; [reflexivity|].
  cbn. rewrite IH.
  destruct (String.eqb_spec (name x) n) as [Hx|]; [|reflexivity].
  destruct (String.eqb_spec (name y) n) as [Hy|]; [|reflexivity].
  rewrite Hx, <- Hy, string_leb_refl in Hxy. discriminate.
Qed.

(** X6: the list [auto_description] loops over holds the same
    interfaces as the dictionary, in ascending order of their names
    compared character by character, and interfaces of one name keep the
    order they had in the dictionary. *)
Theorem sorted_by_name_X6 (l : list interface_t) :
  Permutation l (sorted_by_name l)
  /\ StronglySorted name_le (sorted_by_name l)
  /\ forall n, named n (sorted_by_name l) = named n l.
Proof.
  unfold sorted_by_name. induction l as [|x l (Hperm & Hsorted & Hnamed)]; cbn [foldr].
  - repeat split; constructor.
  - split; [|split].
    + rewrite <- insert_by_name_perm. now apply perm_skip.
    + now apply insert_by_name_sorted.
    + intros n. rewrite insert_by_name_named, Hnamed. unfold named. cbn.
      reflexivity.
Qed.

(** ** The blocks [auto_description] prints *)

Lemma split_chars_head sep l :
  exists w ws, Py.split_chars sep l = w :: ws /\ ~ In sep w.
Proof.
  induction l as [|c l (w & ws & Hsplit & Hw)]; cbn.
  - exists [], []. split; [reflexivity | intros []].
  - destruct (Ascii.eqb_spec c sep) as [->|Hne].
    + exists [], (Py.split_chars sep l). split; [reflexivity | intros []].
    + rewrite Hsplit. exists (c :: w), ws. split; [reflexivity|].
      intros [Hc|Hin]; [congruence | contradiction].
Qed.

Lemma short_name_no_dot s : ~ In "."%char (Py.chars (hd "" (Py.split "." s))).
Proof.
  unfold Py.split. destruct (split_chars_head "." (Py.chars s)) as (w & ws & -> & Hw).
  cbn. now rewrite chars_text.
Qed.

Lemma interface_blocks_app out1 out2 :
  interface_blocks (out1 ++ out2) = (interface_blocks out1 ++ interface_blocks out2)%list.
Proof. apply List.filter_app. Qed.

Lemma turn_of_nil rc intf : turn_of rc intf [].
Proof. split; [constructor | apply sublist_nil_l]. Qed.

Lemma turn_of_interface rc intf out d :
  Forall (block_of rc intf) out -> interface_blocks out = [] ->
  eligible (name intf) = true -> marked rc (name intf) = false ->
  Py.truthy d = true ->
  turn_of rc intf (out ++ [mkBlock InterfaceSite (name intf) d]).
Proof.
  intros Hout Hnone He Hm Hd. split.
  - apply Forall_app. split; [exact Hout|]. repeat constructor; assumption.
  - rewrite interface_blocks_app, Hnone. cbn. reflexivity.
Qed.

Lemma describe_host_blocks rc intf n d pcs :
  eligible (name intf) = true -> marked rc (name intf) = false ->
  emits (describe_host intf n d pcs)
    (fun out _ => Forall (block_of rc intf) out /\ interface_blocks out = []).
Proof.
  intros He Hm. unfold describe_host.
  assert (Hnil : Forall (block_of rc intf) [] /\ interface_blocks [] = [])
    by (split; [constructor | reflexivity]).
  apply emits_bind_quiet; [apply quiet_item | intros; exact Hnil | intros info].
  apply emits_bind_quiet; [apply quiet_item | intros; exact Hnil | intros id_type].
  apply emits_bind_quiet;
    [destruct (String.eqb id_type "interfaceName"); apply quiet_item
    | intros; exact Hnil | intros nid].
  apply emits_bind.
  destruct (interfaceMembership intf) as [membership|] eqn:Hmem.
  - destruct (Py.split " " membership) as [|t1 [|t2 [|pc rest]]] eqn:Hsplit;
      try (apply emits_throw; exact Hnil).
    apply emits_bind.
    destruct (decide (pc ∈ pcs)) as [Hin|Hout].
    + apply emits_ret. apply emits_ret. apply emits_ret. exact Hnil.
    + apply emits_print. apply emits_ret. apply emits_ret. cbn. split; [|reflexivity].
      repeat constructor; try assumption; cbn.
      * exists membership. split; [exact Hmem|]. unfold third_token. now rewrite Hsplit.
      * apply short_name_no_dot.
  - apply emits_ret. apply emits_ret. exact Hnil.
Qed.

Lemma describe_blocks vrf rc intf pcs :
  emits (describe vrf rc intf pcs) (fun out _ => turn_of rc intf out).
Proof.
  unfold describe.
  destruct (negb (Py.startswith (name intf) "Ethernet")
            && negb (Py.startswith (name intf) "Management")) eqn:Hname.
  { apply emits_ret. apply turn_of_nil. }
  assert (He : eligible (name intf) = true).
  { unfold eligible. destruct (Py.startswith (name intf) "Ethernet"); [reflexivity|].
    destruct (Py.startswith (name intf) "Management"); [reflexivity | discriminate]. }
  unfold item at 1.
  destruct (Dict.get ("interface " +:+ name intf) rc) as [config|] eqn:Hconfig;
    [|apply emits_bind, emits_throw, turn_of_nil].
  apply emits_bind, emits_ret. unfold item at 1.
  destruct (comments config) as [notes|] eqn:Hnotes;
    [|apply emits_bind, emits_throw, turn_of_nil].
  apply emits_bind, emits_ret.
  destruct (existsb (String.eqb "no auto-description") notes) eqn:Hmark.
  { apply emits_ret. apply turn_of_nil. }
  assert (Hm : marked rc (name intf) = false).
  { unfold marked. now rewrite Hconfig, Hnotes. }
  assert (Hprint : forall (out1 : list block) (d : option string) (pcs' : gset string),
             Forall (block_of rc intf) out1 -> interface_blocks out1 = [] ->
             emits
               (let! _ := match d with
                          | Some description =>
                              if Py.truthy description
                              then print (mkBlock InterfaceSite (name intf) description)
                              else ret tt
                          | None => ret tt
                          end in
                ret pcs')
               (fun out2 _ => turn_of rc intf (out1 ++ out2))).
  { intros out1 d pcs' Hout1 Hnone. apply emits_bind.
    assert (Hquiet : turn_of rc intf (out1 ++ [] ++ [])).
    { rewrite !app_nil_r. split; [exact Hout1|]. rewrite Hnone. apply sublist_nil_l. }
    destruct d as [description|]; [|apply emits_ret, emits_ret; exact Hquiet].
    destruct (Py.truthy description) eqn:Hd; [|apply emits_ret, emits_ret; exact Hquiet].
    apply emits_print, emits_ret. rewrite app_nil_r. now apply turn_of_interface. }
  apply emits_bind.
  assert (Hmac : emits
            match mac_address_table intf with
            | Some [entry] =>
                let! mac_address := item (macAddress entry) in
                let! description := DUT.org_from_mac mac_address vrf in
                ret (Some description, pcs)
            | _ => ret (None, pcs)
            end
            (fun out1 r =>
               match r with
               | Ok described =>
                   emits
                     (let! _ := match fst described with
                                | Some description =>
                                    if Py.truthy description
                                    then print (mkBlock InterfaceSite (name intf) description)
                                    else ret tt
                                | None => ret tt
                                end in
                      ret (snd described))
                     (fun out2 _ => turn_of rc intf (out1 ++ out2))
               | Raise e => turn_of rc intf out1
               end)).
  { destruct (mac_address_table intf) as [[|entry [|]]|];
      try (apply emits_ret; apply (Hprint [] None pcs); [constructor | reflexivity]).
    apply emits_bind_quiet; [apply quiet_item | intros; apply turn_of_nil | intros mac].
    apply emits_bind_quiet;
      [apply quiet_org_from_mac | intros; apply turn_of_nil | intros d].
    apply emits_ret. apply (Hprint [] (Some d) pcs); [constructor | reflexivity]. }
  destruct (lldp_neighbors intf) as [[|n [|]]|]; try exact Hmac. clear Hmac.
  apply emits_bind_quiet;
    [destruct (systemName n); [apply quiet_ret | apply quiet_item]
    | intros; apply turn_of_nil | intros d].
  apply emits_bind_quiet; [apply quiet_lift | intros; apply turn_of_nil | intros mac].
  destruct mac.
  - apply emits_bind_quiet;
      [apply quiet_org_from_mac | intros; apply turn_of_nil | intros d'].
    apply emits_ret. apply (Hprint [] (Some d') pcs); [constructor | reflexivity].
  - apply emits_bind.
    eapply emits_weaken; [apply (describe_host_blocks rc); assumption|].
    intros out1 [[d' pcs']|e] [Hout1 Hnone]; cbn beta iota.
    + apply emits_ret. cbn [fst snd]. rewrite app_nil_r.
      exact (Hprint out1 (Some d') pcs' Hout1 Hnone).
    + cbn [app]. split; [exact Hout1|]. rewrite Hnone. apply sublist_nil_l.
Qed.

Lemma describe_all_blocks vrf rc intfs : forall pcs,
  emits (describe_all vrf rc intfs pcs) (fun out _ => blocks_of rc intfs out).
Proof.
  induction intfs as [|intf intfs IH]; intros pcs; cbn [describe_all].
  - apply emits_ret. split; [constructor | apply sublist_nil_l].
  - apply emits_bind. eapply emits_weaken; [apply describe_blocks|].
    intros out1 r [Hout1 Hsub1].
    assert (Hfirst : Forall (fun b => exists i, In i (intf :: intfs) /\ block_of rc i b) out1).
    { eapply Forall_impl; [exact Hout1|]. intros b Hb. exists intf. split; [now left | exact Hb]. }
    destruct r as [pcs'|e].
    + eapply emits_weaken; [apply (IH pcs')|].
      intros out2 _ [Hout2 Hsub2]. split.
      * apply Forall_app. split; [exact Hfirst|].
        eapply Forall_impl; [exact Hout2|].
        intros b (i & Hi & Hb). exists i. split; [now right | exact Hb].
      * rewrite interface_blocks_app, List.map_app.
        change (List.map name (intf :: intfs)) with ([name intf] ++ List.map name intfs)%list.
        now apply sublist_app.
    + split; [exact Hfirst|].
      change (List.map name (intf :: intfs)) with ([name intf] ++ List.map name intfs)%list.
      rewrite <- (app_nil_r (List.map interface (interface_blocks out1))).
      apply sublist_app; [exact Hsub1 | apply sublist_nil_l].
Qed.

Lemma auto_description_blocks interfaces rc :
  emits (auto_description interfaces rc)
    (fun out _ => blocks_of rc (sorted_by_name (Dict.values interfaces)) out).
Proof.
  unfold auto_description.
  apply emits_bind_quiet;
    [apply quiet_lift
    | intros; split; [constructor | apply sublist_nil_l] | intros vrf].
  apply emits_bind. eapply emits_weaken; [apply describe_all_blocks|].
  intros out1 [pcs|e] Hout; [|exact Hout].
  apply emits_ret. now rewrite app_nil_r.
Qed.

Lemma sublist_forall {A : Type} (P : A -> Prop) (l1 l2 : list A) :
  sublist l1 l2 -> Forall P l2 -> Forall P l1.
Proof.
  induction 1 as [|x l1 l2 _ IH|x l1 l2 _ IH]; intros Hl2.
  - constructor.
  - inversion Hl2; subst. constructor; auto.
  - inversion Hl2; subst. auto.
Qed.

Lemma sublist_sorted {A : Type} (R : A -> A -> Prop) (l1 l2 : list A) :
  sublist l1 l2 -> StronglySorted R l2 -> StronglySorted R l1.
Proof.
  induction 1 as [|x l1 l2 Hsub IH|x l1 l2 _ IH]; intros Hl2.
  - constructor.
  - inversion Hl2; subst. constructor; [auto|]. now apply (sublist_forall _ _ l2).
  - inversion Hl2; subst. auto.
Qed.

Lemma sorted_by_name_perm l : Permutation l (sorted_by_name l).
Proof.
  unfold sorted_by_name. induction l as [|x l IH]; cbn [foldr]; [constructor|].
  rewrite <- insert_by_name_perm. now apply perm_skip.
Qed.

Lemma sorted_names l :
  StronglySorted (fun a b => String.leb a b = true) (List.map name (sorted_by_name l)).
Proof.
  assert (H : StronglySorted name_le (sorted_by_name l)).
  { unfold sorted_by_name. induction l as [|x l IH]; cbn [foldr]; [constructor|].
    now apply insert_by_name_sorted. }
  induction H as [|x s _ IH Hx]; cbn; constructor; [exact IH|].
  apply Forall_forall. intros n Hn. apply list_elem_of_In, in_map_iff in Hn.
  destruct Hn as (y & <- & Hy). rewrite Forall_forall in Hx.
  apply Hx. now apply list_elem_of_In.
Qed.

(** X7: in every run of [auto_description] the blocks of the interfaces
    come out in ascending order of interface name: their names are a
    subsequence of the sorted names of the dictionary, so an interface
    gets at most one block of its own and none is printed out of order. *)
Theorem blocks_in_order_X7 (interfaces : Dict.t interface_t)
    (running_config : Dict.t section) (w : world) :
  exists out,
    stdout (snd (auto_description interfaces running_config w)) = (stdout w ++ out)%list
    /\ sublist (List.map interface (interface_blocks out))
         (List.map name (sorted_by_name (Dict.values interfaces)))
    /\ StronglySorted (fun a b => String.leb a b = true)
         (List.map interface (interface_blocks out)).
Proof.
  destruct (auto_description_blocks interfaces running_config w) as (out & Hout & _ & Hsub).
  exists out. split; [exact Hout|]. split; [exact Hsub|].
  apply (sublist_sorted _ _ _ Hsub), sorted_names.
Qed.

(** X8: every block [auto_description] prints for an interface itself
    names an interface of the dictionary whose name starts with Ethernet
    or Management and whose running configuration does not carry the
    comment [no auto-description], and its description is not empty: an
    interface with the comment, or of another kind, never gets one. *)
Theorem interface_blocks_X8 (interfaces : Dict.t interface_t)
    (running_config : Dict.t section) (w : world) :
  exists out,
    stdout (snd (auto_description interfaces running_config w)) = (stdout w ++ out)%list
    /\ forall b, In b out -> printed_at b = InterfaceSite ->
         eligible (interface b) = true
         /\ marked running_config (interface b) = false
         /\ Py.truthy (description b) = true
         /\ exists intf, In intf (Dict.values interfaces) /\ name intf = interface b.
Proof.
  destruct (auto_description_blocks interfaces running_config w) as (out & Hout & Hall & _).
  exists out. split; [exact Hout|]. intros b Hb Hsite.
  rewrite Forall_forall in Hall. apply list_elem_of_In in Hb.
  destruct (Hall b Hb) as (intf & Hintf & He & Hm & Hblock).
  rewrite Hsite in Hblock. destruct Hblock as [-> Hd].
  repeat split; try assumption. exists intf. split; [|reflexivity].
  now apply (Permutation_in _ (Permutation_sym (sorted_by_name_perm _))).
Qed.

Lemma interface_blocks_X8_witness :
  eligible "Ethernet1" = true
  /\ marked two_members_config "Ethernet1" = false
  /\ Py.truthy "host1, Ethernet3" = true.
Proof.
  destruct (interface_blocks_X8 two_members two_members_config
              (world_with 1700000000000000 None ∅)) as (out & Hout & Hall).
  vm_compute in Hout.
  destruct (Hall (mkBlock InterfaceSite "Ethernet1" "host1, Ethernet3"))
    as (He & Hm & Hd & _); [rewrite <- Hout; cbn; auto | reflexivity |].
  now repeat split.
Defined.

(** X9: every block [auto_description] prints for a port-channel is
    named by the third word of the [interfaceMembership] of an interface of
    the dictionary that is itself described (Ethernet or Management,
    without the comment), and its description, the host name cut at the
    first dot, holds no dot. *)
Theorem port_channel_blocks_X9 (interfaces : Dict.t interface_t)
    (running_config : Dict.t section) (w : world) :
  exists out,
    stdout (snd (auto_description interfaces running_config w)) = (stdout w ++ out)%list
    /\ forall b, In b out -> printed_at b = PortChannelSite ->
         ~ In "."%char (Py.chars (description b))
         /\ exists intf membership,
             In intf (Dict.values interfaces)
             /\ eligible (name intf) = true
             /\ marked running_config (name intf) = false
             /\ interfaceMembership intf = Some membership
             /\ third_token membership = Some (interface b).
Proof.
  destruct (auto_description_blocks interfaces running_config w) as (out & Hout & Hall & _).
  exists out. split; [exact Hout|]. intros b Hb Hsite.
  rewrite Forall_forall in Hall. apply list_elem_of_In in Hb.
  destruct (Hall b Hb) as (intf & Hintf & He & Hm & Hblock).
  rewrite Hsite in Hblock. destruct Hblock as [(membership & Hmem & Hpc) Hdot].
  split; [exact Hdot|]. exists intf, membership.
  repeat split; try assumption.
  now apply (Permutation_in _ (Permutation_sym (sorted_by_name_perm _))).
Qed.

Lemma port_channel_blocks_X9_witness :
  ~ In "."%char (Py.chars "host1")
  /\ exists intf,
      In intf (Dict.values two_members)
      /\ interfaceMembership intf = Some "Member of Port-Channel1".
Proof.
  destruct (port_channel_blocks_X9 two_members two_members_config
              (world_with 1700000000000000 None ∅)) as (out & Hout & Hall).
  vm_compute in Hout.
  destruct (Hall (mkBlock PortChannelSite "Port-Channel1" "host1"))
    as (Hdot & intf & membership & Hin & _ & _ & Hmem & Hpc);
    [rewrite <- Hout; cbn; auto | reflexivity |].
  split; [exact Hdot|]. exists intf. split; [exact Hin|].
  destruct Hin as [<-|[<-|[]]]; exact eq_refl.
Defined.

(** ** One turn of the loop, case by case *)

Lemma truthy_append_r a b : Py.truthy b = true -> Py.truthy (a +:+ b) = true.
Proof. destruct a; [trivial | reflexivity]. Qed.

Lemma describe_eligible vrf rc intf pcs w :
  describable rc (name intf) ->
  describe vrf rc intf pcs w
  = (let! described :=
       match lldp_neighbors intf with
       | Some [n] =>
           let! description :=
             match systemName n with
             | Some host => ret host
             | None => item (chassisId n)
             end in
           let! mac := lift (is_mac description) in
           if mac : bool then
             let! description := DUT.org_from_mac description vrf in
             ret (Some description, pcs)
           else
             let! named := describe_host intf n description pcs in
             ret (Some (fst named), snd named)
       | _ =>
           match mac_address_table intf with
           | Some [entry] =>
               let! mac_address := item (macAddress entry) in
               let! description := DUT.org_from_mac mac_address vrf in
               ret (Some description, pcs)
           | _ => ret (None, pcs)
           end
       end in
     let! _ :=
       match fst described with
       | Some description =>
           if Py.truthy description
           then print (mkBlock InterfaceSite (name intf) description)
           else ret tt
       | None => ret tt
       end in
     ret (snd described)) w.
Proof.
  intros (He & config & notes & Hconfig & Hnotes & Hmark). unfold describe.
  assert (Hname : negb (Py.startswith (name intf) "Ethernet")
                  && negb (Py.startswith (name intf) "Management") = false).
  { unfold eligible in He. destruct (Py.startswith (name intf) "Ethernet");
      [reflexivity|]. cbn in *. now rewrite He. }
  rewrite Hname, Hconfig. unfold bind at 1. cbn [item ret].
  rewrite Hnotes. unfold bind at 1. cbn [item ret]. now rewrite Hmark.
Qed.

(** X10: the turn of the loop for a describable interface whose single
    LLDP neighbour has a system name that is not a MAC address prints the
    name cut at its first dot, a comma and the neighbour's interface; when
    the interface is a member of a port-channel not described before, the
    port-channel gets the cut name first.  Neither the device nor the
    store is asked anything: apart from the blocks the world is as
    before. *)
Theorem host_description_X10 (vrf : string) (running_config : Dict.t section)
    (intf : interface_t) (port_channels : gset string) (w : world)
    (n : neighbor) (host port : string) (info : neighbor_interface_info) :
  describable running_config (name intf) ->
  lldp_neighbors intf = Some [n] ->
  systemName n = Some host ->
  is_mac host = Ok false ->
  neighborInterfaceInfo n = Some info ->
  neighbor_port info = Some port ->
  let described :=
    mkBlock InterfaceSite (name intf) (short_name host +:+ ", " +:+ port) in
  (interfaceMembership intf = None ->
   describe vrf running_config intf port_channels w
   = (Ok port_channels, printing described w))
  /\ (forall membership port_channel,
        interfaceMembership intf = Some membership ->
        third_token membership = Some port_channel ->
        describe vrf running_config intf port_channels w
        = (Ok ({[port_channel]} ∪ port_channels),
           if decide (port_channel ∈ port_channels)
           then printing described w
           else printing described
                  (printing (mkBlock PortChannelSite port_channel (short_name host)) w))).
Proof.
  intros Hok Hl Hhost Hmac Hinfo Hport described.
  assert (Htruthy : Py.truthy (short_name host +:+ ", " +:+ port) = true).
  { apply truthy_append_r. reflexivity. }
  unfold neighbor_port in Hport.
  destruct (interfaceIdType info) as [id_type|] eqn:Hid; [|discriminate].
  split.
  - intros Hmem. rewrite (describe_eligible _ _ _ _ _ Hok), Hl.
    unfold bind at 1 2 3. rewrite Hhost. cbn [ret]. unfold lift. rewrite Hmac.
    unfold bind at 1. unfold describe_host, bind at 1. rewrite Hinfo. cbn [item ret].
    unfold bind at 1. rewrite Hid. cbn [item ret].
    unfold bind at 1.
    destruct (String.eqb id_type "interfaceName"); rewrite Hport; cbn [item ret];
      rewrite Hmem; unfold bind, ret; cbn [fst snd]; fold (short_name host);
      rewrite Htruthy; reflexivity.
  - intros membership pc Hmem Hpc. rewrite (describe_eligible _ _ _ _ _ Hok), Hl.
    unfold third_token in Hpc.
    destruct (Py.split " " membership) as [|t1 [|t2 [|pc' rest]]] eqn:Hsplit;
      try discriminate. injection Hpc as ->.
    unfold bind at 1 2 3. rewrite Hhost. cbn [ret]. unfold lift. rewrite Hmac.
    unfold bind at 1. unfold describe_host, bind at 1. rewrite Hinfo. cbn [item ret].
    unfold bind at 1. rewrite Hid. cbn [item ret].
    unfold bind at 1.
    destruct (String.eqb id_type "interfaceName"); rewrite Hport; cbn [item ret];
      rewrite Hmem, Hsplit; destruct (decide (pc ∈ port_channels));
      unfold bind, ret, print; cbn [fst snd]; fold (short_name host);
      rewrite Htruthy; reflexivity.
Qed.

Lemma host_description_X10_witness :
  describe VRF_DEFAULT two_members_config
    (mkInterface "Ethernet1" (Some "Member of Port-Channel1")
       (Some [host1 "Ethernet3"]) None)
    ∅ (world_with 1700000000000000 None ∅)
  = (Ok ({["Port-Channel1"]} ∪ ∅),
     printing (mkBlock InterfaceSite "Ethernet1" "host1, Ethernet3")
       (printing (mkBlock PortChannelSite "Port-Channel1" "host1")
          (world_with 1700000000000000 None ∅))).
Proof.
  assert (Hok : describable two_members_config "Ethernet1").
  { split; [reflexivity|].
    exists (mkSection (Some []) (Some [])), []. repeat split. }
  destruct (host_description_X10 VRF_DEFAULT two_members_config
              (mkInterface "Ethernet1" (Some "Member of Port-Channel1")
                 (Some [host1 "Ethernet3"]) None)
              ∅ (world_with 1700000000000000 None ∅)
              (host1 "Ethernet3") "host1.example.com" "Ethernet3"
              (mkInfo (Some "interfaceName") (Some "Ethernet3") None)
              Hok eq_refl eq_refl eq_refl eq_refl eq_refl)
    as [_ Hmember].
  exact (Hmember "Member of Port-Channel1" "Port-Channel1" eq_refl eq_refl).
Defined.

Lemma org_from_mac_truthy s vrf w d w1 :
  DUT.org_from_mac s vrf w = (Ok d, w1) -> Py.truthy d = true.
Proof.
  unfold DUT.org_from_mac, DUT.org_from_mac_with, EXTERNAL_OUI_LOOKUP, bind, lift, ret.
  destruct (Netaddr.EUI_of_str s) as [mac|]; [|discriminate].
  destruct (DUT.oui_list vrf w) as [[db|] w2]; [|discriminate].
  destruct (DUT.mask_loop db mac _ _) as [org|]; [|discriminate].
  destruct (Netaddr.str_bare mac) as [b|]; [|discriminate].
  intros [= <- _]. apply truthy_append_r. reflexivity.
Qed.

Lemma describe_host_truthy intf n d pcs w named w1 :
  describe_host intf n d pcs w = (Ok named, w1) -> Py.truthy (fst named) = true.
Proof.
  unfold describe_host.
  unfold bind at 1. destruct (item (neighborInterfaceInfo n) w) as [[info|] w2]; [|discriminate].
  unfold bind at 1. destruct (item (interfaceIdType info) w2) as [[id_type|] w3]; [|discriminate].
  unfold bind at 1.
  destruct ((if String.eqb id_type "interfaceName" then item (interfaceId_v2 info)
             else item (interfaceDescription info)) w3) as [[port|] w4]; [|discriminate].
  unfold bind at 1.
  match goal with |- (match ?m w4 with _ => _ end) = _ -> _ =>
    destruct (m w4) as [[pcs'|] w5]; [|discriminate] end.
  unfold ret. intros [= <- _]. cbn [fst]. apply truthy_append_r. reflexivity.
Qed.

Lemma is_mac_total s : is_mac s = Ok true \/ is_mac s = Ok false.
Proof.
  unfold is_mac. destruct (Netaddr.EUI_of_str s) as [e|e] eqn:He; [now left|].
  apply EUI_of_str_raises in He. subst e. now right.
Qed.

(** X11: for a describable interface the resolver is asked in exactly
    two situations, and its answer is printed as the description of the
    interface, or its exception ends the turn before anything is printed:
    when the single LLDP neighbour is identified by a MAC address (its
    system name, or without one its chassis identifier), and when there is
    not exactly one LLDP neighbour but exactly one learnt address that has
    a [macAddress].  In every other situation the turn is decided without
    the resolver: a single neighbour without name and chassis identifier
    raises [KeyError]; one identified by a text that is not a MAC address is
    described by [describe_host]; without a single neighbour and without a
    single learnt address nothing is printed and nothing asked; a single
    learnt entry without [macAddress] raises [KeyError].  [is_mac] always
    answers, so the six situations leave nothing out. *)
Theorem resolved_description_X11 (vrf : string) (running_config : Dict.t section)
    (intf : interface_t) (port_channels : gset string) (w : world) :
  describable running_config (name intf) ->
  (forall n mac,
      lldp_neighbors intf = Some [n] ->
      identified n = Some mac ->
      is_mac mac = Ok true ->
      describe vrf running_config intf port_channels w
      = resolved intf port_channels (DUT.org_from_mac mac vrf w))
  /\ (forall entry mac,
      (forall n, lldp_neighbors intf <> Some [n]) ->
      mac_address_table intf = Some [entry] ->
      macAddress entry = Some mac ->
      describe vrf running_config intf port_channels w
      = resolved intf port_channels (DUT.org_from_mac mac vrf w))
  /\ (forall n,
      lldp_neighbors intf = Some [n] ->
      identified n = None ->
      describe vrf running_config intf port_channels w = (Raise KeyError, w))
  /\ (forall n host,
      lldp_neighbors intf = Some [n] ->
      identified n = Some host ->
      is_mac host = Ok false ->
      describe vrf running_config intf port_channels w
      = hosted intf (describe_host intf n host port_channels w))
  /\ ((forall n, lldp_neighbors intf <> Some [n]) ->
      (forall entry, mac_address_table intf <> Some [entry]) ->
      describe vrf running_config intf port_channels w = (Ok port_channels, w))
  /\ (forall entry,
      (forall n, lldp_neighbors intf <> Some [n]) ->
      mac_address_table intf = Some [entry] ->
      macAddress entry = None ->
      describe vrf running_config intf port_channels w = (Raise KeyError, w))
  /\ (forall s, is_mac s = Ok true \/ is_mac s = Ok false).
Proof.
  intros Hok.
  assert (Hprint : forall mac,
             (let! described :=
                (let! description := DUT.org_from_mac mac vrf in
                 ret (Some description, port_channels)) in
              let! _ :=
                match fst described with
                | Some description =>
                    if Py.truthy description
                    then print (mkBlock InterfaceSite (name intf) description)
                    else ret tt
                | None => ret tt
                end in
              ret (snd described)) w
             = resolved intf port_channels (DUT.org_from_mac mac vrf w)).
  { intros mac. unfold bind at 1 2.
    destruct (DUT.org_from_mac mac vrf w) as [[d|e] w1] eqn:Hrun; [|reflexivity].
    cbn [ret fst snd resolved]. unfold bind.
    now rewrite (org_from_mac_truthy _ _ _ _ _ Hrun). }
  split; [|split; [|split; [|split; [|split; [|split]]]]].
  - intros n mac Hl Hname Hmac. rewrite (describe_eligible _ _ _ _ _ Hok), Hl.
    unfold identified in Hname. rewrite <- Hprint. unfold bind at 1 2 3.
    destruct (systemName n) as [host|].
    + injection Hname as ->. cbn [ret]. unfold lift. now rewrite Hmac.
    + rewrite Hname. cbn [item ret]. unfold lift. now rewrite Hmac.
  - intros entry mac Hl Hm Hmacaddr. rewrite (describe_eligible _ _ _ _ _ Hok).
    rewrite <- Hprint, Hm.
    destruct (lldp_neighbors intf) as [[|n [|]]|]; try now rewrite Hmacaddr.
    now destruct (Hl n).
  - intros n Hl Hid. rewrite (describe_eligible _ _ _ _ _ Hok), Hl.
    unfold identified in Hid. unfold bind at 1 2 3.
    destruct (systemName n); [discriminate|]. now rewrite Hid.
  - intros n host Hl Hid Hmac. rewrite (describe_eligible _ _ _ _ _ Hok), Hl.
    unfold identified in Hid. unfold bind at 1 2 3.
    assert (Hname : (match systemName n with
                     | Some host => ret host
                     | None => item (chassisId n)
                     end) w = (Ok host, w)).
    { destruct (systemName n); [now injection Hid as -> | now rewrite Hid]. }
    rewrite Hname. unfold lift. rewrite Hmac. unfold bind at 1.
    destruct (describe_host intf n host port_channels w) as [[named|e] w1] eqn:Hrun;
      [|reflexivity].
    cbn [ret fst snd hosted]. unfold bind.
    now rewrite (describe_host_truthy _ _ _ _ _ _ _ Hrun).
  - intros Hl Hm. rewrite (describe_eligible _ _ _ _ _ Hok).
    destruct (lldp_neighbors intf) as [[|n [|]]|]; try (now destruct (Hl n));
      destruct (mac_address_table intf) as [[|entry [|]]|];
      try (now destruct (Hm entry)); reflexivity.
  - intros entry Hl Hm Hnone. rewrite (describe_eligible _ _ _ _ _ Hok), Hm.
    destruct (lldp_neighbors intf) as [[|n [|]]|]; try (now destruct (Hl n));
      now rewrite Hnone.
  - exact is_mac_total.
Qed.

Lemma resolved_description_X11_witness :
  let learnt := mkInterface "Ethernet1" None None
                  (Some [mkEntry (Some "aa:bb:cc:dd:ee:ff") (Some "Ethernet1")]) in
  let seen := mkInterface "Ethernet1" None
                (Some [mkNeighbor None (Some "aa:bb:cc:dd:ee:ff") None]) None in
  let nameless := mkInterface "Ethernet1" None (Some [mkNeighbor None None None]) None in
  let crowded := mkInterface "Ethernet1" None None
                   (Some [mkEntry (Some "aa:bb:cc:dd:ee:ff") (Some "Ethernet1");
                          mkEntry (Some "aa:bb:cc:dd:ee:00") (Some "Ethernet1")]) in
  let w := world_with 1700000000000000 None (cached 1700000000000 three_prefixes) in
  describe VRF_DEFAULT two_members_config learnt ∅ w
  = (Ok ∅, printing (mkBlock InterfaceSite "Ethernet1" "Narrow, DD:EE:FF") w)
  /\ describe VRF_DEFAULT two_members_config seen ∅ w
     = (Ok ∅, printing (mkBlock InterfaceSite "Ethernet1" "Narrow, DD:EE:FF") w)
  /\ describe VRF_DEFAULT two_members_config nameless ∅ w = (Raise KeyError, w)
  /\ describe VRF_DEFAULT two_members_config crowded ∅ w = (Ok ∅, w).
Proof.
  intros learnt seen nameless crowded w.
  assert (Hok : describable two_members_config "Ethernet1").
  { split; [reflexivity|].
    exists (mkSection (Some []) (Some [])), []. repeat split. }
  destruct (resolved_description_X11 VRF_DEFAULT two_members_config learnt ∅ w Hok)
    as (_ & Hlearnt & _).
  destruct (resolved_description_X11 VRF_DEFAULT two_members_config seen ∅ w Hok)
    as (Hseen & _).
  destruct (resolved_description_X11 VRF_DEFAULT two_members_config nameless ∅ w Hok)
    as (_ & _ & Hnameless & _).
  destruct (resolved_description_X11 VRF_DEFAULT two_members_config crowded ∅ w Hok)
    as (_ & _ & _ & _ & Hcrowded & _).
  split; [|split; [|split]].
  - rewrite (Hlearnt (mkEntry (Some "aa:bb:cc:dd:ee:ff") (Some "Ethernet1"))
               "aa:bb:cc:dd:ee:ff"); [reflexivity | discriminate | reflexivity
                                      | reflexivity].
  - rewrite (Hseen (mkNeighbor None (Some "aa:bb:cc:dd:ee:ff") None) "aa:bb:cc:dd:ee:ff");
      reflexivity.
  - apply (Hnameless (mkNeighbor None None None)); reflexivity.
  - apply Hcrowded; discriminate.
Defined.

(** ** What a refresh leaves in the store *)

Lemma download_result vrf w :
  DUT._download vrf w
  = (fst (DUT._download vrf w),
     with_history (history w ++ [RunCmds (fetch_command vrf)]) w).
Proof. rewrite <- download_world. now destruct (DUT._download vrf w). Qed.

(** X12: when [oui_list] refreshes the cache and the download succeeds,
    the store ends with exactly the downloaded mapping, serialised, under
    the key of the cache object and stamped with the current time, and that
    mapping is returned: nothing of what was stored before is merged into
    it.  The device was asked once, the store once. *)
Theorem refresh_replaces_X12 (vrf : string) (w : world) (db : Dict.t string) :
  refreshing w ->
  fst (DUT._download vrf w) = Ok db ->
  exists w1,
    DUT.oui_list vrf w = (Ok db, w1)
    /\ configlets w1
       = <[OUI_CONFIGLET := mkConfiglet (cache_key w) (now_ms w) (Json.dumps db)]>
           (configlets w)
    /\ history w1
       = (history w ++ [RunCmds (fetch_command vrf);
                        cache_request w (Json.dumps db)])%list.
Proof.
  intros [Hup Hcase] Hdb.
  destruct (download_keys _ _ _ Hdb) as [Hnd _].
  pose proof (download_result vrf w) as Hrun. rewrite Hdb in Hrun.
  unfold DUT.oui_list. unfold bind at 1 2. unfold configlet_exists. rewrite Hup.
  unfold cache_key, cache_request.
  destruct Hcase as [Hc | (c & Hc & Hk & Hts & Hs)]; rewrite Hc.
  - cbn [DUT.update_needed key_truthy negb ret]. unfold bind at 1.
    unfold DUT.refresh, bind at 1. rewrite Hrun.
    rewrite dumps_truthy. cbn [key_truthy negb andb].
    pose proof (loads_dumps _ Hnd) as Hl. revert Hl.
    generalize (Json.dumps db). intros text Hl.
    unfold configlet_add, bind, log, configlet_get, lift. cbn.
    rewrite Hup, Hc. cbn. rewrite Hup, lookup_insert_eq. cbn.
    rewrite Hl. eexists. split; [reflexivity|].
    split; [reflexivity|]. cbn. now rewrite <- app_assoc.
  - unfold DUT.update_needed. cbn [key_truthy]. rewrite Hk. cbn [negb].
    destruct (Z.eqb_spec (dateTimeInLongFormat c) 0) as [|_]; [contradiction|].
    unfold is_24h_old. fold (stale w c). rewrite Hs.
    unfold bind at 1. unfold DUT.refresh, bind at 1. rewrite Hrun.
    rewrite dumps_truthy. cbn [key_truthy key_text negb andb]. rewrite Hk. cbn [negb andb].
    pose proof (loads_dumps _ Hnd) as Hl. revert Hl.
    generalize (Json.dumps db). intros text Hl.
    unfold configlet_update, bind, log, configlet_get, lift. cbn.
    rewrite Hup, Hc, String.eqb_refl. cbn. rewrite Hup, lookup_insert_eq. cbn.
    rewrite Hl. eexists. split; [reflexivity|].
    split; [reflexivity|]. cbn. now rewrite <- app_assoc.
Qed.

(** A stale cache of three bindings is replaced by the one binding the
    registry now has. *)
Lemma refresh_replaces_X12_witness :
  exists w1,
    DUT.oui_list VRF_DEFAULT
      (world_with (1700000000000000 + day + 1) (Some (line "00:00:0C" "Cisco"))
         (cached 1700000000000 three_prefixes))
    = (Ok cisco, w1)
    /\ (config <$> configlets w1 !! OUI_CONFIGLET) = Some (Json.dumps cisco).
Proof.
  destruct (refresh_replaces_X12 VRF_DEFAULT
              (world_with (1700000000000000 + day + 1) (Some (line "00:00:0C" "Cisco"))
                 (cached 1700000000000 three_prefixes)) cisco)
    as (w1 & Hrun & Hstore & _).
  - split; [reflexivity|]. right.
    exists (mkConfiglet (issued_key OUI_CONFIGLET) 1700000000000 (Json.dumps three_prefixes)).
    repeat split. discriminate.
  - reflexivity.
  - exists w1. split; [exact Hrun|]. rewrite Hstore. reflexivity.
Defined.

(** X13: when the refresh is due and the download raises, [oui_list]
    raises the same exception and the store is left as it was: no request
    is sent to it. *)
Theorem failed_download_X13 (vrf : string) (w : world) (e : exn) :
  refreshing w ->
  fst (DUT._download vrf w) = Raise e ->
  DUT.oui_list vrf w
  = (Raise e, with_history (history w ++ [RunCmds (fetch_command vrf)]) w).
Proof.
  intros [Hup Hcase] Hdb.
  pose proof (download_result vrf w) as Hrun. rewrite Hdb in Hrun.
  unfold DUT.oui_list. unfold bind at 1 2. unfold configlet_exists. rewrite Hup.
  destruct Hcase as [Hc | (c & Hc & Hk & Hts & Hs)]; rewrite Hc.
  - cbn [DUT.update_needed key_truthy negb ret]. unfold bind at 1.
    unfold DUT.refresh, bind at 1. now rewrite Hrun.
  - unfold DUT.update_needed. cbn [key_truthy]. rewrite Hk. cbn [negb].
    destruct (Z.eqb_spec (dateTimeInLongFormat c) 0) as [|_]; [contradiction|].
    unfold is_24h_old. fold (stale w c). rewrite Hs.
    unfold bind at 1. unfold DUT.refresh, bind at 1. now rewrite Hrun.
Qed.

Lemma failed_download_X13_witness :
  configlets (snd (DUT.oui_list VRF_DEFAULT
                     (world_with (1700000000000000 + day + 1) (Some five_octet_document)
                        (cached 1700000000000 three_prefixes))))
  = cached 1700000000000 three_prefixes.
Proof.
  rewrite (failed_download_X13 VRF_DEFAULT _ AddrFormatError); [reflexivity | | reflexivity].
  split; [reflexivity|]. right.
  exists (mkConfiglet (issued_key OUI_CONFIGLET) 1700000000000 (Json.dumps three_prefixes)).
  repeat split. discriminate.
Defined.

(** ** Texts that are no JSON *)







(** X15: while the store cannot be reached, every call of [oui_list]
    fetches the registry again, sends the result to the store in vain, and
    returns the empty mapping, whatever was downloaded and whatever the
    store holds. *)
Theorem unreachable_store_X15 (vrf : string) (w : world) (db : Dict.t string) :
  cvp_up w = false ->
  fst (DUT._download vrf w) = Ok db ->
  DUT.oui_list vrf w
  = (Ok [],
     with_history
       (history w ++ [RunCmds (fetch_command vrf);
                      AddConfiglet OUI_CONFIGLET (Json.dumps db)])
       w).
Proof.
  intros Hup Hdb.
  pose proof (download_result vrf w) as Hrun. rewrite Hdb in Hrun.
  unfold DUT.oui_list. unfold bind at 1 2. unfold configlet_exists. rewrite Hup.
  cbn [DUT.update_needed key_truthy negb ret]. unfold bind at 1.
  unfold DUT.refresh, bind at 1. rewrite Hrun.
  rewrite dumps_truthy. cbn [key_truthy negb andb].
  generalize (Json.dumps db). intros text.
  unfold configlet_add, bind, log, configlet_get, lift. cbn.
  rewrite Hup. cbn. rewrite Hup. cbn. now rewrite <- app_assoc.
Qed.

Lemma unreachable_store_X15_witness :
  fst (DUT.oui_list VRF_DEFAULT unreachable_world) = Ok []
  /\ fst (DUT.org_from_mac "00:00:0c:12:34:56" VRF_DEFAULT unreachable_world)
     = Ok "Unknown, 12:34:56".
Proof.
  split; [|reflexivity].
  rewrite (unreachable_store_X15 VRF_DEFAULT unreachable_world cisco); reflexivity.
Defined.

(** ** The keys of the resolver, digit by digit *)

Lemma nibble_land v m k :
  0 <= k ->
  Z.land (Z.shiftr (Z.land v m) k) 15
  = Z.land (Z.land (Z.shiftr v k) 15) (Z.land (Z.shiftr m k) 15).
Proof.
  intros Hk. rewrite Z.shiftr_land. apply Z.bits_inj'. intros i Hi.
  rewrite !Z.land_spec.
  destruct (Z.testbit (Z.shiftr v k) i), (Z.testbit (Z.shiftr m k) i),
    (Z.testbit 15 i); reflexivity.
Qed.

Lemma nibble_kept x : Z.land (Z.land x 15) 15 = Z.land x 15.
Proof. rewrite <- Z.land_assoc. reflexivity. Qed.

Lemma nibble_cleared x : Netaddr.hex_char (Z.land (Z.land x 15) 0) = zero.
Proof. rewrite Z.land_0_r. reflexivity. Qed.

Ltac mask_digits mask :=
  unfold prefix_key, bare; cbn [Netaddr.hex_upper];
  rewrite !nibble_land by lia;
  repeat match goal with
         | |- context [Z.land (Z.shiftr mask ?k) 15] =>
             let r := eval vm_compute in (Z.land (Z.shiftr mask k) 15) in
             change (Z.land (Z.shiftr mask k) 15) with r
         end;
  rewrite ?nibble_kept, ?nibble_cleared.

Lemma masked_keys v a b c d e f g h i j k l :
  Netaddr.hex_upper 12 v = [a; b; c; d; e; f; g; h; i; j; k; l] ->
  prefix_key v OUI36_MASK = key36 a b c d e f g h i
  /\ prefix_key v OUI28_MASK = key28 a b c d e f g
  /\ prefix_key v OUI24_MASK = key24 a b c d e f.
Proof.
  cbn [Netaddr.hex_upper]. intros Hv.
  injection Hv as Ha Hb Hc Hd He Hf Hg Hh Hi Hj Hk Hl.
  split; [|split].
  - mask_digits OUI36_MASK. now rewrite Ha, Hb, Hc, Hd, He, Hf, Hg, Hh, Hi.
  - mask_digits OUI28_MASK. now rewrite Ha, Hb, Hc, Hd, He, Hf, Hg.
  - mask_digits OUI24_MASK. now rewrite Ha, Hb, Hc, Hd, He, Hf.
Qed.

Lemma last_six_digits v a b c d e f g h i j k l :
  Netaddr.hex_upper 12 v = [a; b; c; d; e; f; g; h; i; j; k; l] ->
  DUT.last_six (bare v) = three_octets g h i j k l.
Proof. intros Hv. unfold bare. rewrite Hv. reflexivity. Qed.

Lemma mask_loop_keys db v a b c d e f g h i j k l :
  Netaddr.hex_upper 12 v = [a; b; c; d; e; f; g; h; i; j; k; l] ->
  DUT.mask_loop db (Netaddr.mkEUI v Netaddr.EUI48)
    [OUI36_MASK; OUI28_MASK; OUI24_MASK] "Unknown"
  = Ok (first_bound db [key36 a b c d e f g h i; key28 a b c d e f g;
                        key24 a b c d e f]).
Proof.
  intros Hv. destruct (masked_keys _ _ _ _ _ _ _ _ _ _ _ _ _ Hv) as (H36 & H28 & H24).
  cbn [first_bound].
  destruct (Dict.get (key36 a b c d e f g h i) db) as [o|] eqn:E36.
  { apply mask_loop_hit; [apply mask36_range | now rewrite H36]. }
  rewrite mask_loop_miss by (try apply mask36_range; now rewrite H36).
  destruct (Dict.get (key28 a b c d e f g) db) as [o|] eqn:E28.
  { apply mask_loop_hit; [apply mask28_range | now rewrite H28]. }
  rewrite mask_loop_miss by (try apply mask28_range; now rewrite H28).
  destruct (Dict.get (key24 a b c d e f) db) as [o|] eqn:E24.
  { apply mask_loop_hit; [apply mask24_range | now rewrite H24]. }
  rewrite mask_loop_miss by (try apply mask24_range; now rewrite H24).
  reflexivity.
Qed.

(** X16: for a 48-bit address whose value prints as the twelve digits
    a..l, [org_from_mac] looks up, in this order, the first nine digits
    followed by three zeros, the first seven followed by five zeros and the
    first six followed by six zeros; it answers the organisation of the
    first of them that is bound, or Unknown, then a comma and the last six
    digits in pairs joined by colons. *)
Theorem resolver_keys_X16 (s vrf : string) (w w' : world) (db : Dict.t string)
    (v : Z) (a b c d e f g h i j k l : ascii) :
  Netaddr.EUI_of_str s = Ok (Netaddr.mkEUI v Netaddr.EUI48) ->
  DUT.oui_list vrf w = (Ok db, w') ->
  Netaddr.hex_upper 12 v = [a; b; c; d; e; f; g; h; i; j; k; l] ->
  DUT.org_from_mac s vrf w
  = (Ok (first_bound db [key36 a b c d e f g h i; key28 a b c d e f g;
                         key24 a b c d e f]
         +:+ ", " +:+ three_octets g h i j k l),
     w').
Proof.
  intros Hs Hdb Hv.
  rewrite (org_from_mac_external _ _ _ _ _ _ Hs Hdb _ (mask_loop_keys db _ _ _ _ _ _ _ _ _ _ _ _ _ Hv)).
  unfold answer. now rewrite (last_six_digits _ _ _ _ _ _ _ _ _ _ _ _ _ Hv).
Qed.

Lemma resolver_keys_X16_witness :
  let w := world_with 1700000000000000 None (cached 1700000000000 three_prefixes) in
  DUT.org_from_mac "aa-bb-cc-dd-ee-ff" VRF_DEFAULT w = (Ok "Narrow, DD:EE:FF", w).
Proof.
  intros w.
  apply (resolver_keys_X16 "aa-bb-cc-dd-ee-ff" VRF_DEFAULT w w three_prefixes
           187723572702975 "A" "A" "B" "B" "C" "C" "D" "D" "E" "E" "F" "F")%char;
    reflexivity.
Defined.

(** ** From a line of the registry to the answer *)

Lemma split_chars_line sep l r :
  forallb (fun c => negb (Ascii.eqb c sep)) l = true ->
  Py.split_chars sep (l ++ sep :: r) = l :: Py.split_chars sep r.
Proof.
  induction l as [|c l IH]; cbn [app Py.split_chars forallb]; intros Hl.
  - now rewrite Ascii.eqb_refl.
  - apply andb_prop in Hl as [Hc Hl]. apply negb_true_iff in Hc.
    now rewrite Hc, (IH Hl).
Qed.

Lemma space_newline c : Py.isspace c = false -> Ascii.eqb c Py.newline = false.
Proof.
  intros Hc. destruct (Ascii.eqb_spec c Py.newline) as [->|]; [discriminate | reflexivity].
Qed.

Lemma octets_group a b r :
  Re.upper_hex a = true -> Re.upper_hex b = true ->
  Re.octets (colon :: a :: b :: r)
  = (S (fst (Re.octets r)), snd (Re.octets r)).
Proof.
  intros Ha Hb. cbn [Re.octets]. unfold colon. rewrite Ha, Hb. cbn [Ascii.eqb andb].
  change (Ascii.eqb ":" ":") with true. cbn [andb]. now destruct (Re.octets r).
Qed.

Lemma octets_stop c r :
  Ascii.eqb c ":" = false -> Re.octets (c :: r) = (O, c :: r).
Proof. intros Hc. destruct r as [|x [|y r]]; cbn [Re.octets]; now rewrite ?Hc. Qed.

Lemma token_word l :
  forallb (fun c => negb (Py.isspace c)) l = true -> Re.token l = l.
Proof.
  unfold Re.token. induction l as [|c l IH]; cbn [Py.take_while forallb]; [reflexivity|].
  intros Hl. apply andb_prop in Hl as [-> Hl]. now rewrite (IH Hl).
Qed.

Lemma finditer_line a b c d e f org :
  forallb Re.upper_hex [a; b; c; d; e; f] = true ->
  word org = true ->
  Re.finditer (line (three_octets a b c d e f) org)
  = [(three_octets a b c d e f, org)].
Proof.
  intros Hcs Horg. cbn [forallb] in Hcs.
  repeat match type of Hcs with
         | (_ && _) = true => apply andb_prop in Hcs as [? Hcs]
         end.
  apply andb_prop in Horg as [Hne Hword].
  assert (Hfree : forallb (fun c => negb (Ascii.eqb c Py.newline)) (Py.chars org) = true).
  { rewrite forallb_forall in Hword |- *. intros x Hx.
    apply negb_true_iff, space_newline, negb_true_iff. now apply Hword. }
  unfold Re.finditer, line, three_octets, nl, tab.
  rewrite !chars_append, chars_text.
  change (Py.chars (String Py.newline EmptyString)) with [Py.newline].
  change (Py.chars (String (ascii_of_nat 9) EmptyString)) with [ascii_of_nat 9].
  rewrite !app_assoc. rewrite split_chars_line.
  2:{ assert (Hn : forall x, Re.upper_hex x = true -> Ascii.eqb x Py.newline = false).
      { intros x Hx. now apply digit_newline, upper_hex_facts. }
      rewrite !forallb_app. cbn [forallb]. rewrite Hfree.
      rewrite (Hn a), (Hn b), (Hn c), (Hn d), (Hn e), (Hn f) by assumption. reflexivity. }
  cbn [app Py.split_chars Re.matches Re.head].
  replace (Re.upper_hex a) with true. replace (Re.upper_hex b) with true.
  cbn [andb]. rewrite !octets_group, octets_stop by (assumption || reflexivity).
  cbn [fst snd Nat.leb andb Re.suffix].
  change (Ascii.eqb (ascii_of_nat 9) "/") with false.
  change (Py.isspace (ascii_of_nat 9)) with true.
  cbn [take Nat.add Nat.mul]. rewrite (token_word _ Hword).
  destruct (Py.chars org) as [|x xs] eqn:Hchars.
  { destruct org; [discriminate Hne | discriminate Hchars]. }
  rewrite <- Hchars, text_chars. reflexivity.
Qed.

(** X17: when the refresh is due, the store takes it, and the registry
    is one line binding the three octets a..f to the word [org], then
    [org_from_mac] answers [org] for every address that starts with these
    three octets. *)
Theorem registry_line_resolved_X17 (vrf org : string) (w : world)
    (a b c d e f g h i j k l : ascii) :
  forallb Re.upper_hex [a; b; c; d; e; f; g; h; i; j; k; l] = true ->
  word org = true ->
  refreshing w ->
  run_cmd w (fetch_command vrf) = Some (line (three_octets a b c d e f) org) ->
  fst (DUT.org_from_mac (six_octets a b c d e f g h i j k l) vrf w)
  = Ok (org +:+ ", " +:+ three_octets g h i j k l).
Proof.
  intros Hcs Horg Hr Hfetch.
  assert (H6 : forallb Re.upper_hex [a; b; c; d; e; f] = true).
  { cbn [forallb] in *.
    repeat match type of Hcs with
           | (_ && _) = true => apply andb_prop in Hcs as [-> Hcs]
           end. reflexivity. }
  assert (Hdown : fst (DUT._download vrf w) = Ok [(key24 a b c d e f, org)]).
  { unfold DUT._download, DUT.curl, bind, log. cbn [fst snd run_cmd with_history].
    fold (fetch_command vrf). rewrite Hfetch.
    replace (Py.truthy (line (three_octets a b c d e f) org)) with true by reflexivity.
    unfold lift. cbn [fst]. rewrite (finditer_line _ _ _ _ _ _ _ H6 Horg).
    cbn [DUT.download_loop]. now rewrite (normalize_three _ _ _ _ _ _ H6). }
  rewrite <- (oui_list_refreshed vrf w Hr) in Hdown.
  destruct (DUT.oui_list vrf w) as [r w'] eqn:Hlist. cbn [fst] in Hdown. subst r.
  destruct (bare_of_digits [a; b; c; d; e; f; g; h; i; j; k; l] Hcs eq_refl) as [_ Hv].
  rewrite (org_from_mac_external _ _ _ _ _ _ (EUI_six _ _ _ _ _ _ _ _ _ _ _ _ Hcs) Hlist _
             (mask_loop_keys _ _ _ _ _ _ _ _ _ _ _ _ _ _ Hv)).
  cbn [fst]. unfold answer. rewrite (last_six_digits _ _ _ _ _ _ _ _ _ _ _ _ _ Hv).
  do 2 f_equal. cbn [first_bound Dict.get].
  destruct (String.eqb _ _); [reflexivity|].
  destruct (String.eqb _ _); [reflexivity|].
  now rewrite String.eqb_refl.
Qed.

Lemma registry_line_resolved_X17_witness :
  fst (DUT.org_from_mac "00:00:0C:12:34:56" VRF_DEFAULT
         (world_with 0 (Some (line "00:00:0C" "Cisco")) ∅))
  = Ok "Cisco, 12:34:56".
Proof.
  apply (registry_line_resolved_X17 VRF_DEFAULT "Cisco"
           (world_with 0 (Some (line "00:00:0C" "Cisco")) ∅)
           "0" "0" "0" "0" "0" "C" "1" "2" "3" "4" "5" "6")%char;
    [reflexivity | reflexivity | split; [reflexivity | now left] | reflexivity].
Defined.

(** ** The organisations of the cache are single words *)

Lemma take_while_all {A : Type} (p : A -> bool) l :
  forallb p (Py.take_while p l) = true.
Proof.
  induction l as [|x l IH]; cbn [Py.take_while]; [reflexivity|].
  destruct (p x) eqn:Hx; [|reflexivity]. cbn [forallb]. now rewrite Hx, IH.
Qed.

Lemma token_is_word l x xs : Re.token l = x :: xs -> word (Py.text (x :: xs)) = true.
Proof.
  intros Ht. unfold word. rewrite chars_text, <- Ht. unfold Re.token.
  rewrite take_while_all, andb_true_r. fold (Re.token l). now rewrite Ht.
Qed.

Lemma matches_words n : forall lines,
  (List.length lines <= n)%nat ->
  Forall (fun m => word (snd m) = true) (Re.matches lines).
Proof.
  induction n as [|n IH]; intros [|l tl] Hlen; cbn [List.length] in Hlen;
    try (constructor; fail); try lia.
  assert (Htl : Forall (fun m => word (snd m) = true) (Re.matches tl)).
  { apply IH. lia. }
  cbn [Re.matches]. destruct (Re.head l) as [[oui [|c rest]]|]; [| |exact Htl].
  - destruct tl as [|l2 tl2]; [constructor|].
    destruct (Re.token l2) as [|x xs] eqn:Ht; [exact Htl|].
    constructor; [now apply (token_is_word l2) | apply IH; cbn [List.length] in Hlen; lia].
  - destruct (Py.isspace c); [|exact Htl].
    destruct (Re.token rest) as [|x xs] eqn:Ht; [exact Htl|].
    constructor; [now apply (token_is_word rest) | exact Htl].
Qed.

Lemma get_merge db k org k' o :
  Dict.get k' (DUT.merge db k org) = Some o -> o = org \/ Dict.get k' db = Some o.
Proof.
  assert (Hset : Dict.get k' (Dict.set k org db) = Some o ->
                 o = org \/ Dict.get k' db = Some o).
  { destruct (String.eqb_spec k k') as [->|Hne].
    - rewrite get_set_eq. intros [= <-]. now left.
    - rewrite get_set_ne by assumption. now right. }
  unfold DUT.merge. destruct (Dict.get k db) as [bound|]; [|exact Hset].
  destruct (String.eqb bound IEEERegi); [exact Hset | now right].
Qed.

Lemma download_loop_words ms : forall db db',
  DUT.download_loop ms db = Ok db' ->
  Forall (fun m => word (snd m) = true) ms ->
  (forall k o, Dict.get k db = Some o -> word o = true) ->
  forall k o, Dict.get k db' = Some o -> word o = true.
Proof.
  induction ms as [|[oui org] ms IH]; cbn [DUT.download_loop]; intros db db' Hrun Hms Hdb.
  - now injection Hrun as <-.
  - destruct (DUT.normalize oui) as [k0|]; [|discriminate].
    inversion Hms as [|m ms' Horg Hms' Heq]; subst. cbn [snd] in Horg.
    apply (IH _ _ Hrun Hms'). intros k o Hk.
    apply get_merge in Hk as [->|Hk]; [exact Horg | now apply (Hdb k)].
Qed.

Lemma download_words vrf w db :
  fst (DUT._download vrf w) = Ok db ->
  forall k o, Dict.get k db = Some o -> word o = true.
Proof.
  unfold DUT._download, DUT.curl, bind, log. cbn.
  assert (Hnil : Ok [] = Ok db -> forall k o, Dict.get k db = Some o -> word o = true).
  { intros [= <-] k o Hk. discriminate Hk. }
  destruct (run_cmd w _) as [text|]; [|exact Hnil].
  destruct (Py.truthy text); [|exact Hnil].
  unfold lift. cbn. intros Hrun.
  apply (download_loop_words _ _ _ Hrun).
  - apply (matches_words _ _ (Nat.le_refl _)).
  - intros k o Hk. discriminate Hk.
Qed.

Lemma token_stop l c r :
  forallb (fun c => negb (Py.isspace c)) l = true -> Py.isspace c = true ->
  Re.token (l ++ c :: r) = l.
Proof.
  unfold Re.token. intros Hl Hc.
  induction l as [|x l IH]; cbn [app Py.take_while forallb] in *.
  - now rewrite Hc.
  - apply andb_prop in Hl as [-> Hl]. now rewrite (IH Hl).
Qed.

Lemma finditer_first_word a b c d e f org rest :
  forallb Re.upper_hex [a; b; c; d; e; f] = true ->
  word org = true ->
  one_line rest = true ->
  Re.finditer (line (three_octets a b c d e f) (org +:+ " " +:+ rest))
  = [(three_octets a b c d e f, org)].
Proof.
  intros Hcs Horg Hrest. cbn [forallb] in Hcs.
  repeat match type of Hcs with
         | (_ && _) = true => apply andb_prop in Hcs as [? Hcs]
         end.
  apply andb_prop in Horg as [Hne Hword].
  assert (Hfree : forallb (fun c => negb (Ascii.eqb c Py.newline)) (Py.chars org) = true).
  { rewrite forallb_forall in Hword |- *. intros x Hx.
    apply negb_true_iff, space_newline, negb_true_iff. now apply Hword. }
  unfold Re.finditer, line, three_octets, nl, tab.
  rewrite !chars_append, chars_text.
  change (Py.chars (String Py.newline EmptyString)) with [Py.newline].
  change (Py.chars (String (ascii_of_nat 9) EmptyString)) with [ascii_of_nat 9].
  change (Py.chars " ") with [" "%char].
  rewrite !app_assoc. rewrite split_chars_line.
  2:{ assert (Hn : forall x, Re.upper_hex x = true -> Ascii.eqb x Py.newline = false).
      { intros x Hx. now apply digit_newline, upper_hex_facts. }
      rewrite !forallb_app. cbn [forallb]. rewrite Hfree. unfold one_line in Hrest.
      rewrite Hrest.
      rewrite (Hn a), (Hn b), (Hn c), (Hn d), (Hn e), (Hn f) by assumption. reflexivity. }
  rewrite <- !app_assoc.
  cbn [app Py.split_chars Re.matches Re.head].
  replace (Re.upper_hex a) with true. replace (Re.upper_hex b) with true.
  cbn [andb]. rewrite !octets_group, octets_stop by (assumption || reflexivity).
  cbn [fst snd Nat.leb andb Re.suffix].
  change (Ascii.eqb (ascii_of_nat 9) "/") with false.
  change (Py.isspace (ascii_of_nat 9)) with true.
  cbn [take Nat.add Nat.mul]. rewrite (token_stop _ " "%char _ Hword eq_refl).
  destruct (Py.chars org) as [|x xs] eqn:Hchars.
  { destruct org; [discriminate Hne | discriminate Hchars]. }
  rewrite <- Hchars, text_chars. reflexivity.
Qed.

(** X18: every organisation [_download] binds, and every organisation
    of the mapping [oui_list] returns from a refresh, is one word: it is not
    empty and has no white space; of the organisation on a line of the
    registry only the first word is kept. *)
Theorem single_word_organisations_X18 :
  (forall vrf w db,
      fst (DUT._download vrf w) = Ok db ->
      forall k o, Dict.get k db = Some o -> word o = true)
  /\ (forall vrf w db,
      refreshing w -> fst (DUT.oui_list vrf w) = Ok db ->
      forall k o, Dict.get k db = Some o -> word o = true)
  /\ (forall a b c d e f org rest,
      forallb Re.upper_hex [a; b; c; d; e; f] = true ->
      word org = true ->
      one_line rest = true ->
      Re.finditer (line (three_octets a b c d e f) (org +:+ " " +:+ rest))
      = [(three_octets a b c d e f, org)]).
Proof.
  split; [exact download_words|]. split.
  - intros vrf w db Hr Hrun. rewrite (oui_list_refreshed _ _ Hr) in Hrun.
    now apply (download_words vrf w).
  - exact finditer_first_word.
Qed.

Lemma single_word_organisations_X18_witness :
  word "Cisco" = true
  /\ fst (DUT._download VRF_DEFAULT
            (world_with 0 (Some (line "00:00:0C" "Cisco Systems, Inc")) ∅))
     = Ok cisco.
Proof.
  destruct single_word_organisations_X18 as (Hdown & _ & Hfirst). split.
  - apply (Hdown VRF_DEFAULT (world_with 0 (Some (line "00:00:0C" "Cisco")) ∅)
             cisco eq_refl "00000C000000" "Cisco" eq_refl).
  - unfold DUT._download, DUT.curl, bind, log, lift. cbn [fst snd run_cmd world_with with_history].
    replace (Py.truthy (line "00:00:0C" "Cisco Systems, Inc")) with true by reflexivity.
    cbn [fst].
    rewrite (Hfirst "0"%char "0"%char "0"%char "0"%char "0"%char "C"%char
               "Cisco" "Systems, Inc" eq_refl eq_refl eq_refl
             : Re.finditer (line "00:00:0C" "Cisco Systems, Inc") = [("00:00:0C", "Cisco")]).
    reflexivity.
Defined.

(** ** What the program asks of the device and of the store *)

Section frames.
Context (vrf : string).

Lemma framed_refl w : framed vrf w w [].
Proof. split; auto. now rewrite app_nil_r. Qed.

Lemma framed_trans w1 w2 w3 evs evs' :
  framed vrf w1 w2 evs -> framed vrf w2 w3 evs' -> framed vrf w1 w3 (evs ++ evs').
Proof.
  intros [Hc [Hr Hs] Hu Hst Hh Ht] [Hc' [Hr' Hs'] Hu' Hst' Hh' Ht']. split.
  - congruence.
  - split; congruence.
  - congruence.
  - intros name Hname. now rewrite Hst', Hst.
  - now rewrite Hh', Hh, app_assoc.
  - now apply Forall_app.
Qed.

Lemma frames_ret {A : Type} (a : A) : frames vrf (ret a).
Proof. intros w. exists []. apply framed_refl. Qed.

Lemma frames_throw {A : Type} e : frames vrf (throw e : M A).
Proof. intros w. exists []. apply framed_refl. Qed.

Lemma frames_lift {A : Type} (r : result A) : frames vrf (lift r).
Proof. intros w. exists []. apply framed_refl. Qed.

Lemma frames_item {A : Type} (o : option A) : frames vrf (item o).
Proof. destruct o; [apply frames_ret | apply frames_throw]. Qed.

Lemma frames_bind {A B : Type} (m : M A) (k : A -> M B) :
  frames vrf m -> (forall a, frames vrf (k a)) -> frames vrf (bind m k).
Proof.
  intros Hm Hk w. unfold bind. destruct (Hm w) as [evs Hevs].
  destruct (m w) as [[a|e] w1]; cbn [snd] in *; [|now exists evs].
  destruct (Hk a w1) as [evs' Hevs']. exists (evs ++ evs')%list.
  now apply (framed_trans _ w1).
Qed.

Lemma frames_print b : frames vrf (print b).
Proof. intros w. exists []. split; cbn; auto. now rewrite app_nil_r. Qed.

Lemma frames_log e : cache_traffic vrf e -> frames vrf (log e).
Proof. intros He w. exists [e]. split; cbn; auto. Qed.

Lemma frames_configlet_exists : frames vrf (configlet_exists OUI_CONFIGLET).
Proof.
  intros w. exists []. unfold configlet_exists.
  destruct (cvp_up w); [destruct (configlets w !! _)|]; apply framed_refl.
Qed.

Lemma frames_configlet_get : frames vrf (configlet_get OUI_CONFIGLET).
Proof.
  intros w. exists []. unfold configlet_get.
  destruct (cvp_up w); [destruct (configlets w !! _)|]; apply framed_refl.
Qed.

Lemma framed_write w c : framed vrf w (with_configlets (<[OUI_CONFIGLET := c]> (configlets w)) w) [].
Proof.
  split; cbn; auto; [|now rewrite app_nil_r].
  intros name Hname. now rewrite lookup_insert_ne.
Qed.

Lemma frames_configlet_add data : frames vrf (configlet_add data OUI_CONFIGLET).
Proof.
  apply frames_bind; [now apply frames_log|]. intros _ w. exists [].
  destruct (cvp_up w); [destruct (configlets w !! _)|];
    first [apply framed_refl | apply framed_write].
Qed.

Lemma frames_configlet_update data k :
  frames vrf (configlet_update data k OUI_CONFIGLET).
Proof.
  apply frames_bind; [now apply frames_log|]. intros _ w. exists [].
  destruct (cvp_up w); [destruct (configlets w !! _) as [c|]; [destruct (String.eqb _ _)|]|];
    first [apply framed_refl | apply framed_write].
Qed.

Lemma frames_download : frames vrf (DUT._download vrf).
Proof.
  unfold DUT._download, DUT.curl. apply frames_bind.
  - apply frames_bind; [now apply frames_log|]. intros _ w. exists []. apply framed_refl.
  - intros [text|]; [|apply frames_ret].
    destruct (Py.truthy text); [apply frames_lift | apply frames_ret].
Qed.

Lemma frames_oui_list : frames vrf (DUT.oui_list vrf).
Proof.
  unfold DUT.oui_list. apply frames_bind; [apply frames_configlet_exists|].
  intros [k timestamp]. apply frames_bind.
  { unfold DUT.update_needed. destruct (negb _); [apply frames_ret|].
    destruct (timestamp =? 0); [apply frames_ret|].
    intros w. exists []. apply framed_refl. }
  intros needed. apply frames_bind.
  { destruct needed; [|apply frames_ret]. unfold DUT.refresh.
    apply frames_bind; [apply frames_download|]. intros db.
    destruct (_ && _); [apply frames_configlet_add|].
    destruct (_ && _); [apply frames_configlet_update | apply frames_ret]. }
  intros _. apply frames_bind; [apply frames_configlet_get|].
  intros stored. apply frames_lift.
Qed.

Lemma frames_org_from_mac s : frames vrf (DUT.org_from_mac s vrf).
Proof.
  unfold DUT.org_from_mac, DUT.org_from_mac_with, EXTERNAL_OUI_LOOKUP.
  apply frames_bind; [apply frames_lift|]. intros e.
  apply frames_bind.
  - apply frames_bind; [apply frames_oui_list|]. intros db. apply frames_lift.
  - intros org. apply frames_bind; [apply frames_lift|]. intros b. apply frames_ret.
Qed.

Ltac frame :=
  repeat first
    [ apply frames_ret | apply frames_throw | apply frames_lift | apply frames_item
    | apply frames_print | apply frames_org_from_mac
    | apply frames_bind; [|intros ?]
    | match goal with
      | |- frames _ (if ?b then _ else _) => destruct b
      | |- frames _ (match ?x with _ => _ end) => destruct x
      end ].

Lemma frames_describe_host intf n d pcs : frames vrf (describe_host intf n d pcs).
Proof. unfold describe_host. frame. Qed.

Lemma frames_describe rc intf pcs : frames vrf (describe vrf rc intf pcs).
Proof.
  unfold describe.
  destruct (_ && _); [apply frames_ret|].
  apply frames_bind; [apply frames_item|]. intros config.
  apply frames_bind; [apply frames_item|]. intros notes.
  destruct (existsb _ _); [apply frames_ret|].
  apply frames_bind; [|intros described; frame].
  destruct (lldp_neighbors intf) as [[|n [|n' ns]]|].
  2:{ apply frames_bind; [frame|]. intros description.
      apply frames_bind; [frame|]. intros [|]; [frame|].
      apply frames_bind; [apply frames_describe_host | intros ?; frame]. }
  all: frame.
Qed.

Lemma frames_describe_all rc intfs : forall pcs,
  frames vrf (describe_all vrf rc intfs pcs).
Proof.
  induction intfs as [|intf intfs IH]; intros pcs; cbn [describe_all].
  - apply frames_ret.
  - apply frames_bind; [apply frames_describe | exact IH].
Qed.

End frames.

Lemma auto_description_framed interfaces rc w :
  exists vrf evs,
    framed vrf w (snd (auto_description interfaces rc w)) evs
    /\ (forall v, vrf_from_terminattr rc = Ok v -> vrf = v).
Proof.
  unfold auto_description. unfold bind at 1. unfold lift.
  destruct (vrf_from_terminattr rc) as [vrf|e].
  - exists vrf.
    destruct (frames_bind vrf
                (describe_all vrf rc (sorted_by_name (Dict.values interfaces)) ∅)
                (fun _ => ret tt) (frames_describe_all vrf rc _ ∅)
                (fun _ => frames_ret vrf tt) w) as [evs Hevs].
    exists evs. split; [exact Hevs | now intros v [= <-]].
  - exists VRF_DEFAULT, []. split; [apply framed_refl | discriminate].
Qed.

Lemma main_shown w :
  main w
  = auto_description
      (mac_address_table_to_interfaces
         (lldp_neighbors_to_interfaces (show_interfaces (shows w))
            (show_lldp_neighbors (shows w)))
         (show_mac_address_table (shows w)))
      (show_running_config (shows w))
      (with_history (history w ++ show_commands) w).
Proof.
  unfold main, show, bind, log. cbn [fst snd shows history with_history].
  unfold show_commands. now rewrite <- !app_assoc.
Qed.

Lemma program_world w : snd (program w) = snd (main w).
Proof.
  unfold program. destruct (main w) as [[u|e] w']; [reflexivity|].
  now destruct (is_ValueError e).
Qed.

Lemma program_framed w :
  exists vrf evs,
    framed vrf (with_history (history w ++ show_commands) w) (snd (program w)) evs
    /\ (forall v, vrf_from_terminattr (show_running_config (shows w)) = Ok v -> vrf = v).
Proof. rewrite program_world, main_shown. apply auto_description_framed. Qed.

(** X19: whatever the device shows and the store holds, the program
    leaves every configlet of the store as it was, except the cache
    oui.json. *)
Theorem other_configlets_kept_X19 (w : world) (name : string) :
  name <> OUI_CONFIGLET ->
  configlets (snd (program w)) !! name = configlets w !! name.
Proof.
  intros Hname. destruct (program_framed w) as (vrf & evs & Hf & _).
  now rewrite (framed_store _ _ _ _ Hf name Hname).
Qed.

Lemma other_configlets_kept_X19_witness :
  configlets (snd (program mgmt_world)) !! "other"
  = Some (mkConfiglet "configlet_other" 5 "hostname sw1")
  /\ is_Some (configlets (snd (program mgmt_world)) !! OUI_CONFIGLET).
Proof.
  split; [|vm_compute; eauto].
  rewrite (other_configlets_kept_X19 mgmt_world "other"); [reflexivity | discriminate].
Defined.

(** X20: the program first runs the four show commands, in the order
    of [main]; every command it runs on the device after them is the fetch
    of the registry through the VRF of TerminAttr, and every write request
    it sends to the store, to add or to update a configlet, is for the
    cache oui.json.  The reads of the store are not part of the history. *)
Theorem requests_X20 (w : world) (vrf : string) :
  vrf_from_terminattr (show_running_config (shows w)) = Ok vrf ->
  exists evs,
    history (snd (program w)) = (history w ++ show_commands ++ evs)%list
    /\ Forall (cache_traffic vrf) evs.
Proof.
  intros Hvrf. destruct (program_framed w) as (vrf' & evs & Hf & Hsame).
  rewrite (Hsame _ Hvrf) in Hf. exists evs. split.
  - rewrite (framed_history _ _ _ _ Hf). cbn [history with_history].
    now rewrite <- app_assoc.
  - exact (framed_traffic _ _ _ _ Hf).
Qed.

Lemma requests_X20_witness :
  exists evs,
    history (snd (program mgmt_world)) = (show_commands ++ evs)%list
    /\ Forall (cache_traffic "MGMT") evs.
Proof. apply (requests_X20 mgmt_world "MGMT"). reflexivity. Defined.

(** ** Numbers read as addresses *)

(** X21: a text that [int()] reads as a number between 0 and 2^64 - 1
    is a MAC address for [is_mac], whatever its form: a neighbour whose name
    is such a number is described through the resolver, not by its name.
    When no format of EUI-48 matches the text and the number is below 2^48,
    the number is the value of the address. *)
Theorem number_is_mac_X21 (s : string) (n : Z) :
  Py.int s = Some n ->
  0 <= n <= Netaddr.max_int64 ->
  is_mac s = Ok true
  /\ (Netaddr.str_to_int Netaddr.eui48_formats s = None ->
      n <= Netaddr.max_int48 ->
      Netaddr.EUI_of_str s = Ok (Netaddr.mkEUI n Netaddr.EUI48)).
Proof.
  intros Hint [Hlo Hhi].
  assert (H64 : (0 <=? n) && (n <=? Netaddr.max_int64) = true).
  { apply andb_true_intro. split; now apply Z.leb_le. }
  split.
  - unfold is_mac, Netaddr.EUI_of_str, Netaddr.detect. rewrite Hint, H64.
    destruct (Netaddr.str_to_int Netaddr.eui48_formats s); [reflexivity|].
    destruct ((0 <=? n) && (n <=? Netaddr.max_int48)); [reflexivity|].
    now destruct (Netaddr.str_to_int Netaddr.eui64_formats s).
  - intros Hnone H48. unfold Netaddr.EUI_of_str, Netaddr.detect.
    rewrite Hnone, Hint.
    replace ((0 <=? n) && (n <=? Netaddr.max_int48)) with true; [reflexivity|].
    symmetry. apply andb_true_intro. split; now apply Z.leb_le.
Qed.

Lemma number_is_mac_X21_witness :
  is_mac "42" = Ok true
  /\ Netaddr.EUI_of_str "1000" = Ok (Netaddr.mkEUI 1000 Netaddr.EUI48).
Proof.
  split.
  - apply (number_is_mac_X21 "42" 42); [reflexivity | vm_compute; split; discriminate].
  - apply (number_is_mac_X21 "1000" 1000);
      [reflexivity | vm_compute; split; discriminate | reflexivity
      | vm_compute; discriminate].
Defined.

(** X22: when the single LLDP neighbour of a describable interface has
    a host name and the interface has an [interfaceMembership] of fewer than
    three words, an empty one for instance, the turn of the loop raises
    [IndexError] before it prints anything: only a missing
    [interfaceMembership] is tolerated. *)
Theorem membership_too_short_X22 (vrf : string) (running_config : Dict.t section)
    (intf : interface_t) (port_channels : gset string) (w : world)
    (n : neighbor) (host port membership : string) (info : neighbor_interface_info) :
  describable running_config (name intf) ->
  lldp_neighbors intf = Some [n] ->
  systemName n = Some host ->
  is_mac host = Ok false ->
  neighborInterfaceInfo n = Some info ->
  neighbor_port info = Some port ->
  interfaceMembership intf = Some membership ->
  third_token membership = None ->
  describe vrf running_config intf port_channels w = (Raise IndexError, w).
Proof.
  intros Hok Hl Hhost Hmac Hinfo Hport Hmem Hshort.
  unfold neighbor_port in Hport.
  destruct (interfaceIdType info) as [id_type|] eqn:Hid; [|discriminate].
  rewrite (describe_eligible _ _ _ _ _ Hok), Hl.
  unfold bind at 1 2 3. rewrite Hhost. cbn [ret]. unfold lift. rewrite Hmac.
  unfold bind at 1. unfold describe_host, bind at 1. rewrite Hinfo. cbn [item ret].
  unfold bind at 1. rewrite Hid. cbn [item ret].
  unfold bind at 1. unfold third_token in Hshort.
  destruct (String.eqb id_type "interfaceName"); rewrite Hport; cbn [item ret];
    rewrite Hmem; unfold bind at 1;
    destruct (Py.split " " membership) as [|t1 [|t2 [|pc rest]]];
    try discriminate Hshort; reflexivity.
Qed.

Lemma membership_too_short_X22_witness :
  let w := world_with 1700000000000000 None ∅ in
  describe VRF_DEFAULT lone_config (lone_interface "") ∅ w = (Raise IndexError, w)
  /\ fst (auto_description [("Ethernet1", lone_interface "")] lone_config w)
     = Raise IndexError.
Proof.
  intros w. split; [|reflexivity].
  apply (membership_too_short_X22 VRF_DEFAULT lone_config (lone_interface "") ∅ w
           (host1 "Ethernet3") "host1.example.com" "Ethernet3" ""
           (mkInfo (Some "interfaceName") (Some "Ethernet3") None));
    try reflexivity.
  split; [reflexivity|]. exists (mkSection (Some []) (Some [])), []. now repeat split.
Defined.

(** ** Prefixes of four octets *)

Lemma EUI_four a b c d e f g h :
  forallb Re.upper_hex [a; b; c; d; e; f; g; h] = true ->
  Netaddr.EUI_of_str (four_octets a b c d e f g h)
  = Ok (Netaddr.mkEUI
          (little (List.map nib [zero; zero; a; b; zero; zero; c; d;
                                 zero; zero; e; f; zero; zero; g; h]))
          Netaddr.EUI64).
Proof.
  intros Hcs. cbn [forallb] in Hcs.
  repeat match type of Hcs with
         | (_ && _) = true => apply andb_prop in Hcs as [? Hcs]
         end.
  set (cs := [a; b; colon; c; d; colon; e; f; colon; g; h]).
  assert (Hchars : Py.chars (four_octets a b c d e f g h) = cs).
  { unfold Py.chars, four_octets, Py.text. apply list_ascii_of_string_of_list_ascii. }
  assert (Hchomp : Netaddr.chomp cs = cs).
  { change cs with ([a; b; colon; c; d; colon; e; f; colon; g] ++ [h])%list.
    apply chomp_keeps, digit_newline. now apply upper_hex_facts. }
  assert (Hcolon : Py.split_chars ":" cs = [[a; b]; [c; d]; [e; f]; [g; h]]).
  { unfold cs, colon.
    rewrite !split_chars_octet, split_chars_end
      by (apply digit_colon; now apply upper_hex_facts).
    reflexivity. }
  assert (Hother : forall sep, Ascii.eqb colon sep = false ->
             (forall x, Re.upper_hex x = true -> Ascii.eqb x sep = false) ->
             Py.split_chars sep cs = [cs]).
  { intros sep Hsep Hx. apply split_chars_none. unfold cs. cbn [forallb].
    rewrite Hsep, !Hx by assumption. reflexivity. }
  assert (Hdash : Py.split_chars "-" cs = [cs]).
  { apply Hother; [reflexivity|]. intros x Hx. apply digit_dash. now apply upper_hex_facts. }
  assert (Hdot : Py.split_chars "." cs = [cs]).
  { apply Hother; [reflexivity|]. intros x Hx. apply digit_dot. now apply upper_hex_facts. }
  assert (Hbare : Netaddr.hex_value 0 cs = None).
  { unfold cs. cbn [Netaddr.hex_value].
    rewrite (digit_value a), (digit_value b) by now apply upper_hex_facts. reflexivity. }
  assert (H48 : Netaddr.first_format Netaddr.eui48_formats cs = None).
  { unfold Netaddr.eui48_formats. cbn [Netaddr.first_format].
    unfold Netaddr.match_format. cbn [Netaddr.sep Netaddr.groups].
    rewrite ?Hcolon, ?Hdash, ?Hdot.
    cbn [List.length Nat.eqb Netaddr.words_value Netaddr.min_len Netaddr.max_len].
    change (List.length cs) with 11%nat. cbn [Nat.leb andb]. now rewrite Hbare. }
  assert (Hint : Py.int (four_octets a b c d e f g h) = None).
  { unfold Py.int. rewrite Hchars.
    change cs with (a :: [b; colon; c; d; colon; e; f; colon; g] ++ [h])%list.
    rewrite strip_keeps by (apply digit_space; now apply upper_hex_facts).
    rewrite (digit_dash a), (digit_plus a) by now apply upper_hex_facts.
    now apply digits_value_colon. }
  assert (H64 : Netaddr.first_format Netaddr.eui64_formats cs
                = Some (little (List.map nib [zero; zero; a; b; zero; zero; c; d;
                                              zero; zero; e; f; zero; zero; g; h]))).
  { unfold Netaddr.eui64_formats. cbn [Netaddr.first_format].
    unfold Netaddr.match_format. cbn [Netaddr.sep Netaddr.groups].
    rewrite ?Hcolon, ?Hdash, ?Hdot.
    cbn [List.length Nat.eqb Netaddr.words_value Netaddr.min_len Netaddr.max_len
           Nat.leb andb].
    rewrite !hex_value_octet by assumption.
    cbn [Netaddr.words_value]. f_equal.
    rewrite !Z.shiftl_mul_pow2 by lia. cbn [List.map little List.length].
    change (nib zero) with 0.
    repeat match goal with
           | |- context [16 ^ Z.of_nat ?n] =>
               let p := eval vm_compute in (16 ^ Z.of_nat n) in
               change (16 ^ Z.of_nat n) with p
           end.
    change (4 * Z.of_nat 4) with 16. change (2 ^ 16) with 65536. lia. }
  unfold Netaddr.EUI_of_str, Netaddr.detect, Netaddr.str_to_int.
  rewrite Hchars, Hchomp, H48, Hint, H64. reflexivity.
Qed.

Lemma nib_zero a : Re.upper_hex a = true -> nib a = 0 -> a = zero.
Proof.
  intros Ha. apply upper_hex_cases in Ha. cbn in Ha.
  repeat (destruct Ha as [<-|Ha]; [vm_compute; intuition congruence|]).
  contradiction.
Qed.

Ltac powers :=
  repeat match goal with
         | |- context [16 ^ Z.of_nat ?n] =>
             let p := eval vm_compute in (16 ^ Z.of_nat n) in
             change (16 ^ Z.of_nat n) with p
         end.

Lemma normalize_four_stored c d e f g h :
  forallb Re.upper_hex [c; d; e; f; g; h] = true ->
  DUT.normalize (four_octets zero zero c d e f g h)
  = Ok (Py.text [zero; zero; c; d; zero; zero; e; f; zero; zero; g; h]).
Proof.
  intros Hcs.
  assert (H8 : forallb Re.upper_hex [zero; zero; c; d; e; f; g; h] = true) by exact Hcs.
  assert (H12 : forallb Re.upper_hex
                  [zero; zero; c; d; zero; zero; e; f; zero; zero; g; h] = true).
  { cbn [forallb] in *.
    repeat match type of Hcs with
           | (_ && _) = true => apply andb_prop in Hcs as [-> Hcs]
           end. reflexivity. }
  unfold DUT.normalize.
  replace (String.length (four_octets zero zero c d e f g h) =? 8)%nat with false
    by reflexivity.
  rewrite (EUI_four _ _ _ _ _ _ _ _ H8).
  destruct (bare_of_digits _ H12 eq_refl) as [Hr Hp].
  assert (Hsame : little (List.map nib [zero; zero; zero; zero; zero; zero; c; d;
                                        zero; zero; e; f; zero; zero; g; h])
                  = little (List.map nib [zero; zero; c; d; zero; zero; e; f;
                                          zero; zero; g; h])).
  { cbn [List.map little List.length]. change (nib zero) with 0. powers. lia. }
  rewrite Hsame. unfold Netaddr.str_bare. cbn [Netaddr.value].
  replace ((0 <=? _) && (_ <=? Netaddr.max_int48)) with true.
  - now rewrite Hp.
  - symmetry. apply andb_true_intro. split; apply Z.leb_le; lia.
Qed.

Lemma normalize_four_raises a b c d e f g h :
  forallb Re.upper_hex [a; b; c; d; e; f; g; h] = true ->
  a <> zero \/ b <> zero ->
  DUT.normalize (four_octets a b c d e f g h) = Raise IndexError.
Proof.
  intros Hcs Hfirst.
  unfold DUT.normalize.
  replace (String.length (four_octets a b c d e f g h) =? 8)%nat with false
    by reflexivity.
  rewrite (EUI_four _ _ _ _ _ _ _ _ Hcs).
  cbn [forallb] in Hcs.
  repeat match type of Hcs with
         | (_ && _) = true => apply andb_prop in Hcs as [? Hcs]
         end.
  assert (Hr : forall x, Re.upper_hex x = true -> 0 <= nib x < 16).
  { intros x Hx. now apply digit_range, upper_hex_facts. }
  assert (Hnz : 1 <= 16 * nib a + nib b).
  { pose proof (Hr a ltac:(assumption)). pose proof (Hr b ltac:(assumption)).
    destruct (Z.eq_dec (nib a) 0) as [Ha|]; [|lia].
    destruct (Z.eq_dec (nib b) 0) as [Hb|]; [|lia].
    apply nib_zero in Ha, Hb; try assumption. tauto. }
  unfold Netaddr.str_bare. cbn [Netaddr.value].
  replace ((0 <=? _) && (_ <=? Netaddr.max_int48)) with false; [reflexivity|].
  symmetry. apply andb_false_intro2. apply Z.leb_gt.
  cbn [List.map little List.length]. change (nib zero) with 0. powers.
  unfold Netaddr.max_int48.
  pose proof (Hr a ltac:(assumption)). pose proof (Hr b ltac:(assumption)).
  pose proof (Hr c ltac:(assumption)). pose proof (Hr d ltac:(assumption)).
  pose proof (Hr e ltac:(assumption)). pose proof (Hr f ltac:(assumption)).
  pose proof (Hr g ltac:(assumption)). pose proof (Hr h ltac:(assumption)).
  change (2 ^ 48) with 281474976710656. lia.
Qed.

(** ** What the pattern captures *)

Lemma octets_more r n r' :
  Re.octets r = (S n, r') ->
  exists x y r1,
    r = colon :: x :: y :: r1
    /\ Re.upper_hex x = true /\ Re.upper_hex y = true
    /\ Re.octets r1 = (n, r').
Proof.
  destruct r as [|c [|x [|y r1]]]; cbn [Re.octets]; try discriminate.
  destruct (Ascii.eqb_spec c ":") as [->|]; cbn [andb]; [|discriminate].
  destruct (Re.upper_hex x) eqn:Hx; cbn [andb]; [|discriminate].
  destruct (Re.upper_hex y) eqn:Hy; cbn [andb]; [|discriminate].
  destruct (Re.octets r1) as [n1 r1'] eqn:E. intros [= -> ->].
  now exists x, y, r1.
Qed.

Lemma head_prefix l oui rest :
  Re.head l = Some (oui, rest) -> matched_prefix (Py.text oui).
Proof.
  unfold Re.head. destruct l as [|a [|b r]]; try discriminate.
  destruct (Re.upper_hex a) eqn:Ha; cbn [andb]; [|discriminate].
  destruct (Re.upper_hex b) eqn:Hb; [|discriminate].
  destruct (Re.octets r) as [n r'] eqn:E.
  destruct n as [|[|n]]; cbn [Nat.leb andb]; try discriminate.
  apply octets_more in E as (c & d & r1 & -> & Hc & Hd & E).
  apply octets_more in E as (e & f & r2 & -> & He & Hf & E).
  destruct n as [|n].
  { destruct (Re.suffix r'); [|discriminate]. intros [= <- _].
    apply (prefix_three a b c d e f). cbn [forallb]. now rewrite Ha, Hb, Hc, Hd, He, Hf. }
  apply octets_more in E as (g & h & r3 & -> & Hg & Hh & E).
  destruct n as [|n].
  { destruct (Re.suffix r'); [|discriminate]. intros [= <- _].
    apply (prefix_four a b c d e f g h). cbn [forallb].
    now rewrite Ha, Hb, Hc, Hd, He, Hf, Hg, Hh. }
  apply octets_more in E as (i & j & r4 & -> & Hi & Hj & E).
  destruct n as [|n].
  { destruct (Re.suffix r'); [|discriminate]. intros [= <- _].
    apply (prefix_five a b c d e f g h i j). cbn [forallb].
    now rewrite Ha, Hb, Hc, Hd, He, Hf, Hg, Hh, Hi, Hj. }
  apply octets_more in E as (k & l & r5 & -> & Hk & Hl & E).
  destruct n as [|n]; [|discriminate].
  destruct (Re.suffix r'); [|discriminate]. intros [= <- _].
  apply (prefix_six a b c d e f g h i j k l). cbn [forallb].
  now rewrite Ha, Hb, Hc, Hd, He, Hf, Hg, Hh, Hi, Hj, Hk, Hl.
Qed.

Lemma matches_prefixes n : forall lines,
  (List.length lines <= n)%nat ->
  Forall (fun m => matched_prefix (fst m)) (Re.matches lines).
Proof.
  induction n as [|n IH]; intros [|l tl] Hlen; cbn [List.length] in Hlen;
    try (constructor; fail); try lia.
  assert (Htl : Forall (fun m => matched_prefix (fst m)) (Re.matches tl)).
  { apply IH. lia. }
  cbn [Re.matches]. destruct (Re.head l) as [[oui rest]|] eqn:Hhead; [|exact Htl].
  apply head_prefix in Hhead. destruct rest as [|c rest].
  - destruct tl as [|l2 tl2]; [constructor|].
    destruct (Re.token l2) as [|x xs]; [exact Htl|].
    constructor; [exact Hhead | apply IH; cbn [List.length] in Hlen; lia].
  - destruct (Py.isspace c); [|exact Htl].
    destruct (Re.token rest) as [|x xs]; [exact Htl|].
    constructor; [exact Hhead | exact Htl].
Qed.

Lemma finditer_prefixes text m :
  In m (Re.finditer text) -> matched_prefix (fst m).
Proof.
  intros Hm. pose proof (matches_prefixes _ _ (Nat.le_refl _)
                           : Forall _ (Re.finditer text)) as H.
  rewrite Forall_forall in H. apply H. now apply list_elem_of_In.
Qed.

(** A line of five octets and a word is matched as a whole. *)
Lemma finditer_five a b c d e f g h i j org :
  forallb Re.upper_hex [a; b; c; d; e; f; g; h; i; j] = true ->
  word org = true ->
  Re.finditer (line (five_octets a b c d e f g h i j) org)
  = [(five_octets a b c d e f g h i j, org)].
Proof.
  intros Hcs Horg. cbn [forallb] in Hcs.
  repeat match type of Hcs with
         | (_ && _) = true => apply andb_prop in Hcs as [? Hcs]
         end.
  apply andb_prop in Horg as [Hne Hword].
  assert (Hfree : forallb (fun c => negb (Ascii.eqb c Py.newline)) (Py.chars org) = true).
  { rewrite forallb_forall in Hword |- *. intros x Hx.
    apply negb_true_iff, space_newline, negb_true_iff. now apply Hword. }
  unfold Re.finditer, line, five_octets, nl, tab.
  rewrite !chars_append, chars_text.
  change (Py.chars (String Py.newline EmptyString)) with [Py.newline].
  change (Py.chars (String (ascii_of_nat 9) EmptyString)) with [ascii_of_nat 9].
  rewrite !app_assoc. rewrite split_chars_line.
  2:{ assert (Hn : forall x, Re.upper_hex x = true -> Ascii.eqb x Py.newline = false).
      { intros x Hx. now apply digit_newline, upper_hex_facts. }
      rewrite !forallb_app. cbn [forallb]. rewrite Hfree.
      rewrite (Hn a), (Hn b), (Hn c), (Hn d), (Hn e), (Hn f), (Hn g), (Hn h),
        (Hn i), (Hn j) by assumption. reflexivity. }
  cbn [app Py.split_chars Re.matches Re.head].
  replace (Re.upper_hex a) with true. replace (Re.upper_hex b) with true.
  cbn [andb]. rewrite !octets_group, octets_stop by (assumption || reflexivity).
  cbn [fst snd Nat.leb andb Re.suffix].
  change (Ascii.eqb (ascii_of_nat 9) "/") with false.
  change (Py.isspace (ascii_of_nat 9)) with true.
  cbn [take Nat.add Nat.mul]. rewrite (token_word _ Hword).
  destruct (Py.chars org) as [|x xs] eqn:Hchars.
  { destruct org; [discriminate Hne | discriminate Hchars]. }
  rewrite <- Hchars, text_chars. reflexivity.
Qed.

(** A line of two octets is passed over, whatever follows it. *)
Lemma finditer_two a b c d org doc :
  forallb Re.upper_hex [a; b; c; d] = true ->
  one_line org = true ->
  Re.finditer (line (two_octets a b c d) org +:+ doc) = Re.finditer doc.
Proof.
  intros Hcs Hfree. cbn [forallb] in Hcs.
  repeat match type of Hcs with
         | (_ && _) = true => apply andb_prop in Hcs as [? Hcs]
         end.
  unfold Re.finditer, line, two_octets, nl, tab.
  rewrite !chars_append, chars_text.
  change (Py.chars (String Py.newline EmptyString)) with [Py.newline].
  change (Py.chars (String (ascii_of_nat 9) EmptyString)) with [ascii_of_nat 9].
  assert (Hl : (([a; b; colon; c; d] ++ [ascii_of_nat 9] ++ Py.chars org ++ [Py.newline])
                ++ Py.chars doc
                = ([a; b; colon; c; d; ascii_of_nat 9] ++ Py.chars org)
                    ++ Py.newline :: Py.chars doc)%list).
  { rewrite <- !app_assoc. reflexivity. }
  rewrite Hl, split_chars_line.
  2:{ assert (Hn : forall x, Re.upper_hex x = true -> Ascii.eqb x Py.newline = false).
      { intros x Hx. now apply digit_newline, upper_hex_facts. }
      rewrite forallb_app. cbn [forallb]. unfold one_line in Hfree. rewrite Hfree.
      rewrite (Hn a), (Hn b), (Hn c), (Hn d) by assumption. reflexivity. }
  cbn [app Re.matches Re.head].
  replace (Re.upper_hex a) with true. replace (Re.upper_hex b) with true.
  cbn [andb]. rewrite octets_group, octets_stop by (assumption || reflexivity).
  reflexivity.
Qed.

(** ** A refresh whose download raises *)

Lemma download_loop_raises pre : forall oui org post db e,
  Forall (fun m => exists k, DUT.normalize (fst m) = Ok k) pre ->
  DUT.normalize oui = Raise e ->
  DUT.download_loop (pre ++ (oui, org) :: post) db = Raise e.
Proof.
  intros oui org post db e Hpre Houi. revert db.
  induction Hpre as [|[oui' org'] pre [k Hk] _ IH]; intros db; cbn.
  - now rewrite Houi.
  - cbn in Hk. rewrite Hk. apply IH.
Qed.

Lemma download_raises vrf w text pre oui org post e :
  run_cmd w (fetch_command vrf) = Some text ->
  Re.finditer text = (pre ++ (oui, org) :: post)%list ->
  Forall (fun m => exists k, DUT.normalize (fst m) = Ok k) pre ->
  DUT.normalize oui = Raise e ->
  fst (DUT._download vrf w) = Raise e.
Proof.
  intros Hfetch Hmatches Hpre Houi.
  unfold DUT._download, DUT.curl, bind, log. cbn [fst snd run_cmd with_history].
  fold (fetch_command vrf). rewrite Hfetch.
  destruct (Py.truthy text) eqn:Ht.
  - unfold lift. cbn [fst]. rewrite Hmatches. now apply download_loop_raises.
  - destruct text; [|discriminate Ht]. destruct pre; discriminate Hmatches.
Qed.

Lemma oui_list_aborted vrf w e :
  refreshing w ->
  fst (DUT._download vrf w) = Raise e ->
  DUT.oui_list vrf w
  = (Raise e, with_history (history w ++ [RunCmds (fetch_command vrf)]) w).
Proof.
  intros [Hup Hcase] Hdb.
  pose proof (download_result vrf w) as Hrun. rewrite Hdb in Hrun.
  unfold DUT.oui_list. unfold bind at 1 2. unfold configlet_exists. rewrite Hup.
  destruct Hcase as [Hc | (c & Hc & Hk & Hts & Hs)]; rewrite Hc.
  - cbn [DUT.update_needed key_truthy negb ret]. unfold bind at 1.
    unfold DUT.refresh, bind at 1. now rewrite Hrun.
  - unfold DUT.update_needed. cbn [key_truthy]. rewrite Hk. cbn [negb].
    destruct (Z.eqb_spec (dateTimeInLongFormat c) 0) as [|_]; [contradiction|].
    unfold is_24h_old. fold (stale w c). rewrite Hs.
    unfold bind at 1. unfold DUT.refresh, bind at 1. now rewrite Hrun.
Qed.

(** C10 as stated fails for a prefix of two octets: the pattern asks
    for at least three, the line is skipped and nothing is raised.  It
    fails for four octets as well: netaddr reads them as an EUI-64, so no
    address-format error is raised; a prefix that begins with 00 is stored,
    and any other raises [IndexError] when it is printed. *)
Lemma aborted_refresh_C10_counterexample :
  Re.finditer two_octet_document = []
  /\ fst (DUT._download VRF_DEFAULT (world_with 0 (Some two_octet_document) ∅)) = Ok []
  /\ fst (DUT._download VRF_DEFAULT
            (world_with 0 (Some (four_octet_document "00:00:0C:12")) ∅))
     = Ok [("0000000C0012", "Four")]
  /\ fst (DUT._download VRF_DEFAULT
            (world_with 0 (Some (four_octet_document "FF:FF:FF:FF")) ∅))
     = Raise IndexError.
Proof. repeat split. Qed.

(** C10, amended: the pattern captures prefixes of 3 to 6 colon-grouped
    octets and no others; a line whose prefix has 2 octets does not match
    and is passed over without error.  A line whose prefix has exactly 5
    octets matches, and its processing raises [AddrFormatError]; a matched
    prefix of exactly 4 octets is read as an EUI-64 and raises [IndexError]
    when it is printed, unless its first octet is 00, in which case it is
    stored under the twelve digits 00cd00ef00gh.  An exception raised for
    a line aborts the whole refresh, whatever lines came before it: the
    line is not skipped, [oui_list] raises the exception and nothing of
    that pass is persisted.  Prefixes of 3 octets, which are zero-extended,
    and of 6 octets are parsed and stored. *)
Theorem aborted_refresh_C10 :
  (forall text m, In m (Re.finditer text) -> matched_prefix (fst m))
  /\ (forall a b c d org doc,
      forallb Re.upper_hex [a; b; c; d] = true ->
      one_line org = true ->
      Re.finditer (line (two_octets a b c d) org +:+ doc) = Re.finditer doc)
  /\ (forall a b c d e f g h i j org,
      forallb Re.upper_hex [a; b; c; d; e; f; g; h; i; j] = true ->
      word org = true ->
      Re.finditer (line (five_octets a b c d e f g h i j) org)
      = [(five_octets a b c d e f g h i j, org)])
  /\ (forall a b c d e f g h i j,
      forallb Re.upper_hex [a; b; c; d; e; f; g; h; i; j] = true ->
      DUT.normalize (five_octets a b c d e f g h i j) = Raise AddrFormatError)
  /\ (forall a b c d e f g h,
      forallb Re.upper_hex [a; b; c; d; e; f; g; h] = true ->
      a <> zero \/ b <> zero ->
      DUT.normalize (four_octets a b c d e f g h) = Raise IndexError)
  /\ (forall c d e f g h,
      forallb Re.upper_hex [c; d; e; f; g; h] = true ->
      DUT.normalize (four_octets zero zero c d e f g h)
      = Ok (Py.text [zero; zero; c; d; zero; zero; e; f; zero; zero; g; h]))
  /\ (forall pre oui org post db e,
      Forall (fun m => exists k, DUT.normalize (fst m) = Ok k) pre ->
      DUT.normalize oui = Raise e ->
      DUT.download_loop (pre ++ (oui, org) :: post) db = Raise e)
  /\ (forall vrf w text pre oui org post e,
      refreshing w ->
      run_cmd w (fetch_command vrf) = Some text ->
      Re.finditer text = (pre ++ (oui, org) :: post)%list ->
      Forall (fun m => exists k, DUT.normalize (fst m) = Ok k) pre ->
      DUT.normalize oui = Raise e ->
      fst (DUT.oui_list vrf w) = Raise e
      /\ configlets (snd (DUT.oui_list vrf w)) = configlets w)
  /\ Re.finditer five_octet_document
     = [("00:00:0C", "Cisco"); ("AA:BB:CC:DD:EE", "Five")]
  /\ fst (DUT.oui_list VRF_DEFAULT (world_with 0 (Some five_octet_document) ∅))
     = Raise AddrFormatError
  /\ configlets (snd (DUT.oui_list VRF_DEFAULT
                        (world_with 0 (Some five_octet_document) ∅))) = ∅
  /\ Re.finditer two_octet_document = []
  /\ (forall a b c d e f,
      forallb Re.upper_hex [a; b; c; d; e; f] = true ->
      DUT.normalize (three_octets a b c d e f)
      = Ok (Py.text [a; b; c; d; e; f] +:+ "000000"))
  /\ (forall a b c d e f g h i j k l,
      forallb Re.upper_hex [a; b; c; d; e; f; g; h; i; j; k; l] = true ->
      DUT.normalize (six_octets a b c d e f g h i j k l)
      = Ok (Py.text [a; b; c; d; e; f; g; h; i; j; k; l])).
Proof.
  split; [exact finditer_prefixes|].
  split; [exact finditer_two|].
  split; [exact finditer_five|].
  split; [exact normalize_five|].
  split; [exact normalize_four_raises|].
  split; [exact normalize_four_stored|].
  split; [intros pre oui org post db e; now apply download_loop_raises|].
  split.
  { intros vrf w text pre oui org post e Hr Hfetch Hmatches Hpre Houi.
    rewrite (oui_list_aborted vrf w e Hr
               (download_raises _ _ _ _ _ _ _ _ Hfetch Hmatches Hpre Houi)).
    split; reflexivity. }
  repeat split; try reflexivity; [exact normalize_three | exact normalize_six].
Qed.

Lemma aborted_refresh_C10_witness :
  DUT.normalize "AA:BB:CC:DD:EE" = Raise AddrFormatError
  /\ DUT.download_loop [("00:00:0C", "Cisco"); ("AA:BB:CC:DD:EE", "Five")] []
     = Raise AddrFormatError
  /\ DUT.normalize "00:00:0C" = Ok "00000C000000"
  /\ DUT.normalize "00:1B:C5:00:00:00" = Ok "001BC5000000"
  /\ DUT.normalize "FF:FF:FF:FF" = Raise IndexError
  /\ DUT.normalize "00:00:0C:12" = Ok "0000000C0012"
  /\ (fst (DUT.oui_list VRF_DEFAULT (world_with 0 (Some five_octet_document) ∅))
      = Raise AddrFormatError
      /\ configlets (snd (DUT.oui_list VRF_DEFAULT
                            (world_with 0 (Some five_octet_document) ∅))) = ∅)
  /\ Re.finditer (line "AA:BB" "Two" +:+ line "00:00:0C" "Cisco")
     = Re.finditer (line "00:00:0C" "Cisco")
  /\ matched_prefix "AA:BB:CC:DD:EE".
Proof.
  destruct aborted_refresh_C10
    as (Hshape & Htwo & Hmatch & Hfive & Hfour & Hstored & Hloop & Hlist & _ & _ & _ & _
        & Hthree & Hsix).
  split; [|split; [|split; [|split; [|split; [|split; [|split; [|split]]]]]]].
  - apply (Hfive "A" "A" "B" "B" "C" "C" "D" "D" "E" "E")%char. reflexivity.
  - apply (Hloop [("00:00:0C", "Cisco")] "AA:BB:CC:DD:EE" "Five" [] [] AddrFormatError).
    + constructor; [|constructor]. exists "00000C000000". reflexivity.
    + reflexivity.
  - apply (Hthree "0" "0" "0" "0" "0" "C")%char. reflexivity.
  - apply (Hsix "0" "0" "1" "B" "C" "5" "0" "0" "0" "0" "0" "0")%char. reflexivity.
  - apply (Hfour "F" "F" "F" "F" "F" "F" "F" "F")%char; [reflexivity | left; discriminate].
  - apply (Hstored "0" "0" "0" "C" "1" "2")%char. reflexivity.
  - apply (Hlist VRF_DEFAULT (world_with 0 (Some five_octet_document) ∅) five_octet_document
             [("00:00:0C", "Cisco")] "AA:BB:CC:DD:EE" "Five" [] AddrFormatError).
    + split; [reflexivity | now left].
    + reflexivity.
    + reflexivity.
    + constructor; [|constructor]. exists "00000C000000". reflexivity.
    + reflexivity.
  - apply (Htwo "A"%char "A"%char "B"%char "B"%char "Two" (line "00:00:0C" "Cisco"));
      reflexivity.
  - apply (Hshape five_octet_document ("AA:BB:CC:DD:EE", "Five")). right. now left.
Defined.
